(** * Netlify CMS GitHub backend: the git-object orchestration client

    A shallow embedding of [packages/netlify-cms-backend-github/src/API.js]:
    the content-key / branch-name scheme, the object store client
    ([getTree], [updateTree], [createTree], [commit], refs), the metadata
    store with its semaphore, the pull-request life cycle, the editorial
    workflow operations and the single-blob rebase.

    Asynchronous methods are embedded as programs of a small request monad
    ([prog]): every call of [this.request] or of [localForage] is a [Call]
    node whose continuation receives the response or the rejection.  Programs
    are run against an arbitrary handler ([run]), or interleaved by a
    scheduler ([sys_step]) when several calls are in flight. *)

From Stdlib Require Import String Ascii List Arith NArith Bool Lia.
From stdpp Require Import base option list strings gmap stringmap.

Set Warnings "-register-all".
Open Scope string_scope.

(** ** JavaScript strings *)

(** [s.substring(n)]: the characters of [s] from index [n] on. *)
Fixpoint substring_from (n : nat) (s : string) : string :=
  match n, s with
  | O, _ => s
  | S _, EmptyString => EmptyString
  | S n', String _ s' => substring_from n' s'
  end.

(** [s.split(sep)] for a one-character separator. *)
Fixpoint split (sep : ascii) (s : string) : list string :=
  match s with
  | EmptyString => [EmptyString]
  | String c s' =>
      if Ascii.eqb c sep then EmptyString :: split sep s'
      else match split sep s' with
           | [] => [String c EmptyString]
           | part :: parts => String c part :: parts
           end
  end.

(** [parts.join(sep)]. *)
Fixpoint join (sep : string) (parts : list string) : string :=
  match parts with
  | [] => ""
  | [part] => part
  | part :: rest => part +:+ sep +:+ join sep rest
  end.

(** [s] has no [/] in it. *)
Fixpoint slash_free (s : string) : bool :=
  match s with
  | EmptyString => true
  | String c s' => negb (Ascii.eqb c "/") && slash_free s'
  end.

(** [s.startsWith(p)]. *)
Definition startsWith (p s : string) : bool := String.prefix p s.

(** The line feed and the double quote. *)
Definition newline : string := String (ascii_of_nat 10) EmptyString.
Definition quote : string := String (ascii_of_nat 34) EmptyString.

(** A value interpolated in a template literal; [None] is [undefined]. *)
Definition interpolate (v : option string) : string := default "undefined" v.

(** [needle] occurs in [hay]. *)
Definition occurs_in (needle hay : string) : Prop :=
  exists before after, hay = before +:+ needle +:+ after.

(** ** The client instance *)

Definition CMS_BRANCH_PREFIX : string := "cms".

(** The fields the constructor sets from [config]. *)
Record API : Type := {
  branch : string;
  useOpenAuthoring : bool;
  repo : string;
  originRepo : string;
  merge_method : string;
  initialWorkflowStatus : string
}.

Definition repoURL (this : API) : string := "/repos/" +:+ repo this.
Definition originRepoURL (this : API) : string := "/repos/" +:+ originRepo this.

(** ** Key / branch scheme *)

Definition generateContentKey (this : API) (collectionName slug : string) : string :=
  if negb (useOpenAuthoring this) then slug
  else repo this +:+ "/" +:+ collectionName +:+ "/" +:+ slug.

Definition generateBranchName (contentKey : string) : string :=
  CMS_BRANCH_PREFIX +:+ "/" +:+ contentKey.

Definition branchNameFromRef (ref : string) : string :=
  substring_from (String.length "refs/heads/") ref.

Definition contentKeyFromRef (ref : string) : string :=
  substring_from (String.length ("refs/heads/" +:+ CMS_BRANCH_PREFIX +:+ "/")) ref.

(** The name under which [createRef(type, name, sha)] registers a ref, which
    is the [ref] field of the entries listed under [git/refs/heads/cms]. *)
Definition refName (type name : string) : string :=
  "refs/" +:+ type +:+ "/" +:+ name.

(** ** Git objects *)

(** Object names.  Blobs and commits are known by an opaque name.  The store
    is content addressed, so the name of a tree determines its listing: a
    tree name is modelled by the listing itself, which is what
    [GET git/trees/:sha] returns for it. *)
Inductive sha : Type :=
  | Sha (id : string)
  | TreeSha (tree : list tree_entry)
with tree_entry : Type :=
  | TreeEntry (path mode type : string) (name : sha).

Definition entry_path (e : tree_entry) : string :=
  let 'TreeEntry path _ _ _ := e in path.
Definition entry_mode (e : tree_entry) : string :=
  let 'TreeEntry _ mode _ _ := e in mode.
Definition entry_type (e : tree_entry) : string :=
  let 'TreeEntry _ _ type _ := e in type.
Definition entry_sha (e : tree_entry) : sha :=
  let 'TreeEntry _ _ _ name := e in name.

(** [a === b] on object names. *)
Fixpoint sha_eqb (a b : sha) {struct a} : bool :=
  match a, b with
  | Sha x, Sha y => String.eqb x y
  | TreeSha t1, TreeSha t2 =>
      (fix entries_eqb (l1 l2 : list tree_entry) {struct l1} : bool :=
         match l1, l2 with
         | [], [] => true
         | TreeEntry p1 m1 k1 s1 :: r1, TreeEntry p2 m2 k2 s2 :: r2 =>
             String.eqb p1 p2 && String.eqb m1 m2 && String.eqb k1 k2
             && sha_eqb s1 s2 && entries_eqb r1 r2
         | _, _ => false
         end) t1 t2
  | _, _ => false
  end.

(** The [sha] property of an entry sent to [POST git/trees]: left out
    ([undefined] is dropped by [JSON.stringify]), [null], or a name. *)
Inductive sha_field : Type :=
  | ShaUndefined
  | ShaNull
  | ShaOf (s : sha).

(** An element of the [tree] array sent to [POST git/trees]. *)
Record tree_update : Type := {
  u_path : string;
  u_mode : option string;
  u_type : option string;
  u_sha : sha_field
}.

Record person : Type := {
  person_name : string;
  person_email : string;
  person_date : string
}.

(** [message], [author], [committer] and [tree.sha] of a commit. *)
Record commit_data : Type := {
  message : string;
  author : option person;
  committer : option person;
  tree_sha : sha
}.

(** A commit as the API returns it.  The git data API ([POST git/commits])
    returns the flat form; the repository API (branches, commits of a pull
    request) nests the git data in a [commit] property.  [parents] is
    [None] when the object has no such property. *)
Inductive commit : Type :=
  | GitCommit (name : sha) (data : commit_data) (parents : option (list sha))
  | RepoCommit (name : sha) (nested : commit_data) (parents : list sha).

Definition commit_sha (c : commit) : sha :=
  match c with GitCommit s _ _ | RepoCommit s _ _ => s end.

(** [c.parents]. *)
Definition commit_parents (c : commit) : option (list sha) :=
  match c with GitCommit _ _ ps => ps | RepoCommit _ _ ps => Some ps end.

(** The flat properties of [c]: [None] on the nested form, where
    [c.message], [c.tree] and so on are [undefined]. *)
Definition commit_flat (c : commit) : option commit_data :=
  match c with GitCommit _ d _ => Some d | RepoCommit _ _ _ => None end.

(** ** Workflow metadata and pull requests *)

Record pr_metadata : Type := {
  pr_number : nat;
  pr_head : option sha
}.

Record object_ref : Type := {
  o_path : string;
  o_sha : option sha
}.

Record objects : Type := {
  o_entry : object_ref;
  o_files : list object_ref
}.

Record metadata : Type := {
  m_type : string;
  m_pr : option pr_metadata;
  m_user : string;
  m_status : string;
  m_branch : string;
  m_collection : string;
  m_commitMessage : option string;
  m_title : option string;
  m_description : option string;
  m_objects : objects;
  m_timeStamp : string
}.

(** [{ ...metadata, status }] and [{ ...metadata, pr, status }]. *)
Definition with_status (m : metadata) (status : string) : metadata :=
  {| m_type := m_type m; m_pr := m_pr m; m_user := m_user m;
     m_status := status; m_branch := m_branch m;
     m_collection := m_collection m; m_commitMessage := m_commitMessage m;
     m_title := m_title m; m_description := m_description m;
     m_objects := m_objects m; m_timeStamp := m_timeStamp m |}.

Definition with_pr_status (m : metadata) (pr : pr_metadata) (status : string)
  : metadata :=
  {| m_type := m_type m; m_pr := Some pr; m_user := m_user m;
     m_status := status; m_branch := m_branch m;
     m_collection := m_collection m; m_commitMessage := m_commitMessage m;
     m_title := m_title m; m_description := m_description m;
     m_objects := m_objects m; m_timeStamp := m_timeStamp m |}.

(** A pull request as the platform reports it. *)
Record pull_request : Type := {
  pull_number : nat;
  pull_head : sha;
  pull_head_ref : string;
  pull_base : string;
  pull_state : string;
  pull_merged_at : option string
}.

(** The content of a blob: text, or the JSON text of a metadata object
    ([JSON.stringify(data)], read back by [JSON.parse]). *)
Inductive content : Type :=
  | Raw (text : string)
  | Json (data : metadata).

(** ** Files and file trees *)

(** A file handed to the persist pipeline or recorded in the metadata:
    only [path] is always there. *)
Record file : Type := {
  f_path : string;
  f_sha : option sha;
  f_raw : option content;
  f_remove : bool;
  f_skip : bool
}.

(** The nested object [composeFileTree] builds: a leaf is a file (its
    [file] flag is set), an inner node maps path segments to subtrees, in
    insertion order. *)
Inductive FileTree : Type :=
  | File (f : file)
  | Dir (children : list (string * FileTree)).

(** An entry of the metadata cache: [{ expires, data }]. *)
Record cached : Type := {
  expires : N;
  cached_data : metadata
}.

(** ** Errors *)

(** What a promise is rejected with: the [APIError] that [request] throws
    through [handleRequestError], with the platform's message and the HTTP
    status, or an [Error] of the client's own. *)
Inductive error : Type :=
  | APIError (message : string) (status : option nat)
  | Error (message : string).

Definition error_message (e : error) : string :=
  match e with APIError m _ | Error m => m end.

(** Reading a property of [undefined]. *)
Definition TypeError : error := Error "TypeError".

Inductive result (A : Type) : Type :=
  | Ok (a : A)
  | Err (e : error).
Arguments Ok {A} a.
Arguments Err {A} e.

(** ** Requests *)

(** What the client asks of its collaborators: the platform's REST API
    (each request names the repository it is addressed to), the local cache
    [localForage] and the clock. *)
Inductive req : Type :=
  | GET_user
  | GET_ref (repoURL type name : string)
  | POST_refs (repoURL ref : string) (s : sha)
  | PATCH_ref (repoURL type name : string) (s : sha) (force : bool)
  | DELETE_ref (repoURL type name : string)
  | GET_branch (repoURL name : string)
  | POST_blobs (repoURL : string) (raw : content)
  | GET_tree (repoURL : string) (s : sha)
  | POST_trees (repoURL : string) (base_tree : option sha) (tree : list tree_update)
  | POST_commits (repoURL : string) (msg : string) (tree : sha)
      (parents : list sha) (author committer : option person)
  | GET_contents (repoURL path ref : string)
  | GET_pull (repoURL : string) (number : nat)
  | POST_pulls (repoURL title body head base : string)
  | PATCH_pull (repoURL : string) (number : nat) (state : string)
  | PUT_pull_merge (repoURL : string) (number : nat) (commit_message : string)
      (s : option sha) (method : string)
  | getItem (key : string)
  | setItem (key : string) (value : cached)
  | Date_now.

(** The parsed body of a response. *)
Inductive resp : Type :=
  | RNone
  | RUser (login : string) (name : option string)
  | RRef (object_sha : sha)
  | RBranch (c : commit)
  | RSha (s : sha)
  | RTree (tree : list tree_entry)
  | RCommit (c : commit)
  | RText (raw : content)
  | RPull (p : pull_request)
  | RCached (c : option cached)
  | RTime (now : N).

(** ** The request monad *)

(** An asynchronous computation: it returns, throws, or awaits a request
    and goes on with the response or the rejection.  [Take] and [Leave] are
    the two operations of the metadata semaphore: the continuation of
    [Take] is the callback given to [semaphore.take], which runs once the
    slot is granted; [leave()] returns or throws. *)
Inductive prog (A : Type) : Type :=
  | Ret (a : A)
  | Throw (e : error)
  | Call (r : req) (k : result resp -> prog A)
  | Take (k : prog A)
  | Leave (k : result unit -> prog A).
Arguments Ret {A} a.
Arguments Throw {A} e.
Arguments Call {A} r k.
Arguments Take {A} k.
Arguments Leave {A} k.

Fixpoint bind {A B : Type} (p : prog A) (f : A -> prog B) : prog B :=
  match p with
  | Ret a => f a
  | Throw e => Throw e
  | Call r k => Call r (fun x => bind (k x) f)
  | Take k => Take (bind k f)
  | Leave k => Leave (fun x => bind (k x) f)
  end.

(** [p.catch(handler)], or [try { p } catch (err) { handler }]. *)
Fixpoint catch {A : Type} (p : prog A) (handler : error -> prog A) : prog A :=
  match p with
  | Ret a => Ret a
  | Throw e => handler e
  | Call r k => Call r (fun x => catch (k x) handler)
  | Take k => Take (catch k handler)
  | Leave k => Leave (fun x => catch (k x) handler)
  end.

Declare Scope prog_scope.
Delimit Scope prog_scope with prog.
Notation "x <- p ;; q" := (bind p (fun x => q))
  (at level 100, p at next level, right associativity) : prog_scope.
Notation "p ;; q" := (bind p (fun _ => q))
  (at level 100, right associativity) : prog_scope.
Open Scope prog_scope.

(** [await request(...)]: the response, or the rejection rethrown. *)
Definition request (r : req) : prog resp :=
  Call r (fun x => match x with Ok v => Ret v | Err e => Throw e end).

(** [semaphore.leave()]. *)
Definition leave : prog unit :=
  Leave (fun x => match x with Ok _ => Ret tt | Err e => Throw e end).

(** A promise that is started and not awaited: its requests are issued,
    its value or its rejection is dropped. *)
Definition detached {A : Type} (p : prog A) : prog unit :=
  catch (p ;; Ret tt) (fun _ => Ret tt).

(** [Promise.all(ps)], the requests of the members taken from left to
    right. *)
Fixpoint all {A : Type} (ps : list (prog A)) : prog (list A) :=
  match ps with
  | [] => Ret []
  | p :: rest => a <- p ;; others <- all rest ;; Ret (a :: others)
  end.

(** ** Running a program against its collaborators *)

(** The collaborators answer each request from a state of their own. *)
Definition handler (W : Type) : Type := req -> W -> result resp * W.

Definition event : Type := req * result resp.

(** How a promise ends: resolved, rejected, or never settled. *)
Inductive outcome (A : Type) : Type :=
  | Resolved (a : A)
  | Rejected (e : error)
  | Pending.
Arguments Resolved {A} a.
Arguments Rejected {A} e.
Arguments Pending {A}.

Record ran (W A : Type) : Type := {
  ended : outcome A;
  world : W;
  current : nat;
  trace : list event
}.
Arguments ended {W A} r.
Arguments world {W A} r.
Arguments current {W A} r.
Arguments trace {W A} r.

Definition traced {W A : Type} (ev : event) (r : ran W A) : ran W A :=
  {| ended := ended r; world := world r; current := current r;
     trace := ev :: trace r |}.

(** [run h p w n] runs [p] alone: [w] is the state of the collaborators and
    [n] the [current] count of the instance's semaphore (capacity 1).  The
    callback of a [take] on a busy semaphore is queued; with no other call
    in flight nothing will release the slot, and the promise never
    settles.  A [leave] with nothing taken throws (the count is kept at 0
    here; no method of the client leaves before it has taken). *)
Fixpoint run {W A : Type} (h : handler W) (p : prog A) (w : W) (n : nat)
  : ran W A :=
  match p with
  | Ret a => {| ended := Resolved a; world := w; current := n; trace := [] |}
  | Throw e => {| ended := Rejected e; world := w; current := n; trace := [] |}
  | Call r k => let (x, w') := h r w in traced (r, x) (run h (k x) w' n)
  | Take k =>
      if Nat.ltb 1 (n + 1)
      then {| ended := Pending; world := w; current := n; trace := [] |}
      else run h k w (n + 1)
  | Leave k =>
      match n with
      | O => run h (k (Err (Error "leave called too many times."))) w n
      | S n' => run h (k (Ok tt)) w n'
      end
  end.

(** ** Small helpers from the standard library of the source *)

(** Whether an optional property is set. *)
Definition truthy {A : Type} (v : option A) : bool :=
  match v with Some _ => true | None => false end.

(** [v || d] on an optional string: the empty string is falsy too. *)
Definition or_else (v : option string) (d : string) : string :=
  match v with
  | None | Some EmptyString => d
  | Some s => s
  end.

(** lodash [last(xs)]: [undefined] on the empty array. *)
Definition last_of {A : Type} (xs : list A) : option A := List.last (map Some xs) None.

(** lodash [find(tree, { path: name })]. *)
Definition find_path (name : string) (tree : list tree_entry) : option tree_entry :=
  List.find (fun e => String.eqb (entry_path e) name) tree.

(** [path.split('/').filter(part => part)]. *)
Definition path_segments (path : string) : list string :=
  List.filter (fun part => negb (String.eqb part "")) (split "/" path).

(** [children[name]] on the object of a directory node. *)
Fixpoint lookup_child (name : string) (children : list (string * FileTree))
    : option FileTree :=
  match children with
  | [] => None
  | (k, sub) :: rest => if String.eqb k name then Some sub else lookup_child name rest
  end.

(** [children[name] = sub]: an existing key keeps its place. *)
Fixpoint set_child (name : string) (sub : FileTree)
  (children : list (string * FileTree)) : list (string * FileTree) :=
  match children with
  | [] => [(name, sub)]
  | (k, old) :: rest =>
      if String.eqb k name then (k, sub) :: rest
      else (k, old) :: set_child name sub rest
  end.

(** What [updateTree] resolves to: a tree entry (mode 040000, type tree)
    that also remembers the tree it was derived from. *)
Record changeTree : Type := {
  ct_path : string;
  ct_sha : sha;
  ct_parentSha : option sha
}.

Definition update_of_changeTree (c : changeTree) : tree_update :=
  {| u_path := ct_path c; u_mode := Some "040000"; u_type := Some "tree";
     u_sha := ShaOf (ct_sha c) |}.

Definition sha_field_of (s : option sha) : sha_field :=
  match s with Some x => ShaOf x | None => ShaUndefined end.

(** [{ ...blob, path }] for the result of a lodash [find]. *)
Definition update_of_blob (blob : option tree_entry) (path : string) : tree_update :=
  {| u_path := path;
     u_mode := entry_mode <$> blob;
     u_type := entry_type <$> blob;
     u_sha := sha_field_of (entry_sha <$> blob) |}.

(** An [{ path, sha }] record of the metadata seen as a file. *)
Definition file_of_object (o : object_ref) : file :=
  {| f_path := o_path o; f_sha := o_sha o; f_raw := None;
     f_remove := false; f_skip := false |}.

(** [JSON.parse(text)]. *)
Definition JSON_parse (text : content) : prog metadata :=
  match text with
  | Json data => Ret data
  | Raw _ => Throw (Error "SyntaxError")
  end.

(** ** The client *)

Section Client.

Variable this : API.

Definition DEFAULT_COMMIT_MESSAGE : string := "Automatically generated by Netlify CMS".
Definition DEFAULT_PR_BODY : string := "Automatically generated by Netlify CMS".

(** [user()].  The instance keeps the promise of its first call; the model
    asks again on each call. *)
Definition user : prog (string * option string) :=
  r <- request GET_user ;;
  match r with
  | RUser login name => Ret (login, name)
  | _ => Throw TypeError
  end.

(** *** Object store *)

Definition getTree (s : option sha) : prog (list tree_entry) :=
  match s with
  | Some s =>
      r <- request (GET_tree (repoURL this) s) ;;
      match r with RTree tree => Ret tree | _ => Throw TypeError end
  | None => Ret []
  end.

Definition createTree (baseSha : option sha) (tree : list tree_update) : prog sha :=
  r <- request (POST_trees (repoURL this) baseSha tree) ;;
  match r with RSha s => Ret s | _ => Throw TypeError end.

Definition createCommit (msg : string) (treeSha : sha) (parents : list sha)
  (author committer : option person) : prog commit :=
  r <- request (POST_commits (repoURL this) msg treeSha parents author committer) ;;
  match r with RCommit c => Ret c | _ => Throw TypeError end.

Definition commit_ (msg : string) (c : changeTree) : prog commit :=
  let parents := match ct_parentSha c with Some p => [p] | None => [] end in
  createCommit msg (ct_sha c) parents None None.

(** [uploadBlob(item)] sets [item.sha] and returns the item. *)
Definition uploadBlob (item : file) : prog file :=
  r <- request (POST_blobs (repoURL this) (default (Raw "") (f_raw item))) ;;
  match r with
  | RSha s =>
      Ret {| f_path := f_path item; f_sha := Some s; f_raw := f_raw item;
             f_remove := f_remove item; f_skip := f_skip item |}
  | _ => Throw TypeError
  end.

Definition createRef (type name : string) (s : sha) : prog sha :=
  r <- request (POST_refs (repoURL this) (refName type name) s) ;;
  match r with RRef object => Ret object | _ => Throw TypeError end.

Definition patchRef (type name : string) (s : sha) (force : bool) : prog resp :=
  request (PATCH_ref (repoURL this) type name s force).

Definition deleteRef (type name : string) : prog resp :=
  request (DELETE_ref (repoURL this) type name).

Definition getBranch (name : string) : prog commit :=
  r <- request (GET_branch (repoURL this) name) ;;
  match r with RBranch c => Ret c | _ => Throw TypeError end.

Definition createBranch (branchName : string) (s : sha) : prog sha :=
  createRef "heads" branchName s.

Definition assertCmsBranch (branchName : string) : bool :=
  startsWith (CMS_BRANCH_PREFIX +:+ "/") branchName.

Definition patchBranch (branchName : string) (s : sha) (force : bool) : prog resp :=
  if force && negb (assertCmsBranch branchName)
  then Throw (Error ("Only CMS branches can be force updated, cannot force update "
                     +:+ branchName))
  else patchRef "heads" branchName s force.

Definition deleteBranch (branchName : string) : prog resp :=
  deleteRef "heads" branchName.

(** [updateTree(sha, path, fileTree)].  The first loop goes over the
    entries of the base tree that [fileTree] names, the second over the
    keys of [fileTree] the base tree does not have.  It is only ever called
    on a directory node. *)
Fixpoint updateTree (s : option sha) (path : string) (fileTree : FileTree)
  {struct fileTree} : prog changeTree :=
  match fileTree with
  | File _ => Throw TypeError
  | Dir children =>
      tree <- getTree s ;;
      let updated : list (prog tree_update) :=
        flat_map (fun obj =>
          (fix lookup (cs : list (string * FileTree)) : list (prog tree_update) :=
             match cs with
             | [] => []
             | (k, fileOrDir) :: cs' =>
                 if String.eqb k (entry_path obj)
                 then [match fileOrDir with
                       | File f =>
                           Ret {| u_path := entry_path obj;
                                  u_mode := Some (entry_mode obj);
                                  u_type := Some (entry_type obj);
                                  u_sha := if f_remove f then ShaNull
                                           else sha_field_of (f_sha f) |}
                       | Dir _ =>
                           c <- updateTree (Some (entry_sha obj)) (entry_path obj)
                                  fileOrDir ;;
                           Ret (update_of_changeTree c)
                       end]
                 else lookup cs'
             end) children) tree in
      let added (filename : string) : bool :=
        existsb (fun obj => String.eqb (entry_path obj) filename) tree in
      let new : list (prog tree_update) :=
        (fix keys (cs : list (string * FileTree)) : list (prog tree_update) :=
           match cs with
           | [] => []
           | (filename, fileOrDir) :: cs' =>
               if added filename then keys cs'
               else match fileOrDir with
                    | File f =>
                        Ret {| u_path := filename; u_mode := Some "100644";
                               u_type := Some "blob";
                               u_sha := sha_field_of (f_sha f) |}
                    | Dir _ =>
                        c <- updateTree None filename fileOrDir ;;
                        Ret (update_of_changeTree c)
                    end :: keys cs'
           end) children in
      updates <- all (updated ++ new) ;;
      response <- createTree s updates ;;
      Ret {| ct_path := path; ct_sha := response; ct_parentSha := s |}
  end.

(** [composeFileTree(files)].  A file whose path runs through an earlier
    file leaves that leaf in place: the file object is reused as the
    directory and keeps its [file] flag. *)
Fixpoint insert_file (parts : list string) (f : file)
  (children : list (string * FileTree)) : list (string * FileTree) :=
  match parts with
  | [] => set_child (interpolate None) (File f) children
  | [filename] => set_child filename (File f) children
  | part :: rest =>
      match lookup_child part children with
      | Some (Dir sub) => set_child part (Dir (insert_file rest f sub)) children
      | Some (File _) => children
      | None => set_child part (Dir (insert_file rest f [])) children
      end
  end.

Definition composeFileTree (files : list file) : FileTree :=
  Dir (fold_left (fun tree f =>
                    if f_skip f then tree
                    else insert_file (path_segments (f_path f)) f tree)
                 files []).

(** [getBlobInTree(treeSha, pathToBlob)]: one [getTree] per directory. *)
Fixpoint getBlobInTree_walk (tree : list tree_entry) (directories : list string)
  : prog (list tree_entry) :=
  match directories with
  | [] => Ret tree
  | segment :: rest =>
      match find_path segment tree with
      | None => Throw TypeError
      | Some sub =>
          subTree <- getTree (Some (entry_sha sub)) ;;
          getBlobInTree_walk subTree rest
      end
  end.

Definition getBlobInTree (treeSha : sha) (pathToBlob : string)
  : prog (option tree_entry) :=
  let pathSegments := path_segments pathToBlob in
  let directories := removelast pathSegments in
  let filename := last_of pathSegments in
  baseTree <- getTree (Some treeSha) ;;
  subTree <- getBlobInTree_walk baseTree directories ;;
  Ret (match filename with
       | Some name => find_path name subTree
       | None => None
       end).

(** *** Rebase engine *)

Definition normalizeCommit (c : commit) : commit :=
  match c with
  | RepoCommit name nested _ => GitCommit name nested None
  | GitCommit _ _ _ => c
  end.

Definition rebaseSingleBlobCommit (baseCommit c : commit) (pathToBlob : string)
  : prog commit :=
  match commit_flat c with
  | None => Throw TypeError
  | Some original =>
      let parent := [commit_sha baseCommit] in
      blob <- getBlobInTree (tree_sha original) pathToBlob ;;
      match commit_flat baseCommit with
      | None => Throw TypeError
      | Some base =>
          tree <- createTree (Some (tree_sha base))
                    [update_of_blob blob pathToBlob] ;;
          createCommit (message original) tree parent
            (author original) (committer original)
      end
  end.

(** The [reduce] of [rebaseSingleBlobCommits]. *)
Definition rebase_step (pathToBlob : string) (lastCommitPromise : prog commit)
  (c : commit) : prog commit :=
  newParent <- lastCommitPromise ;;
  let parent := normalizeCommit newParent in
  let commitToRebase := normalizeCommit c in
  rebaseSingleBlobCommit parent commitToRebase pathToBlob.

Definition rebaseSingleBlobCommits (baseCommit : commit) (commits : list commit)
  (pathToBlob : string) : prog (option commit) :=
  match commits with
  | [] => Ret (last_of commits)
  | first :: _ =>
      match commit_parents first with
      | Some (parent :: _) =>
          if sha_eqb parent (commit_sha baseCommit)
          then Ret (last_of commits)
          else
            newHead <- fold_left (rebase_step pathToBlob) commits (Ret baseCommit) ;;
            Ret (Some newHead)
      | _ => Throw TypeError
      end
  end.

(** [assertHead(commits, headToAssert)] is synchronous: it returns or it
    throws. *)
Definition assertHead (commits : list commit) (headToAssert : commit)
  : result (list commit) :=
  match commit_parents headToAssert with
  | Some (parent :: _) =>
      match last_of commits with
      | Some lastCommit =>
          let headIsMissing := sha_eqb parent (commit_sha lastCommit) in
          let headIsNotMissing :=
            sha_eqb (commit_sha headToAssert) (commit_sha lastCommit) in
          if headIsMissing then Ok (commits ++ [headToAssert])%list
          else if headIsNotMissing then Ok commits
          else Err (Error "Editorial workflow branch changed unexpectedly.")
      | None => Err TypeError
      end
  | _ => Err TypeError
  end.

(** *** Metadata store *)

Definition readme : file :=
  {| f_path := "README.md";
     f_sha := None;
     f_raw := Some (Raw ("# Netlify CMS" +:+ newline +:+ newline +:+
       "This tree is used by the Netlify CMS to store metadata information for specific files and branches."));
     f_remove := false; f_skip := false |}.

Definition checkMetadataRef : prog sha :=
  catch
    (r <- request (GET_ref (repoURL this) "meta" "_netlify_cms") ;;
     match r with RRef object => Ret object | _ => Throw TypeError end)
    (fun _ =>
       item <- uploadBlob readme ;;
       tree <- createTree None
                 [{| u_path := "README.md"; u_mode := Some "100644";
                     u_type := Some "blob"; u_sha := sha_field_of (f_sha item) |}] ;;
       response <- commit_ "First Commit"
                     {| ct_path := ""; ct_sha := tree; ct_parentSha := None |} ;;
       createRef "meta" "_netlify_cms" (commit_sha response)).

(** [storeMetadata(key, data)].  The callback of [take] runs the write
    sequence in a [try]: at its end it leaves the semaphore and resolves
    the promise; the [catch] rejects the promise. *)
Definition storeMetadata (key : string) (data : metadata) : prog unit :=
  Take
    (catch
       (branchData <- checkMetadataRef ;;
        item <- uploadBlob {| f_path := key +:+ ".json"; f_sha := None;
                              f_raw := Some (Json data);
                              f_remove := false; f_skip := false |} ;;
        let fileTree := Dir [(key +:+ ".json", File item)] in
        changeTree <- updateTree (Some branchData) "/" fileTree ;;
        response <- commit_ ("Updating “" +:+ key +:+ "” metadata") changeTree ;;
        patchRef "meta" "_netlify_cms" (commit_sha response) false ;;
        now <- request Date_now ;;
        match now with
        | RTime now =>
            detached (request (setItem ("gh.meta." +:+ key)
                                 {| expires := (now + 300000)%N; cached_data := data |})) ;;
            leave
        | _ => Throw TypeError
        end)
       (fun err => Throw err)).

Definition retrieveMetadata (key : string) : prog metadata :=
  cache <- request (getItem ("gh.meta." +:+ key)) ;;
  fresh <- match cache with
           | RCached (Some c) =>
               now <- request Date_now ;;
               match now with
               | RTime now =>
                   Ret (if N.ltb now (expires c) then Some (cached_data c) else None)
               | _ => Throw TypeError
               end
           | RCached None => Ret None
           | _ => Throw TypeError
           end ;;
  match fresh with
  | Some data => Ret data
  | None =>
      let url :=
        if negb (useOpenAuthoring this) then repoURL this
        else
          let parts := split "/" key in
          "/repos/" +:+ interpolate (nth_error parts 0) +:+ "/"
          +:+ interpolate (nth_error parts 1) in
      response <- request (GET_contents url (key +:+ ".json") "refs/meta/_netlify_cms") ;;
      match response with
      | RText text => JSON_parse text
      | _ => Throw (Error "SyntaxError")
      end
  end.

(** *** Pull requests *)

Definition getPullRequest (prNumber : nat) : prog pull_request :=
  r <- request (GET_pull (originRepoURL this) prNumber) ;;
  match r with RPull p => Ret p | _ => Throw TypeError end.

Definition createPR (title head : string) : prog pull_request :=
  headReference <- (if useOpenAuthoring this
                    then u <- user ;; Ret (fst u +:+ ":" +:+ head)
                    else Ret head) ;;
  r <- request (POST_pulls (originRepoURL this) title DEFAULT_PR_BODY
                  headReference (branch this)) ;;
  match r with RPull p => Ret p | _ => Throw TypeError end.

Definition openPR (pullRequest : pr_metadata) : prog resp :=
  request (PATCH_pull (originRepoURL this) (pr_number pullRequest) "open").

Definition closePR (pullRequest : pr_metadata) : prog resp :=
  request (PATCH_pull (originRepoURL this) (pr_number pullRequest) "closed").

(** The commit message of a forced merge: one line per file. *)
Definition forceMergeMessage (files : list file) : string :=
  fold_left (fun commitMessage f =>
               commitMessage +:+ newline +:+ "* " +:+ quote +:+ f_path f +:+ quote)
    files
    ("Automatically generated. Merged on Netlify CMS" +:+ newline +:+ newline
     +:+ "Force merge of:").

Definition forceMergePR (pullrequest : pr_metadata) (objects : objects) : prog resp :=
  let files := map file_of_object (o_files objects ++ [o_entry objects])%list in
  let fileTree := composeFileTree files in
  let commitMessage := forceMergeMessage files in
  branchData <- getBranch (branch this) ;;
  changeTree <- updateTree (Some (commit_sha branchData)) "/" fileTree ;;
  response <- commit_ commitMessage changeTree ;;
  patchBranch (branch this) (commit_sha response) false.

Definition mergePR (pullrequest : pr_metadata) (objects : objects) : prog resp :=
  catch
    (request (PUT_pull_merge (originRepoURL this) (pr_number pullrequest)
                "Automatically generated. Merged on Netlify CMS."
                (pr_head pullrequest) (merge_method this)))
    (fun error =>
       match error with
       | APIError _ (Some 405) => forceMergePR pullrequest objects
       | _ => Throw error
       end).

(** [createBranchAndPullRequest(branchName, sha, commitMessage)]. *)
Definition createBranchAndPullRequest (branchName : string) (s : sha)
  (commitMessage : string) : prog pull_request :=
  createBranch branchName s ;;
  createPR commitMessage branchName.

(** *** Editorial workflow *)

Definition updateUnpublishedEntryStatus (collectionName slug status : string)
  : prog unit :=
  let contentKey := generateContentKey this collectionName slug in
  metadata <- retrieveMetadata contentKey ;;
  if negb (useOpenAuthoring this)
  then storeMetadata contentKey (with_status metadata status)
  else if String.eqb status "pending_publish"
  then Throw (Error ("Open Authoring entries may not be set to the status "
                     +:+ quote +:+ "pending_publish" +:+ quote +:+ "."))
  else
    match m_pr metadata with
    | Some prMetadata =>
        originPRInfo <- getPullRequest (pr_number prMetadata) ;;
        let state := pull_state originPRInfo in
        if String.eqb state "open" && String.eqb status "draft"
        then closePR prMetadata ;;
             storeMetadata contentKey (with_status metadata status)
        else if String.eqb state "closed" && String.eqb status "pending_review"
        then openPR prMetadata ;;
             storeMetadata contentKey (with_status metadata status)
        else Ret tt
    | None =>
        if String.eqb status "pending_review"
        then
          let branchName := generateBranchName contentKey in
          let commitMessage := or_else (m_commitMessage metadata) DEFAULT_COMMIT_MESSAGE in
          created <- createPR commitMessage branchName ;;
          storeMetadata contentKey
            (with_pr_status metadata
               {| pr_number := pull_number created;
                  pr_head := Some (pull_head created) |}
               status)
        else Ret tt
    end.

Definition deleteUnpublishedEntry (collectionName slug : string) : prog unit :=
  let contentKey := generateContentKey this collectionName slug in
  let branchName := generateBranchName contentKey in
  catch
    (metadata <- retrieveMetadata contentKey ;;
     match m_pr metadata with
     | Some pr => closePR pr ;; Ret tt
     | None => Ret tt
     end ;;
     deleteBranch branchName ;;
     Ret tt)
    (fun err =>
       if String.eqb (error_message err) "Reference does not exist"
       then Ret tt
       else Throw err).

Definition publishUnpublishedEntry (collectionName slug : string) : prog resp :=
  let contentKey := generateContentKey this collectionName slug in
  let branchName := generateBranchName contentKey in
  metadata <- retrieveMetadata contentKey ;;
  match m_pr metadata with
  | None => Throw TypeError
  | Some pr => mergePR pr (m_objects metadata)
  end ;;
  deleteBranch branchName.

(** [getUpdatedOpenAuthoringMetadata(contentKey, { metadata })]: the
    metadata brought in line with the pull request, or [undefined] when the
    entry was merged.  [storeMetadata] in the first branch and
    [deleteUnpublishedEntry] are started and not awaited. *)
Definition getUpdatedOpenAuthoringMetadata (contentKey : string)
  (metadataArg : option metadata) : prog (option metadata) :=
  metadata <- match metadataArg with
              | Some m => Ret m
              | None => retrieveMetadata contentKey
              end ;;
  let status := m_status metadata in
  match m_pr metadata with
  | None =>
      if negb (String.eqb status "draft")
      then
        let newMetadata := with_status metadata "draft" in
        detached (storeMetadata contentKey newMetadata) ;;
        Ret (Some newMetadata)
      else Ret (Some metadata)
  | Some prMetadata =>
      originPRInfo <- getPullRequest (pr_number prMetadata) ;;
      let currentState := pull_state originPRInfo in
      let mergedAt := pull_merged_at originPRInfo in
      if String.eqb currentState "closed" && truthy mergedAt
      then
        let parts := split "/" contentKey in
        let collectionName := nth_error parts 1 in
        let slug := nth_error parts 2 in
        detached (deleteUnpublishedEntry (interpolate collectionName)
                    (interpolate slug)) ;;
        Ret None
      else if String.eqb currentState "closed"
      then
        if negb (String.eqb status "draft")
        then
          let newMetadata := with_status metadata "draft" in
          storeMetadata contentKey newMetadata ;;
          Ret (Some newMetadata)
        else Ret (Some metadata)
      else
        if negb (String.eqb status "pending_review")
        then
          let newMetadata := with_status metadata "pending_review" in
          storeMetadata contentKey newMetadata ;;
          Ret (Some newMetadata)
        else Ret (Some metadata)
  end.

End Client.

(** ** A model of the platform *)

(** The listing a path resolves to inside a tree. *)
Fixpoint tree_lookup (segments : list string) (tree : list tree_entry)
  : option tree_entry :=
  match segments with
  | [] => None
  | [name] => find_path name tree
  | name :: rest =>
      match find_path name tree with
      | Some (TreeEntry _ _ _ (TreeSha sub)) => tree_lookup rest sub
      | _ => None
      end
  end.

(** An entry overwrites the entry of the same name, or is added. *)
Fixpoint put_entry (e : tree_entry) (tree : list tree_entry) : list tree_entry :=
  match tree with
  | [] => [e]
  | old :: rest =>
      if String.eqb (entry_path old) (entry_path e) then e :: rest
      else old :: put_entry e rest
  end.

Definition remove_entry (name : string) (tree : list tree_entry) : list tree_entry :=
  List.filter (fun e => negb (String.eqb (entry_path e) name)) tree.

(** The subtree under [name], empty when there is none. *)
Definition subtree (name : string) (tree : list tree_entry) : list tree_entry :=
  match find_path name tree with
  | Some (TreeEntry _ _ _ (TreeSha sub)) => sub
  | _ => []
  end.

Fixpoint tree_put (segments : list string) (mode type : string) (s : sha)
  (tree : list tree_entry) : list tree_entry :=
  match segments with
  | [] => tree
  | [name] => put_entry (TreeEntry name mode type s) tree
  | name :: rest =>
      put_entry
        (TreeEntry name "040000" "tree"
           (TreeSha (tree_put rest mode type s (subtree name tree))))
        tree
  end.

Fixpoint tree_remove (segments : list string) (tree : list tree_entry)
  : list tree_entry :=
  match segments with
  | [] => tree
  | [name] => remove_entry name tree
  | name :: rest =>
      match find_path name tree with
      | Some (TreeEntry path mode type (TreeSha sub)) =>
          put_entry (TreeEntry path mode type (TreeSha (tree_remove rest sub))) tree
      | _ => tree
      end
  end.

(** One element of the [tree] parameter of [POST git/trees]: an entry
    overwrites the item of the base tree with the same path, a [null] sha
    deletes it; an entry without mode, type or sha is refused. *)
Definition apply_update (tree : list tree_entry) (u : tree_update)
  : option (list tree_entry) :=
  match u_sha u, u_mode u, u_type u with
  | ShaNull, _, _ => Some (tree_remove (path_segments (u_path u)) tree)
  | ShaOf s, Some mode, Some type =>
      Some (tree_put (path_segments (u_path u)) mode type s tree)
  | _, _, _ => None
  end.

Fixpoint apply_updates (tree : list tree_entry) (updates : list tree_update)
  : option (list tree_entry) :=
  match updates with
  | [] => Some tree
  | u :: rest =>
      match apply_update tree u with
      | Some tree' => apply_updates tree' rest
      | None => None
      end
  end.

(** Trees as git has them: in every listing the names are distinct, not
    empty and without [/]. *)
Definition is_name (s : string) : bool :=
  negb (String.eqb s "") && slash_free s.




(** The state of the collaborators: one repository on the platform (with
    open authoring off the fork and the origin are the same repository; the
    model has one in either mode), the local cache and the clock. *)
Record github : Type := {
  gh_user : string * option string;
  gh_refs : gmap string sha;
  gh_commits : gmap string (commit_data * list sha);
  gh_blobs : gmap string content;
  gh_pulls : gmap nat pull_request;
  gh_cache : gmap string cached;
  gh_clock : N
}.

Definition not_found : error := APIError "Not Found" (Some 404).

(** The listing of a tree-ish: a tree, or the tree of a commit. *)
Definition resolve_tree (w : github) (s : sha) : option (list tree_entry) :=
  match s with
  | TreeSha tree => Some tree
  | Sha id =>
      match gh_commits w !! id with
      | Some (data, _) =>
          match tree_sha data with
          | TreeSha tree => Some tree
          | Sha _ => None
          end
      | None => None
      end
  end.

(** Whether [new] is [old] or has it among its ancestors. *)
Fixpoint descends (fuel : nat) (commits : gmap string (commit_data * list sha))
  (old new : sha) : bool :=
  sha_eqb old new ||
  match fuel, new with
  | S fuel', Sha id =>
      match commits !! id with
      | Some (_, parents) => existsb (descends fuel' commits old) parents
      | None => false
      end
  | _, _ => false
  end.

Definition fast_forward (w : github) (old new : sha) : bool :=
  descends (size (gh_commits w)) (gh_commits w) old new.

Definition set_refs (w : github) (refs : gmap string sha) : github :=
  {| gh_user := gh_user w; gh_refs := refs; gh_commits := gh_commits w;
     gh_blobs := gh_blobs w; gh_pulls := gh_pulls w; gh_cache := gh_cache w;
     gh_clock := gh_clock w |}.

Definition set_pulls (w : github) (pulls : gmap nat pull_request) : github :=
  {| gh_user := gh_user w; gh_refs := gh_refs w; gh_commits := gh_commits w;
     gh_blobs := gh_blobs w; gh_pulls := pulls; gh_cache := gh_cache w;
     gh_clock := gh_clock w |}.

Definition with_state (p : pull_request) (state : string) (merged : option string)
  : pull_request :=
  {| pull_number := pull_number p; pull_head := pull_head p;
     pull_head_ref := pull_head_ref p; pull_base := pull_base p;
     pull_state := state;
     pull_merged_at := merged |}.

(** [login:branch] names a branch of a fork; the model has one
    repository. *)
Definition head_branch (head : string) : string :=
  match split ":" head with
  | [_; name] => name
  | _ => head
  end.

(** The platform and the local collaborators answer a request. *)
Definition platform : handler github := fun r w =>
  match r with
  | Date_now => (Ok (RTime (gh_clock w)), w)
  | getItem key => (Ok (RCached (gh_cache w !! key)), w)
  | setItem key value =>
      (Ok RNone,
       {| gh_user := gh_user w; gh_refs := gh_refs w; gh_commits := gh_commits w;
          gh_blobs := gh_blobs w; gh_pulls := gh_pulls w;
          gh_cache := <[key := value]> (gh_cache w); gh_clock := gh_clock w |})
  | GET_user => (Ok (RUser (fst (gh_user w)) (snd (gh_user w))), w)
  | GET_ref _ type name =>
      match gh_refs w !! refName type name with
      | Some s => (Ok (RRef s), w)
      | None => (Err not_found, w)
      end
  | POST_refs _ ref s =>
      match gh_refs w !! ref with
      | Some _ => (Err (APIError "Reference already exists" (Some 422)), w)
      | None => (Ok (RRef s), set_refs w (<[ref := s]> (gh_refs w)))
      end
  | PATCH_ref _ type name s force =>
      match gh_refs w !! refName type name with
      | None => (Err (APIError "Reference does not exist" (Some 422)), w)
      | Some old =>
          if force || fast_forward w old s
          then (Ok (RRef s), set_refs w (<[refName type name := s]> (gh_refs w)))
          else (Err (APIError "Update is not a fast forward" (Some 422)), w)
      end
  | DELETE_ref _ type name =>
      match gh_refs w !! refName type name with
      | None => (Err (APIError "Reference does not exist" (Some 422)), w)
      | Some _ => (Ok RNone, set_refs w (delete (refName type name) (gh_refs w)))
      end
  | GET_branch _ name =>
      match gh_refs w !! refName "heads" name with
      | Some (Sha id) =>
          match gh_commits w !! id with
          | Some (data, parents) => (Ok (RBranch (RepoCommit (Sha id) data parents)), w)
          | None => (Err (APIError "Branch not found" (Some 404)), w)
          end
      | _ => (Err (APIError "Branch not found" (Some 404)), w)
      end
  | POST_blobs _ raw =>
      let id := fresh_string "blob" (gh_blobs w) in
      (Ok (RSha (Sha id)),
       {| gh_user := gh_user w; gh_refs := gh_refs w; gh_commits := gh_commits w;
          gh_blobs := <[id := raw]> (gh_blobs w); gh_pulls := gh_pulls w;
          gh_cache := gh_cache w; gh_clock := gh_clock w |})
  | GET_tree _ s =>
      match resolve_tree w s with
      | Some tree => (Ok (RTree tree), w)
      | None => (Err not_found, w)
      end
  | POST_trees _ base_tree updates =>
      match match base_tree with
            | Some s => resolve_tree w s
            | None => Some []
            end with
      | None => (Err not_found, w)
      | Some base =>
          match apply_updates base updates with
          | Some tree => (Ok (RSha (TreeSha tree)), w)
          | None => (Err (APIError "Invalid tree info" (Some 422)), w)
          end
      end
  | POST_commits _ msg tree parents author committer =>
      let id := fresh_string "commit" (gh_commits w) in
      let data := {| message := msg; author := author; committer := committer;
                     tree_sha := tree |} in
      (Ok (RCommit (GitCommit (Sha id) data (Some parents))),
       {| gh_user := gh_user w; gh_refs := gh_refs w;
          gh_commits := <[id := (data, parents)]> (gh_commits w);
          gh_blobs := gh_blobs w; gh_pulls := gh_pulls w;
          gh_cache := gh_cache w; gh_clock := gh_clock w |})
  | GET_contents _ path ref =>
      match gh_refs w !! ref with
      | Some s =>
          match resolve_tree w s with
          | Some tree =>
              match tree_lookup (path_segments path) tree with
              | Some (TreeEntry _ _ _ (Sha id)) =>
                  match gh_blobs w !! id with
                  | Some raw => (Ok (RText raw), w)
                  | None => (Err not_found, w)
                  end
              | _ => (Err not_found, w)
              end
          | None => (Err not_found, w)
          end
      | None => (Err not_found, w)
      end
  | GET_pull _ number =>
      match gh_pulls w !! number with
      | Some p => (Ok (RPull p), w)
      | None => (Err not_found, w)
      end
  | POST_pulls _ title body head base =>
      match gh_refs w !! refName "heads" (head_branch head) with
      | Some s =>
          let number := fresh (dom (gh_pulls w)) in
          let p := {| pull_number := number; pull_head := s;
                      pull_head_ref := head_branch head; pull_base := base;
                      pull_state := "open";
                      pull_merged_at := None |} in
          (Ok (RPull p), set_pulls w (<[number := p]> (gh_pulls w)))
      | None => (Err (APIError "Validation Failed" (Some 422)), w)
      end
  | PATCH_pull _ number state =>
      match gh_pulls w !! number with
      | Some p =>
          let p' := with_state p state (pull_merged_at p) in
          (Ok (RPull p'), set_pulls w (<[number := p']> (gh_pulls w)))
      | None => (Err not_found, w)
      end
  | PUT_pull_merge _ number _ s _ =>
      (* the model merges a pull request only by fast forward of its base
         branch; any other one is reported not mergeable *)
      match gh_pulls w !! number with
      | Some p =>
          match gh_refs w !! refName "heads" (pull_base p) with
          | Some base =>
              if String.eqb (pull_state p) "open" && fast_forward w base (pull_head p)
              then (Ok RNone,
                    set_pulls
                      (set_refs w (<[refName "heads" (pull_base p) := pull_head p]>
                                     (gh_refs w)))
                      (<[number := with_state p "closed" (Some "now")]> (gh_pulls w)))
              else (Err (APIError "Pull Request is not mergeable" (Some 405)), w)
          | None => (Err not_found, w)
          end
      | None => (Err not_found, w)
      end
  end.

(** The events [t] followed by the run [r]. *)
Definition after {W A : Type} (t : list event) (r : ran W A) : ran W A :=
  {| ended := ended r; world := world r; current := current r;
     trace := (t ++ trace r)%list |}.

(** A run that ends as [r] does, with another outcome. *)
Definition ending {W A B : Type} (o : outcome B) (r : ran W A) : ran W B :=
  {| ended := o; world := world r; current := current r; trace := trace r |}.

(** Requests that change nothing: reads of the platform, of the cache and
    of the clock. *)
Definition is_read (r : req) : bool :=
  match r with
  | GET_user | GET_ref _ _ _ | GET_branch _ _ | GET_tree _ _
  | GET_contents _ _ _ | GET_pull _ _ | getItem _ | Date_now => true
  | _ => false
  end.

(** Programs that only make requests in [P], and never touch the
    semaphore. *)
Inductive calls_only {A : Type} (P : req -> Prop) : prog A -> Prop :=
  | calls_only_ret (a : A) : calls_only P (Ret a)
  | calls_only_throw (e : error) : calls_only P (Throw e)
  | calls_only_call (r : req) (k : result resp -> prog A) :
      P r -> (forall x, calls_only P (k x)) -> calls_only P (Call r k).

(** ** Calls in flight *)

(** Several calls of [storeMetadata] on one instance.  A call that awaits
    a request is suspended on its [Call] node; the callback that [leave]
    hands the slot to is scheduled ([nextTick]) and is in [sys_running] with
    the program it will run.  [sys_queue] is the queue of the semaphore,
    [sys_log] the requests answered so far, each with the number of the call
    that made it, and [sys_settled] the promises settled so far. *)
Record sys (W : Type) : Type := {
  sys_world : W;
  sys_current : nat;
  sys_queue : list (nat * prog unit);
  sys_running : list (nat * prog unit);
  sys_settled : list (nat * result unit);
  sys_log : list (nat * event);
  sys_calls : nat
}.
Arguments sys_world {W} s.
Arguments sys_current {W} s.
Arguments sys_queue {W} s.
Arguments sys_running {W} s.
Arguments sys_settled {W} s.
Arguments sys_log {W} s.
Arguments sys_calls {W} s.

Definition sys_init {W : Type} (w : W) : sys W :=
  {| sys_world := w; sys_current := 0; sys_queue := []; sys_running := [];
     sys_settled := []; sys_log := []; sys_calls := 0 |}.

Definition settle {W : Type} (id : nat) (x : result unit) (s : sys W) : sys W :=
  {| sys_world := sys_world s; sys_current := sys_current s;
     sys_queue := sys_queue s; sys_running := sys_running s;
     sys_settled := sys_settled s ++ [(id, x)]; sys_log := sys_log s;
     sys_calls := sys_calls s |}.

Definition suspend {W : Type} (id : nat) (p : prog unit) (s : sys W) : sys W :=
  {| sys_world := sys_world s; sys_current := sys_current s;
     sys_queue := sys_queue s; sys_running := sys_running s ++ [(id, p)];
     sys_settled := sys_settled s; sys_log := sys_log s;
     sys_calls := sys_calls s |}.

(** [semaphore.take(task)] with capacity 1: the task is queued when the
    slot is taken, and runs at once when it is free. *)
Definition enqueue {W : Type} (id : nat) (task : prog unit) (s : sys W) : sys W :=
  {| sys_world := sys_world s; sys_current := sys_current s;
     sys_queue := sys_queue s ++ [(id, task)];
     sys_running := sys_running s; sys_settled := sys_settled s;
     sys_log := sys_log s; sys_calls := sys_calls s |}.

Definition occupy {W : Type} (s : sys W) : sys W :=
  {| sys_world := sys_world s; sys_current := sys_current s + 1;
     sys_queue := sys_queue s; sys_running := sys_running s;
     sys_settled := sys_settled s; sys_log := sys_log s;
     sys_calls := sys_calls s |}.

(** [semaphore.leave()]: the count goes down; the head of the queue, if it
    fits, is taken off, counted and scheduled. *)
Definition sem_leave {W : Type} (s : sys W) : result unit * sys W :=
  match sys_current s, sys_queue s with
  | O, [] => (Err (Error "leave called too many times."), s)
  | n, [] =>
      (Ok tt,
       {| sys_world := sys_world s; sys_current := n - 1; sys_queue := [];
          sys_running := sys_running s; sys_settled := sys_settled s;
          sys_log := sys_log s; sys_calls := sys_calls s |})
  | n, item :: rest =>
      if Nat.ltb 1 (1 + (n - 1))
      then (Ok tt,
            {| sys_world := sys_world s; sys_current := n - 1;
               sys_queue := item :: rest; sys_running := sys_running s;
               sys_settled := sys_settled s; sys_log := sys_log s;
               sys_calls := sys_calls s |})
      else (Ok tt,
            {| sys_world := sys_world s; sys_current := (n - 1) + 1;
               sys_queue := rest; sys_running := sys_running s ++ [item];
               sys_settled := sys_settled s; sys_log := sys_log s;
               sys_calls := sys_calls s |})
  end.

(** Call [id] runs [p] until it awaits a request or settles. *)
Fixpoint advance {W : Type} (id : nat) (p : prog unit) (s : sys W) : sys W :=
  match p with
  | Ret _ => settle id (Ok tt) s
  | Throw e => settle id (Err e) s
  | Call _ _ => suspend id p s
  | Take k =>
      if Nat.ltb 1 (sys_current s + 1) then enqueue id k s
      else advance id k (occupy s)
  | Leave k => let (x, s') := sem_leave s in advance id (k x) s'
  end.

Inductive label : Type :=
  | Store (key : string) (data : metadata)
  | Resume (id : nat).

(** Taking the first entry of call [id] out of a list. *)
Fixpoint extract {A : Type} (id : nat) (l : list (nat * A))
  : option (A * list (nat * A)) :=
  match l with
  | [] => None
  | (j, a) :: rest =>
      if Nat.eqb j id then Some (a, rest)
      else match extract id rest with
           | Some (b, rest') => Some (b, (j, a) :: rest')
           | None => None
           end
  end.

(** One step: a new call of [storeMetadata], or call [id] goes on, with
    the answer to the request it awaits or, for a scheduled callback, from
    its start.  A label that names no running call changes nothing. *)
Definition sys_step {W : Type} (this : API) (h : handler W) (l : label) (s : sys W)
  : sys W :=
  match l with
  | Store key data =>
      advance (sys_calls s) (storeMetadata this key data)
        {| sys_world := sys_world s; sys_current := sys_current s;
           sys_queue := sys_queue s; sys_running := sys_running s;
           sys_settled := sys_settled s; sys_log := sys_log s;
           sys_calls := S (sys_calls s) |}
  | Resume id =>
      match extract id (sys_running s) with
      | None => s
      | Some (Call r k, rest) =>
          let (x, w') := h r (sys_world s) in
          advance id (k x)
            {| sys_world := w'; sys_current := sys_current s;
               sys_queue := sys_queue s; sys_running := rest;
               sys_settled := sys_settled s;
               sys_log := sys_log s ++ [(id, (r, x))];
               sys_calls := sys_calls s |}
      | Some (p, rest) =>
          advance id p
            {| sys_world := sys_world s; sys_current := sys_current s;
               sys_queue := sys_queue s; sys_running := rest;
               sys_settled := sys_settled s; sys_log := sys_log s;
               sys_calls := sys_calls s |}
      end
  end.

Definition sys_run {W : Type} (this : API) (h : handler W) (ls : list label)
  (s : sys W) : sys W :=
  fold_left (fun s l => sys_step this h l s) ls s.

(** The calls a schedule makes, in the order of arrival. *)
Definition calls_of (this : API) (ls : list label) : list (prog unit) :=
  flat_map (fun l => match l with
                     | Store key data => [storeMetadata this key data]
                     | Resume _ => []
                     end) ls.

(** The calls made one after the other, each one started when the one
    before has settled or has turned out never to settle. *)
Record serial (W : Type) : Type := {
  outcomes : list (outcome unit);
  final : W;
  slot : nat;
  requests : list event
}.
Arguments outcomes {W} s.
Arguments final {W} s.
Arguments slot {W} s.
Arguments requests {W} s.

Fixpoint run_each {W : Type} (h : handler W) (ps : list (prog unit)) (w : W)
  (n : nat) : serial W :=
  match ps with
  | [] => {| outcomes := []; final := w; slot := n; requests := [] |}
  | p :: rest =>
      let r := run h p w n in
      let r' := run_each h rest (world r) (current r) in
      {| outcomes := ended r :: outcomes r'; final := final r'; slot := slot r';
         requests := (trace r ++ requests r')%list |}
  end.

(** How a settled promise ended. *)
Definition outcome_of (x : result unit) : outcome unit :=
  match x with Ok a => Resolved a | Err e => Rejected e end.

(** No restriction on the requests of a program. *)
Definition any_request (r : req) : Prop := True.

(** The callback of a call that holds the slot: it makes requests and
    then either leaves the semaphore and resolves, or throws with the slot
    still taken. *)
Inductive holding : prog unit -> Prop :=
  | holding_throw (e : error) : holding (Throw e)
  | holding_call (r : req) (k : result resp -> prog unit) :
      (forall x, holding (k x)) -> holding (Call r k)
  | holding_leave (k : result unit -> prog unit) :
      k (Ok tt) = Ret tt -> holding (Leave k).

(** What is left to run in a state of the scheduler, in order: the call
    that holds the slot, then the queued callbacks, each of which has the
    slot to take first. *)
Definition rest_of {W : Type} (s : sys W) : list (prog unit) :=
  (map snd (sys_running s) ++ map (fun t => Take (snd t)) (sys_queue s))%list.

(** A state of the scheduler seen as a serial execution: what has happened
    so far, followed by what is left run one call after the other. *)
Definition completed {W : Type} (h : handler W) (s : sys W) : serial W :=
  let rest := run_each h (rest_of s) (sys_world s) (sys_current s) in
  {| outcomes := (map (fun t => outcome_of (snd t)) (sys_settled s)
                  ++ outcomes rest)%list;
     final := final rest;
     slot := slot rest;
     requests := (map snd (sys_log s) ++ requests rest)%list |}.

(** The shape of the reachable states: at most one call holds the slot,
    the others wait in the queue. *)
Definition well_formed {W : Type} (s : sys W) : Prop :=
  length (sys_running s) <= sys_current s
  /\ sys_current s <= 1
  /\ (sys_current s = 0 -> sys_queue s = [])
  /\ Forall (fun t => holding (snd t)) (sys_running s)
  /\ Forall (fun t => holding (snd t)) (sys_queue s).

(** The git data of a commit, in either form. *)
Definition commit_data_of (c : commit) : commit_data :=
  match c with GitCommit _ d _ | RepoCommit _ d _ => d end.

(** The commits created in a run: the answers to [POST git/commits]. *)
Definition commits_created (t : list event) : list commit :=
  flat_map (fun ev => match ev with
                      | (POST_commits _ _ _ _ _ _, Ok (RCommit c)) => [c]
                      | _ => []
                      end) t.

(** Two paths neither of which is the other or goes through it. *)
Definition apart (p q : list string) : Prop :=
  ~ p `prefix_of` q /\ ~ q `prefix_of` p.

(** [created] replays [originals] at the path [segments] on top of the
    commit [parent] with the tree [parent_tree]: each new commit has the
    message, author and committer of its original and the commit before it
    as its one parent; its tree has at the path what the original's tree
    has there, and is the tree of the commit before it at every path apart
    from it. *)
Fixpoint replays (segments : list string) (parent : sha)
  (parent_tree : list tree_entry) (originals : list commit_data)
  (created : list commit) : Prop :=
  match originals, created with
  | [], [] => True
  | original :: originals', c :: created' =>
      exists name tree original_tree,
        c = GitCommit name
              {| message := message original; author := author original;
                 committer := committer original; tree_sha := TreeSha tree |}
              (Some [parent])
        /\ tree_sha original = TreeSha original_tree
        /\ tree_lookup segments tree = tree_lookup segments original_tree
        /\ (forall q, apart segments q ->
                      tree_lookup q tree = tree_lookup q parent_tree)
        /\ replays segments name tree originals' created'
  | _, _ => False
  end.
(** The tree of the commit has something at the path. *)
Definition has_blob (pathToBlob : string) (c : commit) : Prop :=
  exists tree e,
    tree_sha (commit_data_of c) = TreeSha tree
    /\ tree_lookup (path_segments pathToBlob) tree = Some e.

(** What [retrieveMetadata] reads of the platform. *)
Definition same_metadata (w w' : github) : Prop :=
  gh_cache w' = gh_cache w /\ gh_clock w' = gh_clock w
  /\ gh_commits w' = gh_commits w /\ gh_blobs w' = gh_blobs w
  /\ gh_refs w' !! "refs/meta/_netlify_cms" = gh_refs w !! "refs/meta/_netlify_cms".

(** [deleteUnpublishedEntry] on the platform, from the outcome of reading
    the metadata: the pull request is closed, the branch is deleted, and a
    branch that is not there is none the worse. *)
Definition deleted_branch (w : github) (branchName : string) : github :=
  match gh_refs w !! refName "heads" branchName with
  | Some _ => set_refs w (delete (refName "heads" branchName) (gh_refs w))
  | None => w
  end.

Definition delete_outcome (w : github) (branchName : string)
  (read : outcome metadata) : outcome unit * github :=
  match read with
  | Resolved metadata =>
      match m_pr metadata with
      | Some pr =>
          match gh_pulls w !! pr_number pr with
          | Some p =>
              (Resolved tt,
               deleted_branch
                 (set_pulls w (<[pr_number pr := with_state p "closed" (pull_merged_at p)]>
                                 (gh_pulls w)))
                 branchName)
          | None => (Rejected not_found, w)
          end
      | None => (Resolved tt, deleted_branch w branchName)
      end
  | Rejected e =>
      (if String.eqb (error_message e) "Reference does not exist"
       then Resolved tt else Rejected e, w)
  | Pending => (Pending, w)
  end.

(** ** What a program asks for *)

(** Programs that only make requests in [P], whatever they do with the
    semaphore. *)
Inductive asks {A : Type} (P : req -> Prop) : prog A -> Prop :=
  | asks_ret (a : A) : asks P (Ret a)
  | asks_throw (e : error) : asks P (Throw e)
  | asks_call (r : req) (k : result resp -> prog A) :
      P r -> (forall x, asks P (k x)) -> asks P (Call r k)
  | asks_take (k : prog A) : asks P k -> asks P (Take k)
  | asks_leave (k : result unit -> prog A) :
      (forall x, asks P (k x)) -> asks P (Leave k).

(** Reads and writes of trees of the repository of the instance. *)
Definition tree_request (this : API) (r : req) : Prop :=
  match r with
  | GET_tree url _ | POST_trees url _ _ => url = repoURL this
  | _ => False
  end.

(** What [storeMetadata] may ask for: objects of the repository, the
    metadata ref (read, created, or updated without force), the clock and
    the cache entry of the key. *)
Definition writes_metadata (this : API) (key : string) (r : req) : Prop :=
  match r with
  | GET_ref url type name =>
      url = repoURL this /\ type = "meta" /\ name = "_netlify_cms"
  | POST_refs url ref _ => url = repoURL this /\ ref = "refs/meta/_netlify_cms"
  | PATCH_ref url type name _ force =>
      url = repoURL this /\ type = "meta" /\ name = "_netlify_cms" /\ force = false
  | POST_blobs url _ | GET_tree url _ | POST_trees url _ _
  | POST_commits url _ _ _ _ _ => url = repoURL this
  | Date_now => True
  | setItem k _ => k = "gh.meta." +:+ key
  | _ => False
  end.

(** What [deleteUnpublishedEntry] may ask for: reads, the closing of a pull
    request of the origin repository, the deletion of one branch. *)
Definition deletes_entry (this : API) (branchName : string) (r : req) : Prop :=
  is_read r = true
  \/ (exists number, r = PATCH_pull (originRepoURL this) number "closed")
  \/ r = DELETE_ref (repoURL this) "heads" branchName.

(** The branches and the pull requests of [w] are those of [w']: the two
    states differ at most in the metadata ref, the objects and the cache. *)
Definition same_branches (w w' : github) : Prop :=
  gh_pulls w' = gh_pulls w
  /\ forall ref, ref <> "refs/meta/_netlify_cms" -> gh_refs w' !! ref = gh_refs w !! ref.

(** ** States of the platform *)

(** The platform with one more blob, one more commit, a cache entry. *)
Definition with_blob (w : github) (id : string) (raw : content) : github :=
  {| gh_user := gh_user w; gh_refs := gh_refs w; gh_commits := gh_commits w;
     gh_blobs := <[id := raw]> (gh_blobs w); gh_pulls := gh_pulls w;
     gh_cache := gh_cache w; gh_clock := gh_clock w |}.

Definition with_commit (w : github) (id : string) (data : commit_data)
  (parents : list sha) : github :=
  {| gh_user := gh_user w; gh_refs := gh_refs w;
     gh_commits := <[id := (data, parents)]> (gh_commits w);
     gh_blobs := gh_blobs w; gh_pulls := gh_pulls w;
     gh_cache := gh_cache w; gh_clock := gh_clock w |}.


(** The first commit of the metadata ref, and the state in which
    [checkMetadataRef] has created the ref. *)
Definition first_commit_data (w : github) : commit_data :=
  {| message := "First Commit"; author := None; committer := None;
     tree_sha := TreeSha [TreeEntry "README.md" "100644" "blob"
                            (Sha (fresh_string "blob" (gh_blobs w)))] |}.

Definition with_metadata_ref (w : github) : github :=
  let w1 := with_blob w (fresh_string "blob" (gh_blobs w))
              (default (Raw "") (f_raw readme)) in
  let id := fresh_string "commit" (gh_commits w1) in
  let w2 := with_commit w1 id (first_commit_data w) [] in
  set_refs w2 (<["refs/meta/_netlify_cms" := Sha id]> (gh_refs w2)).



(** ** Writing into trees *)








(** ** Sample instances and states *)

(** A contributor's instance in open authoring mode, and the instance of
    a maintainer. *)
Definition contributor : API :=
  {| branch := "master"; useOpenAuthoring := true; repo := "owner/site";
     originRepo := "origin/site"; merge_method := "merge";
     initialWorkflowStatus := "draft" |}.

Definition maintainer : API :=
  {| branch := "master"; useOpenAuthoring := false; repo := "origin/site";
     originRepo := "origin/site"; merge_method := "merge";
     initialWorkflowStatus := "draft" |}.

Definition empty_platform : github :=
  {| gh_user := ("owner", None); gh_refs := ∅; gh_commits := ∅; gh_blobs := ∅;
     gh_pulls := ∅; gh_cache := ∅; gh_clock := 0%N |}.

(** The metadata of the entry [hello] of the collection [posts], under
    pull request 7. *)
Definition hello_metadata : metadata :=
  {| m_type := "PR";
     m_pr := Some {| pr_number := 7; pr_head := Some (Sha "h1") |};
     m_user := "owner"; m_status := "pending_review";
     m_branch := "cms/owner/site/posts/hello"; m_collection := "posts";
     m_commitMessage := None; m_title := None; m_description := None;
     m_objects := {| o_entry := {| o_path := "content/posts/hello.md";
                                   o_sha := Some (Sha "b1") |};
                     o_files := [{| o_path := "static/img/cat.png";
                                    o_sha := Some (Sha "b2") |}] |};
     m_timeStamp := "2019-11-26T10:00:00.000Z" |}.

Definition pull_7 (state : string) (merged_at : option string) : pull_request :=
  {| pull_number := 7; pull_head := Sha "h1";
     pull_head_ref := "cms/owner/site/posts/hello"; pull_base := "master";
     pull_state := state; pull_merged_at := merged_at |}.

(** A platform on which pull request 7 is in the given state and the
    workflow branch of [hello] exists. *)
Definition platform_with_pull (state : string) (merged_at : option string) : github :=
  {| gh_user := ("owner", None);
     gh_refs := {[ "refs/heads/cms/owner/site/posts/hello" := Sha "h1" ]};
     gh_commits := ∅; gh_blobs := ∅;
     gh_pulls := {[ 7 := pull_7 state merged_at ]};
     gh_cache := {[ "gh.meta.owner/site/posts/hello" :=
                      {| expires := 300000%N; cached_data := hello_metadata |} ]};
     gh_clock := 1000%N |}.

(** A commit without parents. *)
Definition root_head : commit :=
  GitCommit (Sha "c1")
    {| message := "Create Post hello"; author := None; committer := None;
       tree_sha := TreeSha [] |}
    (Some []).

(** Its child, and a commit of another history. *)
Definition child_head : commit :=
  GitCommit (Sha "c2")
    {| message := "Update Post hello"; author := None; committer := None;
       tree_sha := TreeSha [] |}
    (Some [Sha "c1"]).


(** A platform on which pull request 7 is open and cannot be merged:
    [master] has moved on to a commit that is no ancestor of the head. *)
Definition master_tree : list tree_entry :=
  [TreeEntry "README.md" "100644" "blob" (Sha "r1");
   TreeEntry "content" "040000" "tree"
     (TreeSha
        [TreeEntry "posts" "040000" "tree"
           (TreeSha [TreeEntry "first.md" "100644" "blob" (Sha "f1");
                     TreeEntry "second.md" "100644" "blob" (Sha "s1")])])].

Definition unmergeable_platform : github :=
  {| gh_user := ("owner", None);
     gh_refs := {[ "refs/heads/master" := Sha "m1";
                   "refs/heads/cms/hello" := Sha "h1" ]};
     gh_commits := {[ "m1" := ({| message := "Update README"; author := None;
                                  committer := None;
                                  tree_sha := TreeSha master_tree |}, []) ]};
     gh_blobs := ∅;
     gh_pulls := {[ 7 := pull_7 "open" None ]};
     gh_cache := ∅;
     gh_clock := 1000%N |}.

(** The platform while another instance moves the metadata ref: a patch
    of it that is not forced is refused. *)
Definition contended_platform : handler github := fun r w =>
  match r with
  | PATCH_ref _ "meta" _ _ false =>
      (Err (APIError "Update is not a fast forward" (Some 422)), w)
  | _ => platform r w
  end.


(** The base branch after it has moved on, and the one commit of a
    workflow branch that started from its parent. *)
Definition alice : person :=
  {| person_name := "Alice"; person_email := "alice@example.org";
     person_date := "2019-11-26T10:00:00Z" |}.

Definition moved_base : commit :=
  RepoCommit (Sha "m2")
    {| message := "Update README"; author := None; committer := None;
       tree_sha :=
         TreeSha [TreeEntry "README.md" "100644" "blob" (Sha "r2");
                  TreeEntry "hello.md" "100644" "blob" (Sha "p0")] |}
    [Sha "m1"].

Definition branch_tree : list tree_entry :=
  [TreeEntry "README.md" "100644" "blob" (Sha "r1");
   TreeEntry "hello.md" "100644" "blob" (Sha "p1")].

Definition branch_commit : commit :=
  RepoCommit (Sha "c1")
    {| message := "Update Post hello"; author := Some alice;
       committer := Some alice; tree_sha := TreeSha branch_tree |}
    [Sha "m1"].


(** * Properties *)

(** ** Object names *)

Lemma sha_eqb_true : forall a b : sha, sha_eqb a b = true -> a = b.
Proof.
  fix IH 1. intros [x|t1] [y|t2]; simpl; try discriminate.
  - intros H. apply String.eqb_eq in H. congruence.
  - intros H. f_equal. revert t2 H.
    induction t1 as [|[p1 m1 k1 s1] r1 IHr]; intros [|[p2 m2 k2 s2] r2];
      try discriminate; auto.
    intros H. rewrite !andb_true_iff in H.
    destruct H as [[[[H1 H2] H3] H4] H5].
    apply String.eqb_eq in H1, H2, H3. apply IH in H4. apply IHr in H5.
    congruence.
Qed.

Lemma sha_eqb_refl : forall a : sha, sha_eqb a a = true.
Proof.
  fix IH 1. intros [x|t]; simpl.
  - apply String.eqb_refl.
  - induction t as [|[p m k s] r IHr]; auto.
    rewrite !String.eqb_refl, IH, IHr. reflexivity.
Qed.

Lemma sha_eqb_eq (a b : sha) : sha_eqb a b = true <-> a = b.
Proof.
  split; [apply sha_eqb_true | intros ->; apply sha_eqb_refl].
Qed.

Lemma sha_eqb_neq (a b : sha) : sha_eqb a b = false <-> a <> b.
Proof.
  rewrite <- sha_eqb_eq. destruct (sha_eqb a b); split; congruence.
Qed.

(** ** Key / branch scheme *)

Lemma contentKeyFromRef_of_branch (contentKey : string) :
  contentKeyFromRef (refName "heads" (generateBranchName contentKey)) = contentKey.
Proof. reflexivity. Qed.

Lemma branchNameFromRef_of_branch (branchName : string) :
  branchNameFromRef (refName "heads" branchName) = branchName.
Proof. reflexivity. Qed.

Lemma append_assoc (a b c : string) : (a +:+ b) +:+ c = a +:+ (b +:+ c).
Proof.
  induction a as [|x a IH]; [reflexivity|].
  change (String x ((a +:+ b) +:+ c) = String x (a +:+ (b +:+ c))).
  f_equal. exact IH.
Qed.

Lemma split_slash_free (s : string) :
  slash_free s = true -> split "/" s = [s].
Proof.
  induction s as [|c s IH]; simpl; [reflexivity|].
  intros [Hc Hs]%andb_true_iff. apply negb_true_iff in Hc.
  rewrite Hc, (IH Hs). reflexivity.
Qed.

Lemma split_segment (a b : string) :
  slash_free a = true -> split "/" (a +:+ "/" +:+ b) = a :: split "/" b.
Proof.
  induction a as [|c a IH]; simpl; [reflexivity|].
  intros [Hc Ha]%andb_true_iff. apply negb_true_iff in Hc.
  rewrite Hc, (IH Ha). reflexivity.
Qed.

(** With a repository [owner/name] and no [/] in the parts, the content
    key splits into four segments: the repository is the first two, the
    collection the third and the slug the fourth. *)
Lemma content_key_segments (this : API) (owner name collectionName slug : string) :
  useOpenAuthoring this = true ->
  repo this = owner +:+ "/" +:+ name ->
  slash_free owner = true -> slash_free name = true ->
  slash_free collectionName = true -> slash_free slug = true ->
  split "/" (generateContentKey this collectionName slug)
  = [owner; name; collectionName; slug].
Proof.
  intros HOA Hrepo Ho Hn Hc Hs. unfold generateContentKey.
  rewrite HOA, Hrepo. change (negb true) with false. cbv iota.
  rewrite !append_assoc. rewrite !split_segment by assumption.
  rewrite split_slash_free by assumption. reflexivity.
Qed.

(** C1.  The content key of an open authoring entry is recovered from the
    ref of its branch, but not the triple it was made of: for the repository
    [owner/site], the collection [posts] and the slug [hello],
    [getUpdatedOpenAuthoringMetadata] reads [site] and [posts] off the key
    as collection and slug, and on a merged pull request goes on to delete
    the entry [owner/site/site/posts] instead of [owner/site/posts/hello]. *)
Theorem content_key_split_takes_repo_for_collection :
  let contentKey := generateContentKey contributor "posts" "hello" in
  contentKeyFromRef (refName "heads" (generateBranchName contentKey)) = contentKey
  /\ split "/" contentKey = ["owner"; "site"; "posts"; "hello"]
  /\ (nth_error (split "/" contentKey) 1, nth_error (split "/" contentKey) 2)
     = (Some "site", Some "posts")
  /\ map fst (trace (run platform
                       (getUpdatedOpenAuthoringMetadata contributor contentKey
                          (Some hello_metadata))
                       (platform_with_pull "closed" (Some "2019-11-27T09:00:00Z")) 0))
     = [GET_pull "/repos/origin/site" 7;
        getItem "gh.meta.owner/site/site/posts";
        GET_contents "/repos/owner/site" "owner/site/site/posts.json"
          "refs/meta/_netlify_cms"].
Proof. vm_compute. repeat split; reflexivity. Qed.

(** ** [assertHead] *)




(** ** Running programs *)

Lemma after_nil {W A : Type} (r : ran W A) : after [] r = r.
Proof. destruct r; reflexivity. Qed.

Lemma run_bind {W A B : Type} (h : handler W) (p : prog A) (f : A -> prog B)
  (w : W) (n : nat) :
  run h (bind p f) w n =
  match ended (run h p w n) with
  | Resolved a =>
      after (trace (run h p w n))
        (run h (f a) (world (run h p w n)) (current (run h p w n)))
  | Rejected e => ending (Rejected e) (run h p w n)
  | Pending => ending Pending (run h p w n)
  end.
Proof.
  revert w n. induction p as [a|e|r k IH|k IH|k IH]; intros w n; simpl.
  - symmetry. apply after_nil.
  - reflexivity.
  - destruct (h r w) as [x w']. rewrite IH.
    destruct (run h (k x) w' n) as [[a|e|] w'' n'' t]; reflexivity.
  - destruct (Nat.ltb 1 (n + 1)); [reflexivity|]. apply IH.
  - destruct n; apply IH.
Qed.

Lemma run_catch {W A : Type} (h : handler W) (p : prog A)
  (handle : error -> prog A) (w : W) (n : nat) :
  run h (catch p handle) w n =
  match ended (run h p w n) with
  | Rejected e =>
      after (trace (run h p w n))
        (run h (handle e) (world (run h p w n)) (current (run h p w n)))
  | _ => run h p w n
  end.
Proof.
  revert w n. induction p as [a|e|r k IH|k IH|k IH]; intros w n; simpl.
  - reflexivity.
  - symmetry. apply after_nil.
  - destruct (h r w) as [x w']. rewrite IH.
    destruct (run h (k x) w' n) as [[a|e|] w'' n'' t]; reflexivity.
  - destruct (Nat.ltb 1 (n + 1)); [reflexivity|]. apply IH.
  - destruct n; apply IH.
Qed.

Lemma run_request {W : Type} (h : handler W) (r : req) (w : W) (n : nat) :
  run h (request r) w n =
  {| ended := match fst (h r w) with Ok v => Resolved v | Err e => Rejected e end;
     world := snd (h r w); current := n; trace := [(r, fst (h r w))] |}.
Proof.
  unfold request. simpl. destruct (h r w) as [[v|e] w']; reflexivity.
Qed.

(** ** The rebase that is not needed *)

(** C5.  When the list of commits is empty, or the first parent of its
    first commit is the base commit, [rebaseSingleBlobCommits] resolves to
    the last commit of the list and makes no request: no tree and no commit
    is created. *)
Theorem rebaseSingleBlobCommits_up_to_date {W : Type} (this : API) (h : handler W)
  (w : W) (n : nat) (baseCommit : commit) (commits : list commit)
  (pathToBlob : string) :
  commits = [] \/
  (exists first others parent grandparents,
      commits = first :: others
      /\ commit_parents first = Some (parent :: grandparents)
      /\ parent = commit_sha baseCommit) ->
  run h (rebaseSingleBlobCommits this baseCommit commits pathToBlob) w n
  = {| ended := Resolved (last_of commits); world := w; current := n; trace := [] |}.
Proof.
  intros [->|(first & others & parent & grandparents & -> & Hparents & ->)].
  - reflexivity.
  - unfold rebaseSingleBlobCommits. rewrite Hparents, sha_eqb_refl. reflexivity.
Qed.

Lemma rebaseSingleBlobCommits_up_to_date_witness :
  run platform (rebaseSingleBlobCommits maintainer root_head [child_head] "content/posts/hello.md")
    empty_platform 0
  = {| ended := Resolved (Some child_head); world := empty_platform;
       current := 0; trace := [] |}.
Proof.
  apply (rebaseSingleBlobCommits_up_to_date maintainer platform empty_platform 0
           root_head [child_head] "content/posts/hello.md").
  right. exists child_head, [], (Sha "c1"), []. repeat split; reflexivity.
Defined.

Lemma run_bind_resolved {W A B : Type} (h : handler W) (p : prog A)
  (f : A -> prog B) (w : W) (n : nat) (b : B) :
  ended (run h (bind p f) w n) = Resolved b ->
  exists a,
    ended (run h p w n) = Resolved a
    /\ ended (run h (f a) (world (run h p w n)) (current (run h p w n)))
       = Resolved b
    /\ run h (bind p f) w n
       = after (trace (run h p w n))
           (run h (f a) (world (run h p w n)) (current (run h p w n))).
Proof.
  rewrite run_bind. destruct (ended (run h p w n)) as [a|e|] eqn:E;
    try discriminate.
  intros H. exists a. repeat split. exact H.
Qed.

Lemma run_request_resolved {W : Type} (h : handler W) (r : req) (w : W) (n : nat)
  (v : resp) :
  ended (run h (request r) w n) = Resolved v ->
  run h (request r) w n
  = {| ended := Resolved v; world := snd (h r w); current := n;
       trace := [(r, Ok v)] |}.
Proof.
  rewrite run_request. simpl. destruct (fst (h r w)) as [v'|e]; [|discriminate].
  intros [= ->]. reflexivity.
Qed.

Lemma createCommit_resolved {W : Type} (this : API) (h : handler W) (w : W)
  (n : nat) (msg : string) (tree : sha) (parents : list sha)
  (a c : option person) (created : commit) :
  let r := POST_commits (repoURL this) msg tree parents a c in
  ended (run h (createCommit this msg tree parents a c) w n) = Resolved created ->
  run h (createCommit this msg tree parents a c) w n
  = {| ended := Resolved created; world := snd (h r w); current := n;
       trace := [(r, Ok (RCommit created))] |}.
Proof.
  intros r H. unfold createCommit in *. fold r in H |- *.
  apply run_bind_resolved in H as (v & Hv & Hk & ->).
  apply run_request_resolved in Hv. rewrite Hv in *. cbn [world current trace] in *.
  destruct v; try discriminate Hk. simpl in Hk. injection Hk as ->. reflexivity.
Qed.

(** ** The forced merge *)

Lemma occurs_in_refl (x : string) : occurs_in x x.
Proof.
  exists "", "". change (x = x +:+ ""). induction x as [|c x IH]; [reflexivity|].
  change (String c x = String c (x +:+ "")). f_equal. exact IH.
Qed.

Lemma occurs_in_append_l (x a b : string) :
  occurs_in x a -> occurs_in x (a +:+ b).
Proof.
  intros (before & rest & ->). exists before, (rest +:+ b).
  rewrite !append_assoc. reflexivity.
Qed.

Lemma occurs_in_append_r (x a b : string) :
  occurs_in x b -> occurs_in x (a +:+ b).
Proof.
  intros (before & rest & ->). exists (a +:+ before), rest.
  rewrite !append_assoc. reflexivity.
Qed.

Lemma forceMergeMessage_keeps (files : list file) (x acc : string) :
  occurs_in x acc ->
  occurs_in x
    (fold_left (fun commitMessage f =>
                  commitMessage +:+ newline +:+ "* " +:+ quote +:+ f_path f +:+ quote)
       files acc).
Proof.
  revert acc. induction files as [|f files IH]; intros acc H; simpl; [exact H|].
  apply IH. apply occurs_in_append_l. exact H.
Qed.

Lemma forceMergeMessage_mentions (files : list file) (f : file) :
  In f files -> occurs_in (f_path f) (forceMergeMessage files).
Proof.
  unfold forceMergeMessage. generalize
    ("Automatically generated. Merged on Netlify CMS" +:+ newline +:+ newline
     +:+ "Force merge of:") as acc.
  induction files as [|g files IH]; intros acc; [intros []|].
  intros [->|Hin]; simpl.
  - apply forceMergeMessage_keeps.
    do 4 apply occurs_in_append_r. apply occurs_in_append_l, occurs_in_refl.
  - apply IH. exact Hin.
Qed.

(** C7.  When the merge request of [mergePR] is rejected with status 405,
    [mergePR] goes on as [forceMergePR] does.  The message of the forced
    merge names the path of every file of [objects.files] and of
    [objects.entry], and when the merge resolves, the commit the base branch
    is moved to was created with that message. *)
Theorem mergePR_falls_back_to_forceMergePR {W : Type} (this : API) (h : handler W)
  (w w1 : W) (n : nat) (pullrequest : pr_metadata) (objects : objects)
  (msg : string) :
  let merge_request :=
    PUT_pull_merge (originRepoURL this) (pr_number pullrequest)
      "Automatically generated. Merged on Netlify CMS."
      (pr_head pullrequest) (merge_method this) in
  let files := map file_of_object (o_files objects ++ [o_entry objects])%list in
  let merged := run h (mergePR this pullrequest objects) w n in
  h merge_request w = (Err (APIError msg (Some 405)), w1) ->
  merged
  = after [(merge_request, Err (APIError msg (Some 405)))]
      (run h (forceMergePR this pullrequest objects) w1 n)
  /\ (forall o, In o (o_files objects ++ [o_entry objects])%list ->
                occurs_in (o_path o) (forceMergeMessage files))
  /\ (forall response, ended merged = Resolved response ->
      exists created tree parents,
        In (POST_commits (repoURL this) (forceMergeMessage files) tree parents
              None None, Ok (RCommit created)) (trace merged)
        /\ In (PATCH_ref (repoURL this) "heads" (branch this)
                 (commit_sha created) false, Ok response) (trace merged)).
Proof.
  intros merge_request files merged Hmerge.
  assert (Hrun : merged
                 = after [(merge_request, Err (APIError msg (Some 405)))]
                     (run h (forceMergePR this pullrequest objects) w1 n)).
  { unfold merged, mergePR, request. simpl. fold merge_request.
    rewrite Hmerge. reflexivity. }
  split; [exact Hrun|]. split.
  - intros o Hin.
    apply (forceMergeMessage_mentions files (file_of_object o)).
    unfold files. apply in_map. exact Hin.
  - intros response Hended. rewrite Hrun in *.
    change (ended (run h (forceMergePR this pullrequest objects) w1 n)
            = Resolved response) in Hended.
    unfold forceMergePR in *. fold files in Hended |- *.
    apply run_bind_resolved in Hended as (branchData & _ & Hended & ->).
    set (r1 := run h (getBranch this (branch this)) w1 n) in *. clearbody r1.
    apply run_bind_resolved in Hended as (changeTree & _ & Hended & ->).
    set (r2 := run h (updateTree this _ _ _) _ _) in *. clearbody r2.
    apply run_bind_resolved in Hended as (created & Hcommit & Hpatch & ->).
    apply createCommit_resolved in Hcommit.
    set (r3 := run h (commit_ this _ _) _ _) in *.
    change (run h (createCommit this _ _ _ _ _) _ _) with r3 in Hcommit.
    clearbody r3. subst r3. cbn [world current trace] in *.
    unfold patchBranch, patchRef in Hpatch |- *. cbn [andb] in Hpatch |- *.
    apply run_request_resolved in Hpatch. rewrite Hpatch.
    exists created, (ct_sha changeTree),
      (match ct_parentSha changeTree with Some p => [p] | None => [] end).
    unfold after. cbn [trace]. split.
    + do 3 (apply in_or_app; right). apply in_or_app. left. apply in_eq.
    + do 3 (apply in_or_app; right). apply in_or_app. right. apply in_eq.
Qed.

Lemma mergePR_falls_back_witness :
  let merged :=
    run platform
      (mergePR maintainer {| pr_number := 7; pr_head := Some (Sha "h1") |}
         (m_objects hello_metadata))
      unmergeable_platform 0 in
  ended merged = Resolved (RRef (Sha "commit"))
  /\ occurs_in "static/img/cat.png"
       (forceMergeMessage
          (map file_of_object
             (o_files (m_objects hello_metadata)
              ++ [o_entry (m_objects hello_metadata)])%list))
  /\ exists created tree parents,
       In (POST_commits (repoURL maintainer)
             (forceMergeMessage
                (map file_of_object
                   (o_files (m_objects hello_metadata)
                    ++ [o_entry (m_objects hello_metadata)])%list))
             tree parents None None, Ok (RCommit created)) (trace merged)
       /\ In (PATCH_ref (repoURL maintainer) "heads" (branch maintainer)
                (commit_sha created) false, Ok (RRef (Sha "commit")))
            (trace merged).
Proof.
  intros merged.
  assert (E : ended merged = Resolved (RRef (Sha "commit")))
    by (vm_compute; reflexivity).
  destruct (mergePR_falls_back_to_forceMergePR maintainer platform
              unmergeable_platform unmergeable_platform 0
              {| pr_number := 7; pr_head := Some (Sha "h1") |}
              (m_objects hello_metadata) "Pull Request is not mergeable")
    as (_ & Hpaths & Hcommit).
  - vm_compute. reflexivity.
  - split; [exact E|]. split.
    + apply (Hpaths {| o_path := "static/img/cat.png"; o_sha := Some (Sha "b2") |}).
      left. reflexivity.
    + apply Hcommit. exact E.
Defined.

(** ** Programs that only read *)

Lemma calls_only_bind {A B : Type} (P : req -> Prop) (p : prog A) (f : A -> prog B) :
  calls_only P p -> (forall a, calls_only P (f a)) -> calls_only P (bind p f).
Proof.
  intros Hp Hf. induction Hp as [a|e|r k Hr Hk IH]; simpl.
  - apply Hf.
  - constructor.
  - constructor; [exact Hr|exact IH].
Qed.

Lemma calls_only_catch {A : Type} (P : req -> Prop) (p : prog A)
  (handle : error -> prog A) :
  calls_only P p -> (forall e, calls_only P (handle e)) ->
  calls_only P (catch p handle).
Proof.
  intros Hp Hh. induction Hp as [a|e|r k Hr Hk IH]; simpl.
  - constructor.
  - apply Hh.
  - constructor; [exact Hr|exact IH].
Qed.

Lemma calls_only_request (P : req -> Prop) (r : req) :
  P r -> calls_only P (request r).
Proof.
  intros Hr. constructor; [exact Hr|]. intros [v|e]; constructor.
Qed.

Lemma calls_only_run {W A : Type} (P : req -> Prop) (h : handler W) (p : prog A)
  (w : W) (n : nat) :
  calls_only P p ->
  Forall (fun ev => P (fst ev)) (trace (run h p w n))
  /\ current (run h p w n) = n.
Proof.
  intros Hp. revert w. induction Hp as [a|e|r k Hr Hk IH]; intros w; simpl.
  - split; [constructor|reflexivity].
  - split; [constructor|reflexivity].
  - destruct (h r w) as [x w']. destruct (IH x w') as [Ht Hn].
    split; [constructor; assumption|exact Hn].
Qed.

(** A program without [Take] settles. *)
Lemma calls_only_settles {W A : Type} (P : req -> Prop) (h : handler W)
  (p : prog A) (w : W) (n : nat) :
  calls_only P p -> ended (run h p w n) <> Pending.
Proof.
  intros Hp. revert w. induction Hp as [a|e|r k Hr Hk IH]; intros w; simpl.
  - discriminate.
  - discriminate.
  - destruct (h r w) as [x w']. apply IH.
Qed.

Ltac calls_only :=
  repeat (intros;
          first [ apply calls_only_ret
                | apply calls_only_throw
                | apply calls_only_request; reflexivity
                | apply calls_only_bind
                | apply calls_only_catch
                | match goal with
                  | |- calls_only _ (match ?x with _ => _ end) => destruct x
                  end ]).

Lemma retrieveMetadata_reads (this : API) (key : string) :
  calls_only (fun r => is_read r = true) (retrieveMetadata this key).
Proof. unfold retrieveMetadata, JSON_parse. calls_only. Qed.

(** ** Status changes that write nothing *)

(** The claim of C10 fails for the status [pending_publish]: with an open
    pull request it is neither of the two handled pairs, and the call is
    rejected. *)
Lemma updateUnpublishedEntryStatus_pending_publish_rejected :
  let r := run platform
             (updateUnpublishedEntryStatus contributor "posts" "hello" "pending_publish")
             (platform_with_pull "open" None) 0 in
  m_pr hello_metadata <> None
  /\ ~ ("open" = "open" /\ "pending_publish" = "draft")
  /\ ~ ("open" = "closed" /\ "pending_publish" = "pending_review")
  /\ ended r
     = Rejected (Error ("Open Authoring entries may not be set to the status "
                        +:+ quote +:+ "pending_publish" +:+ quote +:+ "."))
  /\ ended r <> Resolved tt.
Proof.
  repeat split; try discriminate.
  - intros [_ H]. discriminate H.
  - intros [H _]. discriminate H.
Qed.

(** C10, amended.  In open authoring mode, for metadata that records a
    pull request and a status other than [pending_publish]: when the state
    of the pull request and the status are neither (open, draft) nor
    (closed, pending_review), [updateUnpublishedEntryStatus] resolves after
    reading the metadata and the pull request; every request it made is a
    read, and the semaphore is not touched. *)
Theorem updateUnpublishedEntryStatus_unhandled {W : Type} (this : API)
  (h : handler W) (w w' : W) (n : nat) (collectionName slug status : string)
  (metadata : metadata) (prMetadata : pr_metadata) (pull : pull_request) :
  let contentKey := generateContentKey this collectionName slug in
  let read := run h (retrieveMetadata this contentKey) w n in
  let get_pull := GET_pull (originRepoURL this) (pr_number prMetadata) in
  let r := run h (updateUnpublishedEntryStatus this collectionName slug status) w n in
  useOpenAuthoring this = true ->
  ended read = Resolved metadata ->
  m_pr metadata = Some prMetadata ->
  h get_pull (world read) = (Ok (RPull pull), w') ->
  status <> "pending_publish" ->
  ~ (pull_state pull = "open" /\ status = "draft") ->
  ~ (pull_state pull = "closed" /\ status = "pending_review") ->
  ended r = Resolved tt
  /\ world r = w'
  /\ current r = n
  /\ trace r = (trace read ++ [(get_pull, Ok (RPull pull))])%list
  /\ Forall (fun ev => is_read (fst ev) = true) (trace r).
Proof.
  intros contentKey read get_pull r HOA Hread Hpr Hpull Hstatus Hdraft Hreview.
  destruct (calls_only_run _ h _ w n (retrieveMetadata_reads this contentKey))
    as [Hreads Hn].
  fold read in Hreads, Hn.
  assert (E : r = after (trace read)
                    {| ended := Resolved tt; world := w'; current := current read;
                       trace := [(get_pull, Ok (RPull pull))] |}).
  { unfold r, updateUnpublishedEntryStatus. fold contentKey.
    rewrite run_bind. fold read. rewrite Hread. f_equal.
    rewrite HOA. cbn [negb].
    apply String.eqb_neq in Hstatus. rewrite Hstatus. rewrite Hpr.
    unfold getPullRequest. fold get_pull.
    rewrite !run_bind, run_request. rewrite Hpull. cbn.
    destruct (String.eqb (pull_state pull) "open") eqn:Eopen;
      destruct (String.eqb status "draft") eqn:Edraft;
      destruct (String.eqb (pull_state pull) "closed") eqn:Eclosed;
      destruct (String.eqb status "pending_review") eqn:Ereview;
      try reflexivity;
      rewrite ?String.eqb_eq in *; try tauto. }
  rewrite E. unfold after. cbn [ended world current trace].
  repeat split; try assumption.
  apply Forall_app. split; [exact Hreads|]. repeat constructor.
Qed.

Lemma updateUnpublishedEntryStatus_unhandled_witness :
  let r := run platform
             (updateUnpublishedEntryStatus contributor "posts" "hello" "pending_review")
             (platform_with_pull "open" None) 0 in
  ended r = Resolved tt
  /\ world r = platform_with_pull "open" None
  /\ current r = 0
  /\ Forall (fun ev => is_read (fst ev) = true) (trace r).
Proof.
  destruct (updateUnpublishedEntryStatus_unhandled contributor platform
              (platform_with_pull "open" None) (platform_with_pull "open" None) 0
              "posts" "hello" "pending_review" hello_metadata
              {| pr_number := 7; pr_head := Some (Sha "h1") |} (pull_7 "open" None))
    as (H1 & H2 & H3 & _ & H5).
  - reflexivity.
  - vm_compute. reflexivity.
  - reflexivity.
  - vm_compute. reflexivity.
  - discriminate.
  - intros [_ H]. discriminate H.
  - intros [H _]. discriminate H.
  - repeat split; assumption.
Defined.

(** ** The semaphore of [storeMetadata] *)

(** C2.  A call of [storeMetadata] whose patch of the metadata ref is
    refused is rejected with the slot still taken ([current] stays 1): the
    next call on the instance is queued and never settles, whatever the
    platform answers from then on. *)
Theorem storeMetadata_rejected_keeps_the_slot :
  let first := run contended_platform
                 (storeMetadata maintainer "hello" hello_metadata)
                 empty_platform 0 in
  let second := run platform
                  (storeMetadata maintainer "hello" (with_status hello_metadata "draft"))
                  (world first) (current first) in
  let interleaved :=
    sys_run maintainer contended_platform
      (Store "hello" hello_metadata :: repeat (Resume 0) 10
       ++ Store "hello" (with_status hello_metadata "draft")
       :: repeat (Resume 1) 10)%list
      (sys_init empty_platform) in
  ended first = Rejected (APIError "Update is not a fast forward" (Some 422))
  /\ current first = 1
  /\ ended second = Pending
  /\ trace second = []
  /\ sys_settled interleaved
     = [(0, Err (APIError "Update is not a fast forward" (Some 422)))]
  /\ map fst (sys_queue interleaved) = [1]
  /\ sys_running interleaved = []
  /\ sys_current interleaved = 1.
Proof. vm_compute. repeat split; reflexivity. Qed.

(** ** Calls that hold the slot *)

Lemma FileTree_induction (P : FileTree -> Prop) :
  (forall f, P (File f)) ->
  (forall children, Forall (fun c => P (snd c)) children -> P (Dir children)) ->
  forall t, P t.
Proof.
  intros Hf Hd. fix IH 1. intros [f|children]; [apply Hf|].
  apply Hd. induction children as [|[k t] cs IHcs]; constructor.
  - apply IH.
  - exact IHcs.
Qed.

Lemma all_calls_only {A : Type} (P : req -> Prop) (ps : list (prog A)) :
  Forall (calls_only P) ps -> calls_only P (all ps).
Proof.
  induction 1 as [|p ps Hp Hps IH]; simpl; [constructor|].
  apply calls_only_bind; [exact Hp|]. intros a.
  apply calls_only_bind; [exact IH|]. intros others. constructor.
Qed.

Lemma getTree_calls (this : API) (s : option sha) :
  calls_only any_request (getTree this s).
Proof.
  destruct s; unfold getTree; [|constructor].
  apply calls_only_bind; [apply calls_only_request; exact I|].
  intros []; constructor.
Qed.

Lemma createTree_calls (this : API) (base : option sha) (tree : list tree_update) :
  calls_only any_request (createTree this base tree).
Proof.
  apply calls_only_bind; [apply calls_only_request; exact I|].
  intros []; constructor.
Qed.

Lemma updateTree_calls (this : API) (fileTree : FileTree) :
  forall s path, calls_only any_request (updateTree this s path fileTree).
Proof.
  induction fileTree as [f|children IH] using FileTree_induction;
    intros s path; [constructor|].
  cbn -[bind getTree createTree all].
  apply calls_only_bind; [apply getTree_calls|]. intros tree.
  apply calls_only_bind.
  - apply all_calls_only. apply Forall_app. split.
    + apply Forall_flat_map. apply Forall_forall. intros obj _.
      induction IH as [|[k sub] cs Hsub Hcs IHcs]; [constructor|].
      destruct (String.eqb k (entry_path obj)); [|exact IHcs].
      constructor; [|constructor].
      destruct sub as [f|grand]; [constructor|].
      apply calls_only_bind; [apply Hsub|]. intros c. constructor.
    + induction IH as [|[k sub] cs Hsub Hcs IHcs]; [constructor|].
      destruct (existsb _ tree); [exact IHcs|].
      constructor; [|exact IHcs].
      destruct sub as [f|grand]; [constructor|].
      apply calls_only_bind; [apply Hsub|]. intros c. constructor.
  - intros updates. apply calls_only_bind; [apply createTree_calls|].
    intros response. constructor.
Qed.

Lemma holding_bind {A : Type} (p : prog A) (f : A -> prog unit) :
  calls_only any_request p -> (forall a, holding (f a)) -> holding (bind p f).
Proof.
  intros Hp Hf. induction Hp as [a|e|r k _ _ IH]; simpl.
  - apply Hf.
  - constructor.
  - constructor. exact IH.
Qed.

Lemma holding_catch_rethrow (p : prog unit) :
  holding p -> holding (catch p (fun err => Throw err)).
Proof.
  induction 1 as [e|r k _ IH|k Hk]; simpl.
  - constructor.
  - constructor. exact IH.
  - constructor. rewrite Hk. reflexivity.
Qed.

Ltac any_calls :=
  repeat (intros;
          first [ apply calls_only_ret
                | apply calls_only_throw
                | apply calls_only_request; exact I
                | apply updateTree_calls
                | apply calls_only_bind
                | apply calls_only_catch
                | match goal with
                  | |- calls_only _ (match ?x with _ => _ end) => destruct x
                  end ]).

Lemma storeMetadata_holding (this : API) (key : string) (data : metadata) :
  exists body, storeMetadata this key data = Take body /\ holding body.
Proof.
  eexists. split; [reflexivity|].
  apply holding_catch_rethrow.
  apply holding_bind.
  { unfold checkMetadataRef, uploadBlob, createTree, commit_, createCommit,
      createRef. any_calls. }
  intros branchData. apply holding_bind.
  { unfold uploadBlob. any_calls. }
  intros item. apply holding_bind; [apply updateTree_calls|].
  intros changeTree. apply holding_bind.
  { unfold commit_, createCommit. any_calls. }
  intros response. apply holding_bind.
  { unfold patchRef. any_calls. }
  intros _. apply holding_bind; [any_calls|].
  intros []; try apply holding_throw.
  apply holding_bind.
  { unfold detached. any_calls. }
  intros _. constructor. reflexivity.
Qed.

(** A call that holds the slot settles: it resolves with the slot free,
    or it is rejected with the slot taken. *)
Lemma holding_run {W : Type} (h : handler W) (p : prog unit) (w : W) :
  holding p ->
  (ended (run h p w 1) = Resolved tt /\ current (run h p w 1) = 0)
  \/ (exists e, ended (run h p w 1) = Rejected e /\ current (run h p w 1) = 1).
Proof.
  intros Hp. revert w. induction Hp as [e|r k _ IH|k Hk]; intros w; simpl.
  - right. exists e. split; reflexivity.
  - destruct (h r w) as [x w']. apply IH.
  - rewrite Hk. left. split; reflexivity.
Qed.

(** ** The scheduler against the serial execution *)

Lemma run_each_app {W : Type} (h : handler W) (ps qs : list (prog unit))
  (w : W) (n : nat) :
  run_each h (ps ++ qs) w n =
  {| outcomes := outcomes (run_each h ps w n)
                 ++ outcomes (run_each h qs (final (run_each h ps w n))
                                (slot (run_each h ps w n)));
     final := final (run_each h qs (final (run_each h ps w n))
                       (slot (run_each h ps w n)));
     slot := slot (run_each h qs (final (run_each h ps w n))
                     (slot (run_each h ps w n)));
     requests := requests (run_each h ps w n)
                 ++ requests (run_each h qs (final (run_each h ps w n))
                                (slot (run_each h ps w n))) |}.
Proof.
  revert w n. induction ps as [|p ps IH]; intros w n.
  - simpl. destruct (run_each h qs w n); reflexivity.
  - cbn [app run_each]. rewrite IH. cbn [outcomes final slot requests].
    rewrite app_assoc. reflexivity.
Qed.

Ltac shape :=
  repeat split; cbn; auto; try (intros; discriminate); try lia.

Lemma advance_holding {W : Type} (h : handler W) (id : nat) (p : prog unit)
  (s : sys W) :
  holding p ->
  sys_running s = [] -> sys_current s = 1 ->
  Forall (fun t => holding (snd t)) (sys_queue s) ->
  well_formed (advance id p s)
  /\ completed h (advance id p s) = completed h (suspend id p s).
Proof.
  intros Hp. destruct s as [w c q rn st lg cl]. cbn [sys_running sys_current sys_queue].
  intros -> -> Hq.
  destruct Hp as [e|r k Hk|k Hk].
  - split.
    + shape.
    + unfold completed, rest_of. cbn.
      rewrite map_app, <- app_assoc. reflexivity.
  - split; [|reflexivity].
    shape; repeat constructor; auto.
  - cbn [advance]. unfold sem_leave. cbn [sys_current sys_queue].
    destruct q as [|[j task] q].
    + cbn [Nat.sub]. rewrite Hk. split.
      * shape.
      * unfold completed, rest_of. cbn. rewrite Hk. cbn.
        rewrite map_app, <- app_assoc. reflexivity.
    + cbn [Nat.ltb Nat.leb Nat.sub Nat.add]. rewrite Hk. split.
      * inversion Hq as [|? ? Htask Hrest]; subst.
        shape; repeat constructor; auto.
      * unfold completed, rest_of. cbn. rewrite Hk. cbn.
        rewrite map_app, <- app_assoc. reflexivity.
Qed.

Lemma sys_step_completed {W : Type} (this : API) (h : handler W) (l : label)
  (s : sys W) :
  well_formed s ->
  well_formed (sys_step this h l s)
  /\ completed h (sys_step this h l s)
     = {| outcomes :=
            outcomes (completed h s)
            ++ outcomes (run_each h (calls_of this [l]) (final (completed h s))
                           (slot (completed h s)));
          final := final (run_each h (calls_of this [l]) (final (completed h s))
                            (slot (completed h s)));
          slot := slot (run_each h (calls_of this [l]) (final (completed h s))
                          (slot (completed h s)));
          requests :=
            requests (completed h s)
            ++ requests (run_each h (calls_of this [l]) (final (completed h s))
                           (slot (completed h s))) |}.
Proof.
  intros (Hlen & Hcap & Hfree & Hrun & Hqueue).
  destruct s as [w c q rn st lg cl].
  cbn [sys_running sys_current sys_queue] in *.
  destruct l as [key data|id].
  - cbn [calls_of flat_map app sys_step sys_calls sys_world sys_current
           sys_queue sys_running sys_settled sys_log].
    destruct (storeMetadata_holding this key data) as (body & -> & Hbody).
    cbn [advance sys_current].
    destruct c as [|[|c]]; [| |lia].
    + (* the slot is free *)
      rewrite (Hfree eq_refl) in *. destruct rn; [|cbn in Hlen; lia].
      cbn [Nat.ltb Nat.leb Nat.add].
      destruct (advance_holding h cl body
                  (occupy {| sys_world := w; sys_current := 0; sys_queue := [];
                             sys_running := []; sys_settled := st; sys_log := lg;
                             sys_calls := S cl |}) Hbody eq_refl eq_refl)
        as [Hwf ->]; [constructor|].
      split; [exact Hwf|].
      unfold completed, rest_of. cbn. rewrite !app_nil_r. reflexivity.
    + (* the slot is taken *)
      cbn [Nat.ltb Nat.leb Nat.add]. split.
      * shape. apply Forall_app. split; [exact Hqueue|]. repeat constructor. exact Hbody.
      * unfold completed, rest_of, enqueue.
        cbn [sys_world sys_current sys_queue sys_running sys_settled sys_log
               outcomes final slot requests].
        rewrite map_app, app_assoc, run_each_app.
        cbn [outcomes final slot requests map].
        rewrite <- !app_assoc. reflexivity.
  - cbn [calls_of flat_map app sys_step sys_running].
    assert (Hsame :
      completed h {| sys_world := w; sys_current := c; sys_queue := q;
                     sys_running := rn; sys_settled := st; sys_log := lg;
                     sys_calls := cl |}
      = {| outcomes := outcomes (completed h {| sys_world := w; sys_current := c;
                         sys_queue := q; sys_running := rn; sys_settled := st;
                         sys_log := lg; sys_calls := cl |}) ++ [];
           final := final (completed h {| sys_world := w; sys_current := c;
                         sys_queue := q; sys_running := rn; sys_settled := st;
                         sys_log := lg; sys_calls := cl |});
           slot := slot (completed h {| sys_world := w; sys_current := c;
                         sys_queue := q; sys_running := rn; sys_settled := st;
                         sys_log := lg; sys_calls := cl |});
           requests := requests (completed h {| sys_world := w; sys_current := c;
                         sys_queue := q; sys_running := rn; sys_settled := st;
                         sys_log := lg; sys_calls := cl |}) ++ [] |}).
    { rewrite !app_nil_r. unfold completed. reflexivity. }
    cbn [run_each outcomes final slot requests]. rewrite <- Hsame. clear Hsame.
    destruct rn as [|[j p] [|? ?]]; [| |cbn in Hlen; lia].
    + split; [shape|reflexivity].
    + cbn [extract]. destruct (Nat.eqb j id) eqn:Ej; [|split; [shape|reflexivity]].
      apply Nat.eqb_eq in Ej. subst j.
      assert (c = 1) as -> by (cbn in Hlen; lia).
      inversion Hrun as [|? ? Hp _]; subst. cbn [snd] in Hp.
      destruct p as [a|e|r k|k|k]; cbv beta iota;
        cbn [sys_world sys_current sys_queue sys_settled sys_log sys_calls].
      * inversion Hp.
      * destruct (advance_holding h id (Throw e)
                    {| sys_world := w; sys_current := 1; sys_queue := q;
                       sys_running := []; sys_settled := st; sys_log := lg;
                       sys_calls := cl |} Hp eq_refl eq_refl Hqueue) as [Hwf ->].
        split; [exact Hwf|reflexivity].
      * destruct (h r w) as [x w'] eqn:Ex. cbv beta iota.
        cbn [sys_world sys_current sys_queue sys_settled sys_log sys_calls].
        inversion Hp as [|? ? Hk|]; subst.
        destruct (advance_holding h id (k x)
                    {| sys_world := w'; sys_current := 1; sys_queue := q;
                       sys_running := []; sys_settled := st;
                       sys_log := lg ++ [(id, (r, x))]; sys_calls := cl |}
                    (Hk x) eq_refl eq_refl Hqueue) as [Hwf ->].
        split; [exact Hwf|].
        unfold completed, rest_of. cbn. rewrite Ex. cbn.
        rewrite map_app, <- app_assoc. reflexivity.
      * inversion Hp.
      * destruct (advance_holding h id (Leave k)
                    {| sys_world := w; sys_current := 1; sys_queue := q;
                       sys_running := []; sys_settled := st; sys_log := lg;
                       sys_calls := cl |} Hp eq_refl eq_refl Hqueue) as [Hwf ->].
        split; [exact Hwf|reflexivity].
Qed.

Lemma sys_run_completed {W : Type} (this : API) (h : handler W) (w0 : W)
  (ls : list label) :
  well_formed (sys_run this h ls (sys_init w0))
  /\ completed h (sys_run this h ls (sys_init w0))
     = run_each h (calls_of this ls) w0 0.
Proof.
  induction ls as [|l ls [Hwf Hc]] using rev_ind.
  - split; [shape|reflexivity].
  - unfold sys_run in *. rewrite fold_left_app. cbn [fold_left].
    destruct (sys_step_completed this h l _ Hwf) as [Hwf' ->].
    split; [exact Hwf'|]. rewrite Hc.
    unfold calls_of. rewrite flat_map_app. fold (calls_of this ls).
    fold (calls_of this [l]). rewrite run_each_app. reflexivity.
Qed.

Lemma run_each_outcomes {W : Type} (h : handler W) (ps : list (prog unit))
  (w : W) (n : nat) :
  length (outcomes (run_each h ps w n)) = length ps.
Proof.
  revert w n. induction ps as [|p ps IH]; intros w n; [reflexivity|].
  cbn [run_each outcomes length]. rewrite IH. reflexivity.
Qed.

(** C9.  Calls of [storeMetadata] made on one instance in any number and
    at any moments, their requests answered in any order the scheduler
    picks: at most one call is inside its write sequence at a time; the
    requests answered so far are, in this order, the first requests of the
    serial execution of the calls in their order of arrival, and so are the
    promises settled so far; and once every call has settled, the state of
    the platform is the state that serial execution ends in. *)
Theorem storeMetadata_calls_are_serialized {W : Type} (this : API)
  (h : handler W) (w0 : W) (ls : list label) :
  let s := sys_run this h ls (sys_init w0) in
  let one_by_one := run_each h (calls_of this ls) w0 0 in
  length (sys_running s) <= 1
  /\ (exists later, requests one_by_one = (map snd (sys_log s) ++ later)%list)
  /\ (exists later,
         outcomes one_by_one
         = (map (fun t => outcome_of (snd t)) (sys_settled s) ++ later)%list)
  /\ (length (sys_settled s) = length (calls_of this ls) ->
      sys_world s = final one_by_one
      /\ map snd (sys_log s) = requests one_by_one
      /\ map (fun t => outcome_of (snd t)) (sys_settled s) = outcomes one_by_one).
Proof.
  intros s one_by_one.
  destruct (sys_run_completed this h w0 ls) as [(Hlen & Hcap & _) Hc].
  fold s in Hlen, Hcap, Hc. fold one_by_one in Hc.
  split; [lia|]. rewrite <- Hc. unfold completed.
  cbn [outcomes final slot requests].
  split; [eexists; reflexivity|]. split; [eexists; reflexivity|].
  intros Hall.
  assert (Hrest : rest_of s = []).
  { apply length_zero_iff_nil.
    rewrite <- (run_each_outcomes h (rest_of s) (sys_world s) (sys_current s)).
    pose proof (f_equal (fun c => length (outcomes c)) Hc) as Hl.
    unfold completed in Hl. cbn [outcomes] in Hl. unfold one_by_one in Hl.
    rewrite run_each_outcomes, length_app, length_map in Hl. lia. }
  rewrite Hrest. cbn. rewrite !app_nil_r. repeat split.
Qed.

Lemma storeMetadata_calls_are_serialized_witness :
  let ls := ([Store "hello" hello_metadata; Resume 0; Resume 0;
              Store "hello" (with_status hello_metadata "draft"); Resume 1]
             ++ repeat (Resume 0) 10 ++ repeat (Resume 1) 8)%list in
  let s := sys_run maintainer platform ls (sys_init empty_platform) in
  let one_by_one := run_each platform (calls_of maintainer ls) empty_platform 0 in
  sys_settled s = [(0, Ok tt); (1, Ok tt)]
  /\ sys_world s = final one_by_one
  /\ map snd (sys_log s) = requests one_by_one
  /\ map (fun t => outcome_of (snd t)) (sys_settled s) = outcomes one_by_one.
Proof.
  intros ls s one_by_one. split; [vm_compute; reflexivity|].
  apply (storeMetadata_calls_are_serialized maintainer platform empty_platform ls).
  vm_compute. reflexivity.
Defined.

(** A call of [storeMetadata] on a free semaphore settles: it resolves
    with the slot released, or it is rejected with the slot still taken.  On
    a taken semaphore it never settles. *)
Lemma storeMetadata_settles {W : Type} (this : API) (h : handler W) (w : W)
  (key : string) (data : metadata) :
  (ended (run h (storeMetadata this key data) w 0) = Resolved tt
   /\ current (run h (storeMetadata this key data) w 0) = 0)
  \/ (exists e, ended (run h (storeMetadata this key data) w 0) = Rejected e
                /\ current (run h (storeMetadata this key data) w 0) = 1).
Proof.
  destruct (storeMetadata_holding this key data) as (body & -> & Hbody).
  cbn [run Nat.ltb Nat.leb Nat.add]. apply holding_run. exact Hbody.
Qed.

Lemma storeMetadata_waits {W : Type} (this : API) (h : handler W) (w : W)
  (key : string) (data : metadata) :
  run h (storeMetadata this key data) w 1
  = {| ended := Pending; world := w; current := 1; trace := [] |}.
Proof. reflexivity. Qed.

(** ** Trees on the platform *)

Lemma is_name_segments (s : string) :
  is_name s = true -> path_segments s = [s].
Proof.
  unfold is_name, path_segments. intros [Hne Hsf]%andb_true_iff.
  rewrite (split_slash_free s Hsf). cbn [List.filter]. rewrite Hne. reflexivity.
Qed.

Lemma find_path_Some (name : string) (tree : list tree_entry) (e : tree_entry) :
  find_path name tree = Some e -> In e tree /\ entry_path e = name.
Proof.
  unfold find_path. intros H. apply find_some in H as [Hin Heq].
  apply String.eqb_eq in Heq. split; assumption.
Qed.



Lemma find_path_put_same (e : tree_entry) (tree : list tree_entry) :
  find_path (entry_path e) (put_entry e tree) = Some e.
Proof.
  unfold find_path. induction tree as [|old tree IH]; cbn.
  - rewrite String.eqb_refl. reflexivity.
  - destruct (String.eqb (entry_path old) (entry_path e)) eqn:E; cbn.
    + rewrite String.eqb_refl. reflexivity.
    + rewrite E. exact IH.
Qed.

Lemma find_path_put_other (name : string) (e : tree_entry) (tree : list tree_entry) :
  name <> entry_path e -> find_path name (put_entry e tree) = find_path name tree.
Proof.
  intros Hne. unfold find_path. induction tree as [|old tree IH]; cbn.
  - apply String.eqb_neq in Hne. rewrite String.eqb_sym, Hne. reflexivity.
  - destruct (String.eqb (entry_path old) (entry_path e)) eqn:E; cbn.
    + apply String.eqb_eq in E. rewrite E.
      apply String.eqb_neq in Hne. rewrite String.eqb_sym, Hne. reflexivity.
    + destruct (String.eqb (entry_path old) name); [reflexivity|exact IH].
Qed.






Lemma getTree_platform (this : API) (tree : list tree_entry) (w : github) (n : nat) :
  run platform (getTree this (Some (TreeSha tree))) w n
  = {| ended := Resolved tree; world := w; current := n;
       trace := [(GET_tree (repoURL this) (TreeSha tree), Ok (RTree tree))] |}.
Proof. reflexivity. Qed.

Lemma createTree_platform (this : API) (base tree' : list tree_entry)
  (updates : list tree_update) (w : github) (n : nat) :
  apply_updates base updates = Some tree' ->
  run platform (createTree this (Some (TreeSha base)) updates) w n
  = {| ended := Resolved (TreeSha tree'); world := w; current := n;
       trace := [(POST_trees (repoURL this) (Some (TreeSha base)) updates,
                  Ok (RSha (TreeSha tree')))] |}.
Proof.
  intros H. unfold createTree, request. cbn. rewrite H. reflexivity.
Qed.

Lemma tree_lookup_cons (k k2 : string) (rest : list string) (tree : list tree_entry) :
  tree_lookup (k :: k2 :: rest) tree
  = match find_path k tree with
    | Some (TreeEntry _ _ _ (TreeSha sub)) => tree_lookup (k2 :: rest) sub
    | _ => None
    end.
Proof. reflexivity. Qed.

Section RemoveLeaf.

Variable this : API.
Variable f : file.
Hypothesis f_removed : f_remove f = true.


End RemoveLeaf.





(** ** Replaying commits *)

Lemma tree_lookup_nil_tree (q : list string) : tree_lookup q [] = None.
Proof. destruct q as [|k [|k2 q]]; reflexivity. Qed.

Lemma tree_lookup_put (segments : list string) (mode type : string) (s : sha) :
  forall tree name,
    last_of segments = Some name ->
    tree_lookup segments (tree_put segments mode type s tree)
    = Some (TreeEntry name mode type s).
Proof.
  induction segments as [|k rest IH]; intros tree name Hlast; [discriminate|].
  destruct rest as [|k2 rest].
  - cbn in Hlast. injection Hlast as <-. cbn [tree_put tree_lookup].
    apply (find_path_put_same (TreeEntry k mode type s)).
  - change (tree_put (k :: k2 :: rest) mode type s tree)
      with (put_entry
              (TreeEntry k "040000" "tree"
                 (TreeSha (tree_put (k2 :: rest) mode type s (subtree k tree))))
              tree).
    rewrite tree_lookup_cons.
    rewrite (find_path_put_same
               (TreeEntry k "040000" "tree"
                  (TreeSha (tree_put (k2 :: rest) mode type s (subtree k tree))))).
    apply IH. exact Hlast.
Qed.

Lemma tree_lookup_put_apart (segments : list string) (mode type : string) (s : sha) :
  forall tree q,
    apart segments q ->
    tree_lookup q (tree_put segments mode type s tree) = tree_lookup q tree.
Proof.
  induction segments as [|k rest IH]; intros tree q [Hsq Hqs]; [reflexivity|].
  destruct q as [|k' q']; [reflexivity|].
  destruct (String.eqb k' k) eqn:E.
  - apply String.eqb_eq in E. subst k'.
    destruct rest as [|k2 rest].
    { exfalso. apply Hsq. exists q'. reflexivity. }
    destruct q' as [|k'' q''].
    { exfalso. apply Hqs. exists (k2 :: rest). reflexivity. }
    change (tree_put (k :: k2 :: rest) mode type s tree)
      with (put_entry
              (TreeEntry k "040000" "tree"
                 (TreeSha (tree_put (k2 :: rest) mode type s (subtree k tree))))
              tree).
    rewrite !tree_lookup_cons.
    rewrite (find_path_put_same
               (TreeEntry k "040000" "tree"
                  (TreeSha (tree_put (k2 :: rest) mode type s (subtree k tree))))).
    rewrite IH.
    + unfold subtree.
      destruct (find_path k tree) as [[p m ty [id|sub]]|];
        try apply tree_lookup_nil_tree. reflexivity.
    + split.
      * intros [c Hc]. apply Hsq. exists c. cbn. rewrite Hc. reflexivity.
      * intros [c Hc]. apply Hqs. exists c. cbn. rewrite Hc. reflexivity.
  - apply String.eqb_neq in E.
    destruct rest as [|k2 rest].
    + cbn [tree_put].
      destruct q' as [|k'' q'']; cbn [tree_lookup];
        rewrite (find_path_put_other k' (TreeEntry k mode type s) tree E);
        reflexivity.
    + change (tree_put (k :: k2 :: rest) mode type s tree)
        with (put_entry
                (TreeEntry k "040000" "tree"
                   (TreeSha (tree_put (k2 :: rest) mode type s (subtree k tree))))
                tree).
      destruct q' as [|k'' q'']; cbn [tree_lookup];
        rewrite (find_path_put_other k'
                   (TreeEntry k "040000" "tree"
                      (TreeSha (tree_put (k2 :: rest) mode type s (subtree k tree))))
                   tree E);
        reflexivity.
Qed.

Lemma commits_created_app (t1 t2 : list event) :
  commits_created (t1 ++ t2) = (commits_created t1 ++ commits_created t2)%list.
Proof. apply flat_map_app. Qed.

Lemma commits_created_reads (t : list event) :
  Forall (fun ev => is_read (fst ev) = true) t -> commits_created t = [].
Proof.
  induction 1 as [|[r x] t Hr _ IH]; [reflexivity|].
  cbn in Hr. destruct r; try discriminate Hr; exact IH.
Qed.

Lemma getBlobInTree_reads (this : API) (treeSha : sha) (pathToBlob : string) :
  calls_only (fun r => is_read r = true) (getBlobInTree this treeSha pathToBlob).
Proof.
  unfold getBlobInTree.
  assert (Hget : forall s, calls_only (fun r => is_read r = true) (getTree this s)).
  { intros [s|]; unfold getTree; calls_only. }
  apply calls_only_bind; [apply Hget|]. intros baseTree.
  apply calls_only_bind; [|intros; constructor].
  generalize (removelast (path_segments pathToBlob)) as directories.
  intros directories. revert baseTree.
  induction directories as [|segment rest IH]; intros tree; cbn [getBlobInTree_walk].
  - constructor.
  - destruct (find_path segment tree); [|constructor].
    apply calls_only_bind; [apply Hget|]. intros subTree. apply IH.
Qed.

Lemma getBlobInTree_walk_platform (this : API) (segments : list string) :
  forall (tree : list tree_entry) (e : tree_entry) (w : github) (n : nat),
    tree_lookup segments tree = Some e ->
    exists subTree name,
      last_of segments = Some name
      /\ find_path name subTree = Some e
      /\ ended (run platform (getBlobInTree_walk this tree (removelast segments)) w n)
         = Resolved subTree
      /\ world (run platform (getBlobInTree_walk this tree (removelast segments)) w n)
         = w.
Proof.
  induction segments as [|k rest IH]; intros tree e w n Hlookup; [discriminate|].
  destruct rest as [|k2 rest].
  - exists tree, k. repeat split. exact Hlookup.
  - rewrite tree_lookup_cons in Hlookup.
    destruct (find_path k tree) as [[p m ty [id|sub]]|] eqn:Hfind;
      try discriminate.
    destruct (IH sub e w n Hlookup) as (subTree & name & Hlast & Hname & He & Hw).
    exists subTree, name. split; [exact Hlast|]. split; [exact Hname|].
    change (removelast (k :: k2 :: rest)) with (k :: removelast (k2 :: rest)).
    cbn [getBlobInTree_walk]. rewrite Hfind. cbn [entry_sha].
    rewrite run_bind, getTree_platform. cbn [ended world current trace after].
    split; assumption.
Qed.

Lemma getBlobInTree_platform (this : API) (tree : list tree_entry)
  (pathToBlob : string) (e : tree_entry) (w : github) (n : nat) :
  tree_lookup (path_segments pathToBlob) tree = Some e ->
  ended (run platform (getBlobInTree this (TreeSha tree) pathToBlob) w n)
  = Resolved (Some e)
  /\ world (run platform (getBlobInTree this (TreeSha tree) pathToBlob) w n) = w
  /\ current (run platform (getBlobInTree this (TreeSha tree) pathToBlob) w n) = n
  /\ commits_created
       (trace (run platform (getBlobInTree this (TreeSha tree) pathToBlob) w n)) = [].
Proof.
  intros Hlookup.
  destruct (calls_only_run _ platform _ w n
              (getBlobInTree_reads this (TreeSha tree) pathToBlob)) as [Hreads Hn].
  split; [|split; [|split; [exact Hn|apply commits_created_reads, Hreads]]].
  - unfold getBlobInTree. rewrite run_bind, getTree_platform.
    cbn [ended world current trace after].
    destruct (getBlobInTree_walk_platform this _ tree e w n Hlookup)
      as (subTree & name & Hlast & Hname & He & Hw).
    rewrite run_bind, He, Hlast, Hname. reflexivity.
  - unfold getBlobInTree. rewrite run_bind, getTree_platform.
    cbn [ended world current trace after].
    destruct (getBlobInTree_walk_platform this _ tree e w n Hlookup)
      as (subTree & name & Hlast & Hname & He & Hw).
    rewrite run_bind, He. cbn [after world run]. exact Hw.
Qed.

(** One commit replayed on the platform. *)
Lemma rebaseSingleBlobCommit_platform (this : API) (baseCommit c : commit)
  (base original : commit_data) (base_tree original_tree : list tree_entry)
  (pathToBlob : string) (e : tree_entry) (w : github) (n : nat) :
  commit_flat baseCommit = Some base -> tree_sha base = TreeSha base_tree ->
  commit_flat c = Some original -> tree_sha original = TreeSha original_tree ->
  tree_lookup (path_segments pathToBlob) original_tree = Some e ->
  exists name,
    let created :=
      GitCommit name
        {| message := message original; author := author original;
           committer := committer original;
           tree_sha :=
             TreeSha (tree_put (path_segments pathToBlob) (entry_mode e)
                        (entry_type e) (entry_sha e) base_tree) |}
        (Some [commit_sha baseCommit]) in
    ended (run platform (rebaseSingleBlobCommit this baseCommit c pathToBlob) w n)
    = Resolved created
    /\ current (run platform (rebaseSingleBlobCommit this baseCommit c pathToBlob) w n)
       = n
    /\ commits_created
         (trace (run platform (rebaseSingleBlobCommit this baseCommit c pathToBlob) w n))
       = [created].
Proof.
  intros Hbase Hbase_tree Horiginal Horiginal_tree Hlookup.
  exists (Sha (fresh_string "commit" (gh_commits w))).
  unfold rebaseSingleBlobCommit. rewrite Horiginal, Horiginal_tree.
  destruct (getBlobInTree_platform this original_tree pathToBlob e w n Hlookup)
    as (He & Hw & Hn & Ht).
  rewrite run_bind. rewrite He, Hw, Hn. rewrite Hbase, Hbase_tree.
  rewrite run_bind.
  rewrite (createTree_platform this base_tree
             (tree_put (path_segments pathToBlob) (entry_mode e) (entry_type e)
                (entry_sha e) base_tree)).
  2:{ destruct e as [p m ty s]. reflexivity. }
  cbn [ended world current trace after].
  rewrite !commits_created_app, Ht.
  repeat split.
Qed.

Lemma normalizeCommit_flat (c : commit) :
  commit_flat (normalizeCommit c) = Some (commit_data_of c)
  /\ commit_sha (normalizeCommit c) = commit_sha c.
Proof. destruct c; split; reflexivity. Qed.

Lemma tree_lookup_last (segments : list string) :
  forall (tree : list tree_entry) (e : tree_entry),
    tree_lookup segments tree = Some e -> last_of segments = Some (entry_path e).
Proof.
  induction segments as [|k rest IH]; intros tree e H; [discriminate|].
  destruct rest as [|k2 rest].
  - cbn in H. apply find_path_Some in H as [_ ->]. reflexivity.
  - rewrite tree_lookup_cons in H.
    destruct (find_path k tree) as [[p m ty [id|sub]]|]; try discriminate.
    apply (IH sub e H).
Qed.

Lemma replays_length (segments : list string) (originals : list commit_data) :
  forall parent parent_tree created,
    replays segments parent parent_tree originals created ->
    length created = length originals.
Proof.
  induction originals as [|d ds IH]; intros parent parent_tree [|c cs] H;
    cbn in H; try contradiction; [reflexivity|].
  destruct H as (name & tree & original_tree & _ & _ & _ & _ & H).
  cbn. f_equal. apply (IH _ _ _ H).
Qed.

Section Rebase.

Variable this : API.
Variable pathToBlob : string.

Lemma rebase_fold_platform (commits : list commit) :
  forall (lastCommitPromise : prog commit) (parent : commit)
         (parent_tree : list tree_entry) (w : github) (n : nat),
    ended (run platform lastCommitPromise w n) = Resolved parent ->
    current (run platform lastCommitPromise w n) = n ->
    tree_sha (commit_data_of parent) = TreeSha parent_tree ->
    Forall (has_blob pathToBlob) commits ->
    exists newHead created,
      ended (run platform
               (fold_left (rebase_step this pathToBlob) commits lastCommitPromise)
               w n) = Resolved newHead
      /\ current (run platform
                    (fold_left (rebase_step this pathToBlob) commits
                       lastCommitPromise) w n) = n
      /\ commits_created
           (trace (run platform
                     (fold_left (rebase_step this pathToBlob) commits
                        lastCommitPromise) w n))
         = (commits_created (trace (run platform lastCommitPromise w n))
            ++ created)%list
      /\ last_of (parent :: created) = Some newHead
      /\ replays (path_segments pathToBlob) (commit_sha parent) parent_tree
           (map commit_data_of commits) created.
Proof.
  induction commits as [|c commits IH];
    intros lastCommitPromise parent parent_tree w n Hended Hcurrent Htree Hblobs.
  - exists parent, []. cbn [fold_left]. rewrite app_nil_r.
    repeat split; assumption.
  - inversion Hblobs as [|? ? (original_tree & e & Horiginal & Hlookup) Hrest]; subst.
    cbn [fold_left].
    destruct (normalizeCommit_flat parent) as [Hpflat Hpsha].
    destruct (normalizeCommit_flat c) as [Hcflat _].
    destruct (rebaseSingleBlobCommit_platform this (normalizeCommit parent)
                (normalizeCommit c) (commit_data_of parent) (commit_data_of c)
                parent_tree original_tree pathToBlob e
                (world (run platform lastCommitPromise w n)) n
                Hpflat Htree Hcflat Horiginal Hlookup)
      as (name & Hstep_ended & Hstep_current & Hstep_created).
    cbv zeta in Hstep_ended, Hstep_created. rewrite Hpsha in *.
    set (created :=
           GitCommit name
             {| message := message (commit_data_of c);
                author := author (commit_data_of c);
                committer := committer (commit_data_of c);
                tree_sha :=
                  TreeSha (tree_put (path_segments pathToBlob) (entry_mode e)
                             (entry_type e) (entry_sha e) parent_tree) |}
             (Some [commit_sha parent])) in *.
    assert (Hrun : run platform (rebase_step this pathToBlob lastCommitPromise c) w n
                   = after (trace (run platform lastCommitPromise w n))
                       (run platform
                          (rebaseSingleBlobCommit this (normalizeCommit parent)
                             (normalizeCommit c) pathToBlob)
                          (world (run platform lastCommitPromise w n)) n)).
    { unfold rebase_step. rewrite run_bind, Hended, Hcurrent. reflexivity. }
    destruct (IH (rebase_step this pathToBlob lastCommitPromise c) created
                (tree_put (path_segments pathToBlob) (entry_mode e) (entry_type e)
                   (entry_sha e) parent_tree) w n)
      as (newHead & later & Hfold_ended & Hfold_current & Hfold_created
          & Hlast & Hreplays).
    { rewrite Hrun. exact Hstep_ended. }
    { rewrite Hrun. exact Hstep_current. }
    { reflexivity. }
    { exact Hrest. }
    exists newHead, (created :: later).
    split; [exact Hfold_ended|]. split; [exact Hfold_current|]. split.
    { rewrite Hfold_created, Hrun. cbn [after trace].
      rewrite commits_created_app, Hstep_created, <- app_assoc. reflexivity. }
    split.
    { exact Hlast. }
    cbn [map replays].
    exists name,
      (tree_put (path_segments pathToBlob) (entry_mode e) (entry_type e)
         (entry_sha e) parent_tree), original_tree.
    split; [reflexivity|]. split; [exact Horiginal|]. split.
    { rewrite (tree_lookup_put _ _ _ _ _ _ (tree_lookup_last _ _ _ Hlookup)).
      rewrite Hlookup. destruct e; reflexivity. }
    split; [intros q Hq; apply tree_lookup_put_apart; exact Hq|].
    exact Hreplays.
Qed.

End Rebase.

(** The claim of C3 fails where the base has moved on: the tree of the
    replayed commit has the README of the base, not the README of the
    original commit, though the README is outside the path. *)
Lemma rebased_tree_follows_the_base :
  let r := run platform
             (rebaseSingleBlobCommits maintainer moved_base [branch_commit] "hello.md")
             empty_platform 0 in
  exists created tree,
    commits_created (trace r) = [created]
    /\ tree_sha (commit_data_of created) = TreeSha tree
    /\ tree_sha (commit_data_of branch_commit) = TreeSha branch_tree
    /\ tree_lookup ["README.md"] tree
       = Some (TreeEntry "README.md" "100644" "blob" (Sha "r2"))
    /\ tree_lookup ["README.md"] branch_tree
       = Some (TreeEntry "README.md" "100644" "blob" (Sha "r1"))
    /\ tree_lookup ["README.md"] tree <> tree_lookup ["README.md"] branch_tree.
Proof.
  eexists _, _. split; [vm_compute; reflexivity|].
  split; [reflexivity|]. repeat split. discriminate.
Qed.

(** C3, amended.  When a rebase is needed (the first parent of the first
    commit is not the base commit) and the tree of every commit has a blob
    at the path, [rebaseSingleBlobCommits] creates one commit for each of
    the N commits and resolves to the last one.  Each new commit has one
    parent, the commit replayed before it or the base commit for the
    first, and the message, author and committer of its original; its tree
    has at the path what the tree of the original has there, and is the
    tree of its parent, not of the original, everywhere apart from the
    path. *)
Theorem rebaseSingleBlobCommits_replays (this : API) (baseCommit : commit)
  (commits : list commit) (pathToBlob : string) (first : commit)
  (others : list commit) (parent : sha) (grandparents : list sha)
  (base_tree : list tree_entry) (w : github) (n : nat) :
  let r := run platform (rebaseSingleBlobCommits this baseCommit commits pathToBlob)
             w n in
  commits = first :: others ->
  commit_parents first = Some (parent :: grandparents) ->
  parent <> commit_sha baseCommit ->
  tree_sha (commit_data_of baseCommit) = TreeSha base_tree ->
  Forall (has_blob pathToBlob) commits ->
  length (commits_created (trace r)) = length commits
  /\ ended r = Resolved (last_of (commits_created (trace r)))
  /\ replays (path_segments pathToBlob) (commit_sha baseCommit) base_tree
       (map commit_data_of commits) (commits_created (trace r)).
Proof.
  intros r -> Hparents Hneeded Hbase Hblobs. subst r.
  unfold rebaseSingleBlobCommits. rewrite Hparents.
  apply sha_eqb_neq in Hneeded. rewrite Hneeded.
  destruct (rebase_fold_platform this pathToBlob (first :: others)
              (Ret baseCommit) baseCommit base_tree w n eq_refl eq_refl Hbase Hblobs)
    as (newHead & created & Hended & Hcurrent & Hcreated & Hlast & Hreplays).
  rewrite run_bind, Hended. cbn [after ended trace run].
  rewrite app_nil_r, Hcreated. cbn [run trace commits_created flat_map app].
  pose proof (replays_length _ _ _ _ _ Hreplays) as Hlen.
  rewrite length_map in Hlen.
  split; [exact Hlen|]. split; [|exact Hreplays].
  destruct created as [|c created]; [discriminate Hlen|].
  f_equal. symmetry. exact Hlast.
Qed.

Lemma rebaseSingleBlobCommits_replays_witness :
  let r := run platform
             (rebaseSingleBlobCommits maintainer moved_base [branch_commit] "hello.md")
             empty_platform 0 in
  length (commits_created (trace r)) = 1
  /\ ended r = Resolved (last_of (commits_created (trace r)))
  /\ replays ["hello.md"] (Sha "m2")
       [TreeEntry "README.md" "100644" "blob" (Sha "r2");
        TreeEntry "hello.md" "100644" "blob" (Sha "p0")]
       [commit_data_of branch_commit] (commits_created (trace r)).
Proof.
  apply (rebaseSingleBlobCommits_replays maintainer moved_base [branch_commit]
           "hello.md" branch_commit [] (Sha "m1") []).
  - reflexivity.
  - reflexivity.
  - discriminate.
  - reflexivity.
  - constructor; [|constructor].
    exists branch_tree, (TreeEntry "hello.md" "100644" "blob" (Sha "p1")).
    split; reflexivity.
Defined.

(** ** Deleting an unpublished entry twice *)

Lemma platform_read (r : req) (w : github) :
  is_read r = true -> snd (platform r w) = w.
Proof.
  destruct r; try discriminate; intros _; cbn;
    repeat match goal with
           | |- context [match ?x with _ => _ end] => destruct x
           end; reflexivity.
Qed.

Lemma reads_keep_platform {A : Type} (p : prog A) (w : github) (n : nat) :
  calls_only (fun r => is_read r = true) p -> world (run platform p w n) = w.
Proof.
  intros Hp. revert w. induction Hp as [a|e|r k Hr _ IH]; intros w; cbn;
    [reflexivity|reflexivity|].
  pose proof (platform_read r w Hr) as Hw.
  destruct (platform r w) as [x w']. cbn in Hw. subst w'. apply IH.
Qed.

Lemma platform_getItem (key : string) (w : github) :
  platform (getItem key) w = (Ok (RCached (gh_cache w !! key)), w).
Proof. reflexivity. Qed.

Lemma platform_Date_now (w : github) :
  platform Date_now w = (Ok (RTime (gh_clock w)), w).
Proof. reflexivity. Qed.

Lemma platform_contents_same (url path : string) (w w' : github) :
  same_metadata w w' ->
  fst (platform (GET_contents url path "refs/meta/_netlify_cms") w')
  = fst (platform (GET_contents url path "refs/meta/_netlify_cms") w).
Proof.
  intros (Hcache & Hclock & Hcommits & Hblobs & Hmeta).
  cbn [platform]. rewrite Hmeta. unfold resolve_tree. rewrite Hcommits, Hblobs.
  repeat match goal with
         | |- context [match ?x with _ => _ end] => destruct x
         end; reflexivity.
Qed.

Lemma retrieveMetadata_same (this : API) (key : string) (w w' : github) (n : nat) :
  same_metadata w w' ->
  ended (run platform (retrieveMetadata this key) w' n)
  = ended (run platform (retrieveMetadata this key) w n).
Proof.
  intros Hsame. pose proof Hsame as (Hcache & Hclock & _).
  assert (Hfetch : forall url,
    ended (run platform
             (response <- request (GET_contents url (key +:+ ".json")
                                     "refs/meta/_netlify_cms") ;;
              match response with
              | RText text => JSON_parse text
              | _ => Throw (Error "SyntaxError")
              end) w' n)
    = ended (run platform
               (response <- request (GET_contents url (key +:+ ".json")
                                       "refs/meta/_netlify_cms") ;;
                match response with
                | RText text => JSON_parse text
                | _ => Throw (Error "SyntaxError")
                end) w n)).
  { intros url. rewrite 2 run_bind, 2 run_request.
    cbn [ended world current trace].
    rewrite (platform_contents_same _ _ w w' Hsame).
    destruct (fst (platform _ w)) as [[]|]; try reflexivity.
    destruct raw; reflexivity. }
  unfold retrieveMetadata.
  rewrite (run_bind platform (request (getItem _)) _ w').
  rewrite (run_bind platform (request (getItem _)) _ w).
  rewrite 2 run_request, 2 platform_getItem.
  cbn [fst snd ended world current trace]. rewrite Hcache.
  destruct (gh_cache w !! ("gh.meta." +:+ key)) as [c|]; cbv beta iota.
  - rewrite (run_bind platform (bind (request Date_now) _) _ w').
    rewrite (run_bind platform (bind (request Date_now) _) _ w).
    rewrite (run_bind platform (request Date_now) _ w').
    rewrite (run_bind platform (request Date_now) _ w).
    rewrite 2 run_request, 2 platform_Date_now.
    cbn [fst snd ended world current trace after run]. rewrite Hclock.
    destruct (N.ltb (gh_clock w) (expires c)); [reflexivity|].
    cbn [after ended world current trace]. apply Hfetch.
  - rewrite (run_bind platform (Ret None) _ w').
    rewrite (run_bind platform (Ret None) _ w).
    cbn [after ended run world current trace]. apply Hfetch.
Qed.

Lemma deleteUnpublishedEntry_platform (this : API) (collectionName slug : string)
  (w : github) (n : nat) :
  let contentKey := generateContentKey this collectionName slug in
  let r := run platform (deleteUnpublishedEntry this collectionName slug) w n in
  (ended r, world r)
  = delete_outcome w (generateBranchName contentKey)
      (ended (run platform (retrieveMetadata this contentKey) w n)).
Proof.
  intros contentKey r. subst r. unfold deleteUnpublishedEntry. fold contentKey.
  pose proof (reads_keep_platform _ w n (retrieveMetadata_reads this contentKey))
    as Hw.
  destruct (calls_only_run _ platform _ w n (retrieveMetadata_reads this contentKey))
    as [_ Hn].
  rewrite run_catch, run_bind.
  destruct (ended (run platform (retrieveMetadata this contentKey) w n))
    as [metadata|e|] eqn:Hread.
  - rewrite Hw, Hn. unfold delete_outcome, deleted_branch.
    destruct (m_pr metadata) as [pr|].
    + unfold closePR, deleteBranch, deleteRef, request. cbn.
      destruct (gh_pulls w !! pr_number pr) as [p|]; cbn; [|reflexivity].
      destruct (gh_refs w !! refName "heads" (generateBranchName contentKey));
        reflexivity.
    + unfold deleteBranch, deleteRef, request. cbn.
      destruct (gh_refs w !! refName "heads" (generateBranchName contentKey));
        reflexivity.
  - cbn [ending ended world current trace after delete_outcome]. rewrite Hw.
    destruct (String.eqb (error_message e) "Reference does not exist");
      reflexivity.
  - cbn [ending ended world]. rewrite Hw. reflexivity.
Qed.

Lemma branch_is_not_metadata (branchName : string) :
  refName "heads" branchName <> "refs/meta/_netlify_cms".
Proof. discriminate. Qed.

Lemma same_metadata_deleted (w : github) (pulls : gmap nat pull_request)
  (branchName : string) :
  same_metadata w (deleted_branch (set_pulls w pulls) branchName)
  /\ same_metadata w (deleted_branch w branchName).
Proof.
  unfold same_metadata, deleted_branch. split.
  - cbn. destruct (gh_refs w !! refName "heads" branchName); cbn;
      repeat split.
    apply lookup_delete_ne. apply branch_is_not_metadata.
  - destruct (gh_refs w !! refName "heads" branchName); cbn; repeat split.
    apply lookup_delete_ne. apply branch_is_not_metadata.
Qed.

Lemma deleteUnpublishedEntry_calls (this : API) (collectionName slug : string) :
  calls_only any_request (deleteUnpublishedEntry this collectionName slug).
Proof.
  unfold deleteUnpublishedEntry. apply calls_only_catch.
  - apply calls_only_bind.
    + unfold retrieveMetadata, JSON_parse. any_calls.
    + intros metadata. unfold closePR, deleteBranch, deleteRef. any_calls.
  - intros e. destruct (String.eqb _ _); constructor.
Qed.

Lemma deleteUnpublishedEntry_current {W : Type} (this : API) (h : handler W)
  (collectionName slug : string) (w : W) (n : nat) :
  current (run h (deleteUnpublishedEntry this collectionName slug) w n) = n.
Proof.
  apply (calls_only_run any_request). apply deleteUnpublishedEntry_calls.
Qed.

(** C8.  [deleteUnpublishedEntry] settles and is never rejected with the
    message "Reference does not exist", whatever the collaborators answer.
    On the platform it resolves when the metadata of the entry is read and
    the pull request they record, if any, exists; and a call that resolves
    is followed by a second call that resolves too, though the branch is
    gone by then. *)
Theorem deleteUnpublishedEntry_idempotent (this : API)
  (collectionName slug : string) :
  (forall (W : Type) (h : handler W) (w : W) (n : nat),
      let r := run h (deleteUnpublishedEntry this collectionName slug) w n in
      ended r <> Pending
      /\ forall e, ended r = Rejected e ->
                   error_message e <> "Reference does not exist")
  /\ (forall (w : github) (n : nat) (metadata : metadata),
        let contentKey := generateContentKey this collectionName slug in
        ended (run platform (retrieveMetadata this contentKey) w n)
        = Resolved metadata ->
        (forall pr, m_pr metadata = Some pr ->
                    is_Some (gh_pulls w !! pr_number pr)) ->
        ended (run platform (deleteUnpublishedEntry this collectionName slug) w n)
        = Resolved tt)
  /\ (forall (w : github) (n : nat),
        let first := run platform (deleteUnpublishedEntry this collectionName slug)
                       w n in
        let second := run platform (deleteUnpublishedEntry this collectionName slug)
                        (world first) (current first) in
        ended first = Resolved tt -> ended second = Resolved tt).
Proof.
  split; [|split].
  - intros W h w n r. split.
    { apply (calls_only_settles any_request).
      apply deleteUnpublishedEntry_calls. }
    subst r. intros e. unfold deleteUnpublishedEntry. rewrite run_catch.
    match goal with
    | |- context [ended (run h ?p w n)] =>
        destruct (ended (run h p w n)) as [a|e'|] eqn:Hinner
    end.
    + rewrite Hinner. discriminate.
    + cbn [ended after].
      destruct (String.eqb (error_message e') "Reference does not exist") eqn:E.
      * discriminate.
      * cbn. intros [= <-]. apply String.eqb_neq. exact E.
    + rewrite Hinner. discriminate.
  - intros w n metadata contentKey Hread Hpull.
    pose proof (deleteUnpublishedEntry_platform this collectionName slug w n)
      as H. cbv zeta in H. fold contentKey in H.
    rewrite Hread in H. cbn [delete_outcome] in H.
    destruct (m_pr metadata) as [pr|] eqn:Hpr.
    + destruct (Hpull pr eq_refl) as [p Hp]. rewrite Hp in H.
      injection H as H _. exact H.
    + injection H as H _. exact H.
  - intros w n first second Hfirst.
    set (contentKey := generateContentKey this collectionName slug) in *.
    set (branchName := generateBranchName contentKey) in *.
    pose proof (deleteUnpublishedEntry_platform this collectionName slug w n)
      as H1.
    cbv zeta in H1. fold contentKey branchName first in H1.
    pose proof (deleteUnpublishedEntry_platform this collectionName slug
                  (world first) (current first)) as H2.
    cbv zeta in H2. fold contentKey branchName second in H2.
    assert (Hcurrent : current first = n)
      by apply deleteUnpublishedEntry_current.
    rewrite Hcurrent in H2. clearbody first second.
    destruct (ended (run platform (retrieveMetadata this contentKey) w n))
      as [metadata|e|] eqn:Hread; cbn [delete_outcome] in H1.
    + destruct (m_pr metadata) as [pr|] eqn:Hpr.
      * destruct (gh_pulls w !! pr_number pr) as [p|] eqn:Hpull.
        -- injection H1 as _ Hworld.
           rewrite (retrieveMetadata_same this contentKey w (world first) n) in H2.
           2:{ rewrite Hworld. apply same_metadata_deleted. }
           rewrite Hread in H2. cbn [delete_outcome] in H2. rewrite Hpr in H2.
           assert (Hstill : gh_pulls (world first) !! pr_number pr
                            = Some (with_state p "closed" (pull_merged_at p))).
           { rewrite Hworld. unfold deleted_branch.
             destruct (gh_refs _ !! _); cbn; apply lookup_insert_eq. }
           rewrite Hstill in H2. injection H2 as H2 _. exact H2.
        -- injection H1 as H1 _. congruence.
      * injection H1 as _ Hworld.
        rewrite (retrieveMetadata_same this contentKey w (world first) n) in H2.
        2:{ rewrite Hworld. apply same_metadata_deleted. exact (gh_pulls w). }
        rewrite Hread in H2. cbn [delete_outcome] in H2. rewrite Hpr in H2.
        injection H2 as H2 _. exact H2.
    + injection H1 as H1 Hworld. rewrite Hworld, Hread in H2.
      cbn [delete_outcome] in H2. injection H2 as H2 _. congruence.
    + injection H1 as H1 _. congruence.
Qed.

Lemma deleteUnpublishedEntry_idempotent_witness :
  let first := run platform (deleteUnpublishedEntry contributor "posts" "hello")
                 (platform_with_pull "open" None) 0 in
  let second := run platform (deleteUnpublishedEntry contributor "posts" "hello")
                  (world first) (current first) in
  ended first = Resolved tt
  /\ ended second = Resolved tt
  /\ In (DELETE_ref "/repos/owner/site" "heads" "cms/owner/site/posts/hello",
         Err (APIError "Reference does not exist" (Some 422))) (trace second).
Proof.
  intros first second.
  assert (Hfirst : ended first = Resolved tt) by (vm_compute; reflexivity).
  split; [exact Hfirst|]. split.
  - apply (proj2 (proj2 (deleteUnpublishedEntry_idempotent contributor
                           "posts" "hello"))
             (platform_with_pull "open" None) 0).
    exact Hfirst.
  - vm_compute. right. right. right. left. reflexivity.
Defined.

(** * Further properties *)

(** ** Branch names *)

Lemma append_cancel (a x y : string) : a +:+ x = a +:+ y -> x = y.
Proof.
  induction a as [|c a IH]; [trivial|].
  change (String c (a +:+ x) = String c (a +:+ y) -> x = y).
  intros [= H]. exact (IH H).
Qed.

(** A string is cut at its first [/] in one way only. *)
Lemma first_slash_unique (a b x y : string) :
  slash_free a = true -> slash_free b = true ->
  a +:+ "/" +:+ x = b +:+ "/" +:+ y -> a = b /\ x = y.
Proof.
  revert b. induction a as [|c a IH]; intros [|d b] Ha Hb.
  - change (String "/" x = String "/" y -> "" = "" /\ x = y).
    intros [= ->]. split; reflexivity.
  - change (String "/" x = String d (b +:+ "/" +:+ y) -> "" = String d b /\ x = y).
    intros [= <- _]. cbn in Hb. discriminate Hb.
  - change (String c (a +:+ "/" +:+ x) = String "/" y -> String c a = "" /\ x = y).
    intros [= -> _]. cbn in Ha. discriminate Ha.
  - change (String c (a +:+ "/" +:+ x) = String d (b +:+ "/" +:+ y)
            -> String c a = String d b /\ x = y).
    intros [= -> H].
    cbn in Ha, Hb. apply andb_true_iff in Ha as [_ Ha], Hb as [_ Hb].
    destruct (IH b Ha Hb H) as [-> ->]. split; reflexivity.
Qed.

(** X1.  In open authoring mode two entries of one instance share a branch
    only when they are the same entry: for collection names without [/],
    the branch name determines the collection and the slug. *)
Theorem generateBranchName_injective (this : API)
  (collection1 slug1 collection2 slug2 : string) :
  useOpenAuthoring this = true ->
  slash_free collection1 = true -> slash_free collection2 = true ->
  generateBranchName (generateContentKey this collection1 slug1)
  = generateBranchName (generateContentKey this collection2 slug2) ->
  collection1 = collection2 /\ slug1 = slug2.
Proof.
  intros HOA H1 H2. unfold generateBranchName, generateContentKey.
  rewrite HOA. change (negb true) with false. cbv iota.
  intros H. do 4 apply append_cancel in H.
  apply first_slash_unique; assumption.
Qed.

Lemma generateBranchName_injective_witness :
  "posts" = "posts" /\ "hello" = "hello".
Proof.
  apply (generateBranchName_injective contributor "posts" "hello" "posts" "hello");
    reflexivity.
Defined.

(** ** Forced updates *)

Lemma prefix_append (p s : string) : String.prefix p (p +:+ s) = true.
Proof.
  induction p as [|a p IH]; [destruct s; reflexivity|].
  change (String a p +:+ s) with (String a (p +:+ s)). cbn [String.prefix].
  destruct (ascii_dec a a); [exact IH|congruence].
Qed.

Lemma generateBranchName_cms (contentKey : string) :
  assertCmsBranch (generateBranchName contentKey) = true.
Proof.
  unfold assertCmsBranch, generateBranchName, startsWith.
  rewrite <- append_assoc. apply prefix_append.
Qed.

(** X2.  [patchBranch] forces only branches of the CMS: with [force] set, a
    branch whose name does not start with [cms/] is refused before any
    request is made, and the branch of a content key is never refused.
    Without [force] no branch is refused. *)
Theorem patchBranch_forces_cms_branches_only {W : Type} (this : API)
  (h : handler W) (w : W) (n : nat) (s : sha) :
  (forall branchName,
      assertCmsBranch branchName = false ->
      run h (patchBranch this branchName s true) w n
      = {| ended := Rejected (Error ("Only CMS branches can be force updated, "
                                     +:+ "cannot force update " +:+ branchName));
           world := w; current := n; trace := [] |})
  /\ (forall contentKey,
         patchBranch this (generateBranchName contentKey) s true
         = patchRef this "heads" (generateBranchName contentKey) s true)
  /\ (forall branchName,
         patchBranch this branchName s false
         = patchRef this "heads" branchName s false).
Proof.
  split; [|split].
  - intros branchName H. unfold patchBranch. rewrite H. reflexivity.
  - intros contentKey. unfold patchBranch.
    rewrite generateBranchName_cms. reflexivity.
  - intros branchName. reflexivity.
Qed.

Lemma patchBranch_forces_cms_branches_only_witness :
  run platform (patchBranch maintainer "master" (Sha "c1") true) empty_platform 0
  = {| ended := Rejected (Error ("Only CMS branches can be force updated, "
                                 +:+ "cannot force update " +:+ "master"));
       world := empty_platform; current := 0; trace := [] |}.
Proof.
  apply (proj1 (patchBranch_forces_cms_branches_only maintainer platform
                  empty_platform 0 (Sha "c1"))).
  reflexivity.
Defined.

(** ** Reading the metadata *)

Lemma retrieveMetadata_fresh {W : Type} (this : API) (h : handler W)
  (w w1 w2 : W) (n : nat) (key : string) (c : cached) (now : N) :
  h (getItem ("gh.meta." +:+ key)) w = (Ok (RCached (Some c)), w1) ->
  h Date_now w1 = (Ok (RTime now), w2) ->
  (now < expires c)%N ->
  run h (retrieveMetadata this key) w n
  = {| ended := Resolved (cached_data c); world := w2; current := n;
       trace := [(getItem ("gh.meta." +:+ key), Ok (RCached (Some c)));
                 (Date_now, Ok (RTime now))] |}.
Proof.
  intros Hcache Hnow Hfresh. unfold retrieveMetadata.
  rewrite run_bind, run_request, Hcache. cbn [fst snd ended world current trace after].
  rewrite run_bind, run_bind, run_request, Hnow.
  cbn [fst snd ended world current trace after run].
  apply N.ltb_lt in Hfresh. rewrite Hfresh. reflexivity.
Qed.

(** X3.  [retrieveMetadata] answers from the local cache while the cached
    entry has not expired: the platform is not asked.  An entry that has
    expired (the clock has reached [expires]) is not used: the metadata file
    is requested. *)
Theorem retrieveMetadata_cached {W : Type} (this : API) (h : handler W)
  (w w1 w2 : W) (n : nat) (key : string) (c : cached) (now : N) :
  let cache := getItem ("gh.meta." +:+ key) in
  let r := run h (retrieveMetadata this key) w n in
  h cache w = (Ok (RCached (Some c)), w1) ->
  h Date_now w1 = (Ok (RTime now), w2) ->
  ((now < expires c)%N ->
   r = {| ended := Resolved (cached_data c); world := w2; current := n;
          trace := [(cache, Ok (RCached (Some c))); (Date_now, Ok (RTime now))] |})
  /\ ((expires c <= now)%N ->
      exists url x,
        nth_error (trace r) 2
        = Some (GET_contents url (key +:+ ".json") "refs/meta/_netlify_cms", x)).
Proof.
  intros cache r Hcache Hnow. subst r. unfold retrieveMetadata. fold cache.
  rewrite run_bind, run_request, Hcache. cbn [fst snd ended world current trace after].
  rewrite run_bind, run_bind, run_request, Hnow.
  cbn [fst snd ended world current trace after run].
  split.
  - intros Hfresh. apply N.ltb_lt in Hfresh. rewrite Hfresh. reflexivity.
  - intros Hstale. apply N.ltb_ge in Hstale. rewrite Hstale.
    cbn [ended world current trace after run].
    match goal with
    | |- context [GET_contents ?u ?p ?r] =>
        exists u, (fst (h (GET_contents u p r) w2))
    end.
    rewrite run_bind, run_request. cbn [trace ended].
    destruct (fst (h _ w2)) as [v|e]; cbn [ended trace after app nth_error];
      reflexivity.
Qed.

Lemma retrieveMetadata_cached_witness :
  let stored := world (run platform (storeMetadata maintainer "hello" hello_metadata)
                         empty_platform 0) in
  run platform (retrieveMetadata maintainer "hello") stored 0
  = {| ended := Resolved hello_metadata; world := stored; current := 0;
       trace := [(getItem "gh.meta.hello",
                  Ok (RCached (Some {| expires := 300000;
                                       cached_data := hello_metadata |})));
                 (Date_now, Ok (RTime 0))] |}.
Proof.
  intros stored.
  apply (proj1 (retrieveMetadata_cached maintainer platform stored stored stored 0
                  "hello" {| expires := 300000; cached_data := hello_metadata |} 0%N
                  ltac:(vm_compute; reflexivity) ltac:(vm_compute; reflexivity))).
  reflexivity.
Defined.

(** X4.  The metadata of an entry is read from the repository of the
    instance, in open authoring mode too, where the repository is taken
    from the first two segments of the content key: with nothing in the
    cache, the one request to the platform is for [<key>.json] on the
    metadata ref of [repoURL]. *)
Theorem retrieveMetadata_reads_own_repository {W : Type} (this : API)
  (h : handler W) (w w1 w2 : W) (n : nat) (owner name collectionName slug : string)
  (x : result resp) :
  let key := generateContentKey this collectionName slug in
  let cache := getItem ("gh.meta." +:+ key) in
  let contents := GET_contents (repoURL this) (key +:+ ".json") "refs/meta/_netlify_cms" in
  repo this = owner +:+ "/" +:+ name ->
  slash_free owner = true -> slash_free name = true ->
  h cache w = (Ok (RCached None), w1) ->
  h contents w1 = (x, w2) ->
  trace (run h (retrieveMetadata this key) w n)
  = [(cache, Ok (RCached None)); (contents, x)]
  /\ forall data, x = Ok (RText (Json data)) ->
                  ended (run h (retrieveMetadata this key) w n) = Resolved data.
Proof.
  intros key cache contents Hrepo Howner Hname Hcache Hfile.
  assert (Hurl : (if negb (useOpenAuthoring this) then repoURL this
                  else "/repos/" +:+ interpolate (nth_error (split "/" key) 0) +:+ "/"
                       +:+ interpolate (nth_error (split "/" key) 1))
                 = repoURL this).
  { destruct (useOpenAuthoring this) eqn:HOA; [|reflexivity]. cbn [negb].
    unfold key, generateContentKey. rewrite HOA. cbn [negb].
    rewrite Hrepo, !append_assoc.
    rewrite (split_segment owner _ Howner), (split_segment name _ Hname).
    unfold repoURL. rewrite Hrepo. reflexivity. }
  unfold retrieveMetadata. fold cache.
  rewrite run_bind, run_request, Hcache. cbn [fst snd ended world current trace after].
  rewrite run_bind. cbn [run ended world current trace after].
  cbv zeta. rewrite Hurl. fold contents.
  rewrite run_bind, run_request, Hfile. cbn [fst snd ended world current trace after].
  split.
  - destruct x as [v|e]; [|reflexivity].
    destruct v; try reflexivity. destruct raw; reflexivity.
  - intros data ->. reflexivity.
Qed.

Lemma retrieveMetadata_reads_own_repository_witness :
  trace (run platform
           (retrieveMetadata contributor (generateContentKey contributor "posts" "hello"))
           empty_platform 0)
  = [(getItem "gh.meta.owner/site/posts/hello", Ok (RCached None));
     (GET_contents "/repos/owner/site" "owner/site/posts/hello.json"
        "refs/meta/_netlify_cms", Err not_found)].
Proof.
  apply (proj1 (retrieveMetadata_reads_own_repository contributor platform
                  empty_platform empty_platform empty_platform 0
                  "owner" "site" "posts" "hello" (Err not_found)
                  eq_refl eq_refl eq_refl eq_refl eq_refl)).
Defined.

(** ** The head of a pull request *)

Lemma last_of_snoc {A : Type} (xs : list A) (x : A) : last_of (xs ++ [x]) = Some x.
Proof.
  unfold last_of. rewrite map_app. apply last_last.
Qed.

(** X5.  The list [assertHead] returns always ends in the head it was
    given: it is the list of commits, with the head appended if it was not
    its last commit. *)
Theorem assertHead_ends_in_head (commits finalCommits : list commit)
  (headToAssert : commit) :
  assertHead commits headToAssert = Ok finalCommits ->
  (finalCommits = commits \/ finalCommits = (commits ++ [headToAssert])%list)
  /\ exists lastCommit,
       last_of finalCommits = Some lastCommit
       /\ commit_sha lastCommit = commit_sha headToAssert.
Proof.
  unfold assertHead.
  destruct (commit_parents headToAssert) as [[|parent others]|]; try discriminate.
  destruct (last_of commits) as [lastCommit|] eqn:Hlast; try discriminate.
  destruct (sha_eqb parent (commit_sha lastCommit)).
  - intros [= <-]. split; [right; reflexivity|].
    exists headToAssert. split; [apply last_of_snoc|reflexivity].
  - destruct (sha_eqb (commit_sha headToAssert) (commit_sha lastCommit)) eqn:E;
      try discriminate.
    intros [= <-]. split; [left; reflexivity|].
    exists lastCommit. split; [exact Hlast|].
    symmetry. apply sha_eqb_eq. exact E.
Qed.

Lemma assertHead_ends_in_head_witness :
  ([root_head; child_head] = [root_head]
   \/ [root_head; child_head] = ([root_head] ++ [child_head])%list)
  /\ exists lastCommit,
       last_of [root_head; child_head] = Some lastCommit
       /\ commit_sha lastCommit = commit_sha child_head.
Proof.
  apply (assertHead_ends_in_head [root_head] [root_head; child_head] child_head).
  reflexivity.
Defined.

(** ** Merging *)

Lemma not_405 {A : Type} (status : nat) (a b : A) :
  status <> 405 -> match status with 405 => a | _ => b end = b.
Proof.
  intros H.
  do 405 (destruct status as [|status]; [reflexivity|]).
  destruct status; [congruence|reflexivity].
Qed.

(** X6.  [mergePR] forces a merge on status 405 only: when the platform
    merges the pull request, and when it refuses with any other error, the
    merge request is the only request made, and the error is passed on. *)
Theorem mergePR_forces_on_405_only {W : Type} (this : API) (h : handler W)
  (w w1 : W) (n : nat) (pullrequest : pr_metadata) (objects : objects)
  (x : result resp) :
  let merge_request :=
    PUT_pull_merge (originRepoURL this) (pr_number pullrequest)
      "Automatically generated. Merged on Netlify CMS."
      (pr_head pullrequest) (merge_method this) in
  h merge_request w = (x, w1) ->
  (forall msg, x <> Err (APIError msg (Some 405))) ->
  run h (mergePR this pullrequest objects) w n
  = {| ended := match x with Ok v => Resolved v | Err e => Rejected e end;
       world := w1; current := n; trace := [(merge_request, x)] |}.
Proof.
  intros merge_request Hmerge Hother.
  unfold mergePR, request. cbn [catch run]. fold merge_request. rewrite Hmerge.
  destruct x as [v|e]; [reflexivity|].
  destruct e as [msg [status|]|msg]; try reflexivity.
  cbn [traced run catch]. rewrite not_405; [reflexivity|].
  intros ->. exact (Hother msg eq_refl).
Qed.

Lemma mergePR_forces_on_405_only_witness :
  run platform
    (mergePR maintainer {| pr_number := 7; pr_head := Some (Sha "h1") |}
       (m_objects hello_metadata)) empty_platform 0
  = {| ended := Rejected not_found; world := empty_platform; current := 0;
       trace := [(PUT_pull_merge "/repos/origin/site" 7
                    "Automatically generated. Merged on Netlify CMS."
                    (Some (Sha "h1")) "merge", Err not_found)] |}.
Proof.
  apply (mergePR_forces_on_405_only maintainer platform empty_platform empty_platform
           0 {| pr_number := 7; pr_head := Some (Sha "h1") |} (m_objects hello_metadata)
           (Err not_found) eq_refl).
  intros msg H. discriminate H.
Defined.

(** ** Publishing *)

(** X7.  [publishUnpublishedEntry] deletes the branch of the entry only
    after the merge has resolved.  With no pull request recorded in the
    metadata it is rejected after reading them; when the merge is rejected
    it is rejected with the same error, and no request follows the merge;
    when the merge resolves, one request follows: the deletion of the
    branch. *)
Theorem publishUnpublishedEntry_deletes_after_merge {W : Type} (this : API)
  (h : handler W) (w : W) (n : nat) (collectionName slug : string)
  (metadata : metadata) :
  let contentKey := generateContentKey this collectionName slug in
  let read := run h (retrieveMetadata this contentKey) w n in
  let r := run h (publishUnpublishedEntry this collectionName slug) w n in
  ended read = Resolved metadata ->
  (m_pr metadata = None ->
   ended r = Rejected TypeError /\ trace r = trace read)
  /\ (forall pr,
         m_pr metadata = Some pr ->
         let merge := run h (mergePR this pr (m_objects metadata))
                        (world read) (current read) in
         (forall e, ended merge = Rejected e ->
                    ended r = Rejected e
                    /\ trace r = (trace read ++ trace merge)%list)
         /\ (forall v, ended merge = Resolved v ->
                       exists x,
                         trace r
                         = (trace read ++ trace merge
                            ++ [(DELETE_ref (repoURL this) "heads"
                                   (generateBranchName contentKey), x)])%list
                         /\ ended r
                            = match x with Ok v' => Resolved v' | Err e => Rejected e end)).
Proof.
  intros contentKey read r Hread. subst r. unfold publishUnpublishedEntry.
  fold contentKey. rewrite run_bind. fold read. rewrite Hread.
  split.
  - intros Hpr. rewrite Hpr. rewrite run_bind. cbn [run ended trace after ending].
    rewrite app_nil_r. split; reflexivity.
  - intros pr Hpr. cbv zeta. rewrite Hpr. rewrite run_bind.
    set (merge := run h (mergePR this pr (m_objects metadata)) (world read)
                    (current read)).
    split.
    + intros e He. rewrite He. cbn [ending after ended trace]. split; reflexivity.
    + intros v Hv. rewrite Hv. unfold deleteBranch, deleteRef.
      rewrite run_request. cbn [after ended trace].
      eexists. split; reflexivity.
Qed.

Lemma publishUnpublishedEntry_deletes_after_merge_witness :
  let r := run platform (publishUnpublishedEntry contributor "posts" "hello")
             (platform_with_pull "open" None) 0 in
  ended r = Rejected not_found
  /\ trace r
     = (trace (run platform
                 (retrieveMetadata contributor "owner/site/posts/hello")
                 (platform_with_pull "open" None) 0)
        ++ trace (run platform
                    (mergePR contributor {| pr_number := 7; pr_head := Some (Sha "h1") |}
                       (m_objects hello_metadata))
                    (platform_with_pull "open" None) 0))%list.
Proof.
  apply (proj1 (proj2 (publishUnpublishedEntry_deletes_after_merge contributor
                         platform (platform_with_pull "open" None) 0 "posts" "hello"
                         hello_metadata ltac:(vm_compute; reflexivity))
                  {| pr_number := 7; pr_head := Some (Sha "h1") |} eq_refl)).
  vm_compute. reflexivity.
Defined.

(** ** What storing metadata touches *)

Lemma asks_bind {A B : Type} (P : req -> Prop) (p : prog A) (f : A -> prog B) :
  asks P p -> (forall a, asks P (f a)) -> asks P (bind p f).
Proof.
  intros Hp Hf. induction Hp as [a|e|r k Hr Hk IH|k Hk IH|k Hk IH]; simpl.
  - apply Hf.
  - constructor.
  - constructor; [exact Hr|exact IH].
  - constructor. exact IH.
  - constructor. exact IH.
Qed.

Lemma asks_catch {A : Type} (P : req -> Prop) (p : prog A)
  (handle : error -> prog A) :
  asks P p -> (forall e, asks P (handle e)) -> asks P (catch p handle).
Proof.
  intros Hp Hh. induction Hp as [a|e|r k Hr Hk IH|k Hk IH|k Hk IH]; simpl.
  - constructor.
  - apply Hh.
  - constructor; [exact Hr|exact IH].
  - constructor. exact IH.
  - constructor. exact IH.
Qed.

Lemma asks_request (P : req -> Prop) (r : req) : P r -> asks P (request r).
Proof. intros Hr. constructor; [exact Hr|]. intros [v|e]; constructor. Qed.

Lemma calls_only_asks {A : Type} (P Q : req -> Prop) (p : prog A) :
  (forall r, P r -> Q r) -> calls_only P p -> asks Q p.
Proof.
  intros HPQ Hp. induction Hp as [a|e|r k Hr Hk IH]; constructor; auto.
Qed.

Lemma asks_run {W A : Type} (P : req -> Prop) (h : handler W) (p : prog A)
  (w : W) (n : nat) :
  asks P p -> Forall (fun ev => P (fst ev)) (trace (run h p w n)).
Proof.
  intros Hp. revert w n.
  induction Hp as [a|e|r k Hr Hk IH|k Hk IH|k Hk IH]; intros w n; simpl.
  - constructor.
  - constructor.
  - destruct (h r w) as [x w']. constructor; [exact Hr|apply IH].
  - destruct (Nat.ltb 1 (n + 1)); [constructor|apply IH].
  - destruct n; apply IH.
Qed.

Ltac asks :=
  repeat (intros;
          first [ apply asks_ret
                | apply asks_throw
                | apply asks_request; cbn; repeat split; reflexivity
                | apply asks_bind
                | apply asks_catch
                | match goal with
                  | |- asks _ (match ?x with _ => _ end) => destruct x
                  end ]).

(** [updateTree] reads and writes trees of the repository, and asks for
    nothing else. *)
Lemma updateTree_tree_requests (this : API) (fileTree : FileTree) :
  forall s path, calls_only (tree_request this) (updateTree this s path fileTree).
Proof.
  set (P := tree_request this).
  assert (Hget : forall s, calls_only P (getTree this s)).
  { intros [s|]; unfold getTree; [|constructor].
    apply calls_only_bind; [apply calls_only_request; reflexivity|].
    intros []; constructor. }
  assert (Hcreate : forall base tree, calls_only P (createTree this base tree)).
  { intros base tree. apply calls_only_bind; [apply calls_only_request; reflexivity|].
    intros []; constructor. }
  induction fileTree as [f|children IH] using FileTree_induction;
    intros s path; [constructor|].
  cbn -[bind getTree createTree all].
  apply calls_only_bind; [apply Hget|]. intros tree.
  apply calls_only_bind.
  - apply all_calls_only. apply Forall_app. split.
    + apply Forall_flat_map. apply Forall_forall. intros obj _.
      induction IH as [|[k sub] cs Hsub Hcs IHcs]; [constructor|].
      destruct (String.eqb k (entry_path obj)); [|exact IHcs].
      constructor; [|constructor].
      destruct sub as [f|grand]; [constructor|].
      apply calls_only_bind; [apply Hsub|]. intros c. constructor.
    + induction IH as [|[k sub] cs Hsub Hcs IHcs]; [constructor|].
      destruct (existsb _ tree); [exact IHcs|].
      constructor; [|exact IHcs].
      destruct sub as [f|grand]; [constructor|].
      apply calls_only_bind; [apply Hsub|]. intros c. constructor.
  - intros updates. apply calls_only_bind; [apply Hcreate|].
    intros response. constructor.
Qed.

Lemma storeMetadata_asks (this : API) (key : string) (data : metadata) :
  asks (writes_metadata this key) (storeMetadata this key data).
Proof.
  unfold storeMetadata. constructor.
  apply asks_catch; [|intros; constructor].
  apply asks_bind.
  { unfold checkMetadataRef, uploadBlob, createTree, commit_, createCommit,
      createRef. asks. }
  intros branchData. apply asks_bind.
  { unfold uploadBlob. asks. }
  intros item. apply asks_bind.
  { eapply calls_only_asks; [|apply updateTree_tree_requests].
    intros []; cbn; tauto. }
  intros changeTree. apply asks_bind.
  { unfold commit_, createCommit. asks. }
  intros response. apply asks_bind.
  { unfold patchRef. asks. }
  intros _. apply asks_bind; [asks|].
  intros []; try apply asks_throw.
  apply asks_bind.
  { unfold detached. asks. }
  intros _. constructor. intros [|]; constructor.
Qed.

(** X8.  [storeMetadata] writes to the metadata ref of the instance's
    repository and to nothing else: its requests are for objects of the
    repository, for the ref [refs/meta/_netlify_cms] (read, created, or
    updated without force), for the clock and for the cache entry of the
    key.  No branch, pull request or other cache entry is touched, and the
    ref is never forced. *)
Theorem storeMetadata_touches_metadata_only {W : Type} (this : API) (h : handler W)
  (w : W) (n : nat) (key : string) (data : metadata) :
  Forall (fun ev => writes_metadata this key (fst ev))
    (trace (run h (storeMetadata this key data) w n)).
Proof. apply asks_run, storeMetadata_asks. Qed.

(** ** What deleting an entry leaves alone *)

(** X9.  [deleteUnpublishedEntry] changes nothing but the entry's pull
    request and branch: every request it makes is a read, the closing of a
    pull request or the deletion of the branch of the entry.  The metadata
    of the entry and the local cache are not written, and no other ref is
    touched. *)
Theorem deleteUnpublishedEntry_touches_own_branch_only {W : Type} (this : API)
  (h : handler W) (w : W) (n : nat) (collectionName slug : string) :
  let branchName := generateBranchName (generateContentKey this collectionName slug) in
  Forall (fun ev => deletes_entry this branchName (fst ev))
    (trace (run h (deleteUnpublishedEntry this collectionName slug) w n)).
Proof.
  intros branchName.
  apply (calls_only_run (deletes_entry this branchName)).
  unfold deleteUnpublishedEntry. apply calls_only_catch.
  - apply calls_only_bind.
    + generalize (retrieveMetadata_reads this
                    (generateContentKey this collectionName slug)).
      generalize (retrieveMetadata this (generateContentKey this collectionName slug)).
      intros p Hp. induction Hp as [a|e|r k Hr _ IH]; constructor.
      * left. exact Hr.
      * exact IH.
    + intros metadata. apply calls_only_bind.
      * destruct (m_pr metadata) as [pr|]; [|constructor].
        apply calls_only_bind; [|intros; constructor].
        apply calls_only_request. right. left. eexists. reflexivity.
      * intros _. apply calls_only_bind; [|intros; constructor].
        apply calls_only_request. right. right. reflexivity.
  - intros e. destruct (String.eqb _ _); constructor.
Qed.

(** ** The forced merge and the base branch *)

Lemma updateTree_resolved {W : Type} (this : API) (h : handler W) (w : W) (n : nat)
  (s : option sha) (path : string) (fileTree : FileTree) (c : changeTree) :
  ended (run h (updateTree this s path fileTree) w n) = Resolved c ->
  ct_parentSha c = s /\ ct_path c = path.
Proof.
  destruct fileTree as [f|children]; [discriminate|].
  cbn -[bind getTree createTree all].
  intros H.
  apply run_bind_resolved in H as (tree & _ & H & _).
  apply run_bind_resolved in H as (updates & _ & H & _).
  apply run_bind_resolved in H as (response & _ & H & _).
  cbn in H. injection H as <-. split; reflexivity.
Qed.

(** X10.  A forced merge does not overwrite the base branch.  When it
    resolves, its requests are: the read of the base branch, reads and
    writes of trees, the creation of one commit whose one parent is the
    head of the branch as it was read, and one update of the branch to that
    commit, which is not forced. *)
Theorem forceMergePR_builds_on_branch_head {W : Type} (this : API) (h : handler W)
  (w : W) (n : nat) (pullrequest : pr_metadata) (objects : objects)
  (response : resp) :
  let r := run h (forceMergePR this pullrequest objects) w n in
  ended r = Resolved response ->
  exists branchData changeTree created trees,
    trace r
    = ((GET_branch (repoURL this) (branch this), Ok (RBranch branchData))
       :: trees
       ++ [(POST_commits (repoURL this)
              (forceMergeMessage
                 (map file_of_object (o_files objects ++ [o_entry objects])%list))
              (ct_sha changeTree) [commit_sha branchData] None None,
            Ok (RCommit created));
           (PATCH_ref (repoURL this) "heads" (branch this) (commit_sha created) false,
            Ok response)])%list
    /\ Forall (fun ev => tree_request this (fst ev)) trees.
Proof.
  intros r Hended. subst r. unfold forceMergePR in *. cbv zeta in *.
  set (files := map file_of_object (o_files objects ++ [o_entry objects])%list) in *.
  apply run_bind_resolved in Hended as (branchData & Hbranch & Hended & Hrun0).
  rewrite Hrun0. clear Hrun0.
  unfold getBranch in Hbranch, Hended |- *.
  apply run_bind_resolved in Hbranch as (v & Hv & Hk & Hrun).
  apply run_request_resolved in Hv. rewrite Hv in Hk, Hrun.
  cbn [world current trace after] in Hk, Hrun.
  destruct v; try discriminate Hk. cbn in Hk. injection Hk as ->.
  cbn [run after trace app ended world current] in Hrun. rewrite Hrun in *.
  cbn [world current trace] in *.
  apply run_bind_resolved in Hended as (changeTree & Htree & Hended & ->).
  destruct (updateTree_resolved _ _ _ _ _ _ _ _ Htree) as [Hparent _].
  destruct (calls_only_run (tree_request this) h
              (updateTree this (Some (commit_sha branchData)) "/"
                 (composeFileTree files))
              (snd (h (GET_branch (repoURL this) (branch this)) w)) n
              (updateTree_tree_requests this _ _ _)) as [Htrees _].
  set (r2 := run h (updateTree this _ _ _) _ _) in *. clearbody r2.
  apply run_bind_resolved in Hended as (created & Hcommit & Hpatch & ->).
  apply createCommit_resolved in Hcommit.
  set (r3 := run h (commit_ this _ _) _ _) in *.
  change (run h (createCommit this _ _ _ _ _) _ _) with r3 in Hcommit.
  clearbody r3. subst r3. rewrite Hparent in Hpatch |- *.
  cbn [world current trace] in *.
  unfold patchBranch, patchRef in Hpatch |- *. cbn [andb] in Hpatch |- *.
  apply run_request_resolved in Hpatch. rewrite Hpatch.
  exists branchData, changeTree, created, (trace r2).
  unfold after. cbn [trace app]. split; [reflexivity|exact Htrees].
Qed.

Lemma forceMergePR_builds_on_branch_head_witness :
  let r := run platform
             (forceMergePR maintainer {| pr_number := 7; pr_head := Some (Sha "h1") |}
                (m_objects hello_metadata)) unmergeable_platform 0 in
  exists branchData changeTree created trees,
    trace r
    = ((GET_branch (repoURL maintainer) (branch maintainer), Ok (RBranch branchData))
       :: trees
       ++ [(POST_commits (repoURL maintainer)
              (forceMergeMessage
                 (map file_of_object
                    (o_files (m_objects hello_metadata)
                     ++ [o_entry (m_objects hello_metadata)])%list))
              (ct_sha changeTree) [commit_sha branchData] None None,
            Ok (RCommit created));
           (PATCH_ref (repoURL maintainer) "heads" (branch maintainer)
              (commit_sha created) false,
            Ok (RRef (Sha "commit")))])%list
    /\ Forall (fun ev => tree_request maintainer (fst ev)) trees.
Proof.
  apply (forceMergePR_builds_on_branch_head maintainer platform unmergeable_platform 0
           {| pr_number := 7; pr_head := Some (Sha "h1") |} (m_objects hello_metadata)
           (RRef (Sha "commit"))).
  vm_compute. reflexivity.
Defined.

(** ** Metadata in line with the pull request *)

Lemma with_status_same (m : metadata) : with_status m (m_status m) = m.
Proof. destruct m; reflexivity. Qed.

Lemma run_detached {W A : Type} (h : handler W) (p : prog A) (w : W) (n : nat) :
  ended (run h p w n) <> Pending ->
  ended (run h (detached p) w n) = Resolved tt.
Proof.
  intros H. unfold detached. rewrite run_catch, run_bind.
  destruct (ended (run h p w n)) as [a|e|]; [reflexivity|reflexivity|congruence].
Qed.

(** X11.  With a pull request recorded, the status that
    [getUpdatedOpenAuthoringMetadata] returns follows the pull request: a
    merged one gives no metadata at all, a closed one the status [draft],
    any other one the status [pending_review], and nothing else of the
    metadata is changed.  Metadata that have this status already are
    returned after the one read of the pull request, with no write. *)
Theorem getUpdatedOpenAuthoringMetadata_follows_pull {W : Type} (this : API)
  (h : handler W) (w w1 : W) (n : nat) (contentKey : string)
  (metadata : metadata) (prMetadata : pr_metadata) (pull : pull_request) :
  let get_pull := GET_pull (originRepoURL this) (pr_number prMetadata) in
  let r := run h (getUpdatedOpenAuthoringMetadata this contentKey (Some metadata)) w n in
  let expected :=
    if String.eqb (pull_state pull) "closed" then "draft" else "pending_review" in
  m_pr metadata = Some prMetadata ->
  h get_pull w = (Ok (RPull pull), w1) ->
  (pull_state pull = "closed" -> pull_merged_at pull <> None ->
   ended r = Resolved None)
  /\ (~ (pull_state pull = "closed" /\ pull_merged_at pull <> None) ->
      forall updated, ended r = Resolved updated ->
                      updated = Some (with_status metadata expected))
  /\ (~ (pull_state pull = "closed" /\ pull_merged_at pull <> None) ->
      m_status metadata = expected ->
      r = {| ended := Resolved (Some metadata); world := w1; current := n;
             trace := [(get_pull, Ok (RPull pull))] |}).
Proof.
  intros get_pull r expected Hpr Hpull. subst r.
  unfold getUpdatedOpenAuthoringMetadata.
  rewrite run_bind. cbn [run ended world current trace after].
  rewrite Hpr. unfold getPullRequest. fold get_pull.
  rewrite !run_bind, run_request, Hpull.
  cbn [fst snd ended world current trace after run].
  subst expected.
  destruct (String.eqb (pull_state pull) "closed") eqn:Hclosed.
  - destruct (pull_merged_at pull) as [mergedAt|] eqn:Hmerged; cbn [truthy andb].
    + split; [|split].
      * intros _ _. rewrite run_bind.
        rewrite run_detached; [reflexivity|].
        apply (calls_only_settles any_request), deleteUnpublishedEntry_calls.
      * intros H. exfalso. apply H. split; [|discriminate].
        apply String.eqb_eq. exact Hclosed.
      * intros H. exfalso. apply H. split; [|discriminate].
        apply String.eqb_eq. exact Hclosed.
    + split; [intros _ H; congruence|]. split.
      * intros _ updated.
        destruct (String.eqb (m_status metadata) "draft") eqn:Hstatus; cbn [negb].
        -- apply String.eqb_eq in Hstatus. cbn [run ended after].
           intros [= <-]. rewrite <- Hstatus, with_status_same. reflexivity.
        -- rewrite run_bind.
           destruct (ended (run h (storeMetadata this contentKey _) w1 n));
             cbn [after ending ended run]; congruence.
      * intros _ Hstatus. rewrite Hstatus. reflexivity.
  - cbn [andb]. split; [|split].
    + intros H. apply String.eqb_eq in H. congruence.
    + intros _ updated.
      destruct (String.eqb (m_status metadata) "pending_review") eqn:Hstatus;
        cbn [negb].
      * apply String.eqb_eq in Hstatus. cbn [run ended after].
        intros [= <-]. rewrite <- Hstatus, with_status_same. reflexivity.
      * rewrite run_bind.
        destruct (ended (run h (storeMetadata this contentKey _) w1 n));
          cbn [after ending ended run]; congruence.
    + intros _ Hstatus. rewrite Hstatus. reflexivity.
Qed.

Lemma getUpdatedOpenAuthoringMetadata_follows_pull_witness :
  run platform
    (getUpdatedOpenAuthoringMetadata contributor "owner/site/posts/hello"
       (Some hello_metadata)) (platform_with_pull "open" None) 0
  = {| ended := Resolved (Some hello_metadata);
       world := platform_with_pull "open" None; current := 0;
       trace := [(GET_pull "/repos/origin/site" 7, Ok (RPull (pull_7 "open" None)))] |}.
Proof.
  apply (proj2 (proj2 (getUpdatedOpenAuthoringMetadata_follows_pull contributor
                         platform (platform_with_pull "open" None)
                         (platform_with_pull "open" None) 0 "owner/site/posts/hello"
                         hello_metadata {| pr_number := 7; pr_head := Some (Sha "h1") |}
                         (pull_7 "open" None) eq_refl eq_refl))).
  - intros [H _]. discriminate H.
  - reflexivity.
Defined.



(** ** Status changes in open authoring mode *)

(** X13.  In open authoring mode a status change that the pull request
    allows acts on the pull request first: an open one is closed for
    [draft], a closed one reopened for [pending_review].  When the platform
    refuses, the call is rejected with its error and the metadata are not
    written; when it accepts, what follows is the call of [storeMetadata]
    with the new status. *)
Theorem updateUnpublishedEntryStatus_changes_pull_first {W : Type} (this : API)
  (h : handler W) (w w1 w2 : W) (n : nat) (collectionName slug status : string)
  (metadata : metadata) (prMetadata : pr_metadata) (pull : pull_request)
  (x : result resp) :
  let contentKey := generateContentKey this collectionName slug in
  let read := run h (retrieveMetadata this contentKey) w n in
  let get_pull := GET_pull (originRepoURL this) (pr_number prMetadata) in
  let change :=
    PATCH_pull (originRepoURL this) (pr_number prMetadata)
      (if String.eqb status "draft" then "closed" else "open") in
  let r := run h (updateUnpublishedEntryStatus this collectionName slug status) w n in
  useOpenAuthoring this = true ->
  ended read = Resolved metadata ->
  m_pr metadata = Some prMetadata ->
  h get_pull (world read) = (Ok (RPull pull), w1) ->
  (pull_state pull = "open" /\ status = "draft")
  \/ (pull_state pull = "closed" /\ status = "pending_review") ->
  h change w1 = (x, w2) ->
  r = after (trace read ++ [(get_pull, Ok (RPull pull)); (change, x)])
        match x with
        | Ok _ => run h (storeMetadata this contentKey (with_status metadata status))
                    w2 (current read)
        | Err e => {| ended := Rejected e; world := w2; current := current read;
                      trace := [] |}
        end.
Proof.
  intros contentKey read get_pull change r HOA Hread Hpr Hpull Hcase Hchange.
  subst r. unfold updateUnpublishedEntryStatus. fold contentKey.
  rewrite run_bind. fold read. rewrite Hread.
  rewrite HOA. cbn [negb].
  assert (Hstatus : String.eqb status "pending_publish" = false).
  { destruct Hcase as [[_ ->]|[_ ->]]; reflexivity. }
  rewrite Hstatus, Hpr. unfold getPullRequest. fold get_pull.
  rewrite !run_bind, run_request, Hpull.
  cbn [fst snd ended world current trace after run].
  destruct Hcase as [[Hstate ->]|[Hstate ->]]; rewrite Hstate;
    cbv beta iota delta [andb String.eqb Ascii.eqb Bool.eqb] in change, Hchange |- *.
  - unfold closePR.
    rewrite run_bind, run_request. fold change. rewrite Hchange.
    cbn [fst snd ended world current trace after ending].
    destruct x as [v|e]; unfold after; cbn [ended world current trace app];
      rewrite <- ?app_assoc; reflexivity.
  - unfold openPR.
    rewrite run_bind, run_request. fold change. rewrite Hchange.
    cbn [fst snd ended world current trace after ending].
    destruct x as [v|e]; unfold after; cbn [ended world current trace app];
      rewrite <- ?app_assoc; reflexivity.
Qed.

Lemma updateUnpublishedEntryStatus_changes_pull_first_witness :
  let r := run platform
             (updateUnpublishedEntryStatus contributor "posts" "hello" "draft")
             (platform_with_pull "open" None) 0 in
  exists w2,
    r = after (trace (run platform
                        (retrieveMetadata contributor "owner/site/posts/hello")
                        (platform_with_pull "open" None) 0)
               ++ [(GET_pull "/repos/origin/site" 7, Ok (RPull (pull_7 "open" None)));
                   (PATCH_pull "/repos/origin/site" 7 "closed",
                    Ok (RPull (pull_7 "closed" None)))])
          (run platform
             (storeMetadata contributor "owner/site/posts/hello"
                (with_status hello_metadata "draft")) w2 0).
Proof.
  eexists.
  apply (updateUnpublishedEntryStatus_changes_pull_first contributor platform
           (platform_with_pull "open" None) (platform_with_pull "open" None) _ 0
           "posts" "hello" "draft" hello_metadata
           {| pr_number := 7; pr_head := Some (Sha "h1") |} (pull_7 "open" None)
           (Ok (RPull (pull_7 "closed" None)))
           eq_refl ltac:(vm_compute; reflexivity) eq_refl
           ltac:(vm_compute; reflexivity) (or_introl (conj eq_refl eq_refl))).
  vm_compute. reflexivity.
Defined.

Lemma run_catch_resolved {W A : Type} (h : handler W) (p : prog A) (w : W) (n : nat)
  (a : A) :
  ended (run h (catch p (fun err => Throw err)) w n) = Resolved a ->
  run h (catch p (fun err => Throw err)) w n = run h p w n.
Proof.
  rewrite run_catch. destruct (ended (run h p w n)) as [x|e|] eqn:E;
    [reflexivity|discriminate|reflexivity].
Qed.

(** The last steps of [storeMetadata] on the platform: the cache entry. *)
Lemma storeMetadata_cache (this : API) (key : string) (data : metadata)
  (w : github) :
  let stored := run platform (storeMetadata this key data) w 0 in
  ended stored = Resolved tt ->
  gh_cache (world stored) !! ("gh.meta." +:+ key)
  = Some {| expires := (gh_clock (world stored) + 300000)%N; cached_data := data |}
  /\ current stored = 0.
Proof.
  intros stored Hended. subst stored.
  assert (Hcurrent : current (run platform (storeMetadata this key data) w 0) = 0).
  { destruct (storeMetadata_settles this platform w key data)
      as [[_ H]|(e & H & _)]; [exact H|congruence]. }
  split; [|exact Hcurrent]. clear Hcurrent.
  unfold storeMetadata in *.
  cbn [run Nat.ltb Nat.leb Nat.add] in Hended |- *.
  rewrite (run_catch_resolved _ _ _ _ _ Hended) in Hended |- *.
  apply run_bind_resolved in Hended as (branchData & _ & Hended & ->).
  set (r1 := run platform (checkMetadataRef this) w 1) in *. clearbody r1.
  apply run_bind_resolved in Hended as (item & _ & Hended & ->).
  set (r2 := run platform (uploadBlob this _) _ _) in *. clearbody r2.
  apply run_bind_resolved in Hended as (changeTree & _ & Hended & ->).
  set (r3 := run platform (updateTree this _ _ _) _ _) in *.
  assert (Hn3 : current r3 = current r2).
  { apply (calls_only_run any_request), updateTree_calls. }
  clearbody r3.
  apply run_bind_resolved in Hended as (response & _ & Hended & ->).
  set (r4 := run platform (commit_ this _ _) _ _) in *. clearbody r4.
  apply run_bind_resolved in Hended as (patched & _ & Hended & ->).
  set (r5 := run platform (patchRef this _ _ _ _) _ _) in *. clearbody r5.
  rewrite run_bind, run_request, platform_Date_now in Hended |- *.
  cbn [fst snd ended world current trace after] in Hended |- *.
  rewrite run_bind in Hended |- *.
  unfold detached in Hended |- *.
  cbn [run bind catch request platform fst snd traced ended world current trace
         after] in Hended |- *.
  destruct (current r5) as [|k] eqn:Hk; cbn in Hended; [discriminate|].
  cbn. apply lookup_insert_eq.
Qed.

(** X14.  What [storeMetadata] has stored, [retrieveMetadata] returns: on
    the platform, after a call of [storeMetadata] that resolves, the
    metadata of the key are read back from the local cache, without a
    request to the platform. *)
Theorem storeMetadata_then_retrieveMetadata (this : API) (key : string)
  (data : metadata) (w : github) :
  let stored := run platform (storeMetadata this key data) w 0 in
  let read := run platform (retrieveMetadata this key) (world stored) (current stored) in
  ended stored = Resolved tt ->
  ended read = Resolved data
  /\ world read = world stored
  /\ map fst (trace read) = [getItem ("gh.meta." +:+ key); Date_now].
Proof.
  intros stored read Hended. subst read.
  destruct (storeMetadata_cache this key data w Hended) as [Hcache Hcurrent].
  fold stored in Hcache, Hcurrent.
  rewrite (retrieveMetadata_fresh this platform (world stored) (world stored)
             (world stored) (current stored) key
             {| expires := (gh_clock (world stored) + 300000)%N; cached_data := data |}
             (gh_clock (world stored))).
  - repeat split.
  - rewrite platform_getItem, Hcache. reflexivity.
  - apply platform_Date_now.
  - cbn [expires]. lia.
Qed.

Lemma storeMetadata_then_retrieveMetadata_witness :
  let stored := run platform (storeMetadata maintainer "hello" hello_metadata)
                  empty_platform 0 in
  let read := run platform (retrieveMetadata maintainer "hello") (world stored)
                (current stored) in
  ended read = Resolved hello_metadata
  /\ world read = world stored
  /\ map fst (trace read) = [getItem ("gh.meta." +:+ "hello"); Date_now].
Proof.
  apply (storeMetadata_then_retrieveMetadata maintainer "hello" hello_metadata
           empty_platform).
  vm_compute. reflexivity.
Defined.

(** ** Writing a file into a tree *)








Lemma run_bind_known {W A B : Type} (h : handler W) (p : prog A) (f : A -> prog B)
  (w w' : W) (n n' : nat) (a : A) (t : list event) :
  run h p w n = {| ended := Resolved a; world := w'; current := n'; trace := t |} ->
  run h (bind p f) w n = after t (run h (f a) w' n').
Proof. intros H. rewrite run_bind, H. reflexivity. Qed.



Lemma checkMetadataRef_found (this : API) (branchData : sha) (w : github) (n : nat) :
  gh_refs w !! "refs/meta/_netlify_cms" = Some branchData ->
  run platform (checkMetadataRef this) w n
  = {| ended := Resolved branchData; world := w; current := n;
       trace := [(GET_ref (repoURL this) "meta" "_netlify_cms", Ok (RRef branchData))] |}.
Proof.
  intros H. unfold checkMetadataRef, request. cbn [catch bind run platform].
  change (refName "meta" "_netlify_cms") with "refs/meta/_netlify_cms".
  rewrite H. reflexivity.
Qed.

Lemma uploadBlob_platform (this : API) (item : file) (raw : content) (w : github)
  (n : nat) :
  f_raw item = Some raw ->
  let id := fresh_string "blob" (gh_blobs w) in
  run platform (uploadBlob this item) w n
  = {| ended := Resolved {| f_path := f_path item; f_sha := Some (Sha id);
                            f_raw := f_raw item; f_remove := f_remove item;
                            f_skip := f_skip item |};
       world := with_blob w id raw; current := n;
       trace := [(POST_blobs (repoURL this) raw, Ok (RSha (Sha id)))] |}.
Proof. intros H id. unfold uploadBlob, request. rewrite H. reflexivity. Qed.




Lemma createTree_new_platform (this : API) (tree' : list tree_entry)
  (updates : list tree_update) (w : github) (n : nat) :
  apply_updates [] updates = Some tree' ->
  run platform (createTree this None updates) w n
  = {| ended := Resolved (TreeSha tree'); world := w; current := n;
       trace := [(POST_trees (repoURL this) None updates, Ok (RSha (TreeSha tree')))] |}.
Proof.
  intros H. unfold createTree, request. cbn. rewrite H. reflexivity.
Qed.

Lemma checkMetadataRef_created (this : API) (w : github) (n : nat) :
  gh_refs w !! "refs/meta/_netlify_cms" = None ->
  let id := fresh_string "commit" (gh_commits w) in
  run platform (checkMetadataRef this) w n
  = {| ended := Resolved (Sha id); world := with_metadata_ref w; current := n;
       trace :=
         [(GET_ref (repoURL this) "meta" "_netlify_cms", Err not_found);
          (POST_blobs (repoURL this) (default (Raw "") (f_raw readme)),
           Ok (RSha (Sha (fresh_string "blob" (gh_blobs w)))));
          (POST_trees (repoURL this) None
             [{| u_path := "README.md"; u_mode := Some "100644"; u_type := Some "blob";
                 u_sha := ShaOf (Sha (fresh_string "blob" (gh_blobs w))) |}],
           Ok (RSha (tree_sha (first_commit_data w))));
          (POST_commits (repoURL this) "First Commit" (tree_sha (first_commit_data w))
             [] None None,
           Ok (RCommit (GitCommit (Sha id) (first_commit_data w) (Some []))));
          (POST_refs (repoURL this) "refs/meta/_netlify_cms" (Sha id),
           Ok (RRef (Sha id)))] |}.
Proof.
  intros H id. unfold checkMetadataRef. rewrite run_catch.
  rewrite run_bind, run_request. cbn [platform fst snd].
  change (refName "meta" "_netlify_cms") with "refs/meta/_netlify_cms".
  rewrite H. cbn [fst snd ended world current trace ending].
  erewrite run_bind_known; [|apply uploadBlob_platform; reflexivity].
  erewrite run_bind_known; [|apply createTree_new_platform; reflexivity].
  unfold commit_. cbn [ct_parentSha ct_sha].
  unfold createCommit, createRef, request.
  cbn [run bind platform traced after ended world current trace fst snd commit_sha
         gh_commits gh_refs with_blob].
  change (refName "meta" "_netlify_cms") with "refs/meta/_netlify_cms".
  rewrite H. reflexivity.
Qed.

Lemma with_metadata_ref_ready (w : github) :
  gh_refs (with_metadata_ref w) !! "refs/meta/_netlify_cms"
  = Some (Sha (fresh_string "commit" (gh_commits w)))
  /\ resolve_tree (with_metadata_ref w) (Sha (fresh_string "commit" (gh_commits w)))
     = Some [TreeEntry "README.md" "100644" "blob"
               (Sha (fresh_string "blob" (gh_blobs w)))].
Proof.
  unfold with_metadata_ref. cbn. rewrite !lookup_insert_eq. split; reflexivity.
Qed.




(** ** The metadata ref *)

(** X16.  [checkMetadataRef] creates the metadata ref once.  On the
    platform it always resolves, to the object the ref names from then on;
    a second call resolves to the same object with one read and no write.
    Where the ref was missing, the object is a commit without parents whose
    tree holds one file, [README.md], and no other ref is changed. *)
Theorem checkMetadataRef_creates_once (this : API) (w : github) (n : nat) :
  let first := run platform (checkMetadataRef this) w n in
  let second := run platform (checkMetadataRef this) (world first) (current first) in
  exists object,
    ended first = Resolved object
    /\ gh_refs (world first) !! "refs/meta/_netlify_cms" = Some object
    /\ second
       = {| ended := Resolved object; world := world first; current := n;
            trace := [(GET_ref (repoURL this) "meta" "_netlify_cms",
                       Ok (RRef object))] |}
    /\ (gh_refs w !! "refs/meta/_netlify_cms" = None ->
        (exists id readme_blob,
            object = Sha id
            /\ gh_commits (world first) !! id
               = Some ({| message := "First Commit"; author := None; committer := None;
                          tree_sha := TreeSha [TreeEntry "README.md" "100644" "blob"
                                                 readme_blob] |}, []))
        /\ forall ref, ref <> "refs/meta/_netlify_cms" ->
                       gh_refs (world first) !! ref = gh_refs w !! ref).
Proof.
  intros first second. subst first second.
  destruct (gh_refs w !! "refs/meta/_netlify_cms") as [branchData|] eqn:Hmeta.
  - exists branchData.
    rewrite (checkMetadataRef_found this branchData w n Hmeta).
    cbn [ended world current].
    rewrite (checkMetadataRef_found this branchData w n Hmeta).
    split; [reflexivity|]. split; [exact Hmeta|]. split; [reflexivity|].
    intros H. discriminate H.
  - exists (Sha (fresh_string "commit" (gh_commits w))).
    rewrite (checkMetadataRef_created this w n Hmeta).
    cbn [ended world current].
    destruct (with_metadata_ref_ready w) as [Href _].
    rewrite (checkMetadataRef_found this _ _ n Href).
    split; [reflexivity|]. split; [exact Href|]. split; [reflexivity|].
    intros _. split.
    + eexists _, _. split; [reflexivity|].
      unfold with_metadata_ref. cbn. apply lookup_insert_eq.
    + intros ref Hne. unfold with_metadata_ref. cbn.
      apply lookup_insert_ne. congruence.
Qed.

(** ** Status changes *)

(** X17.  Without open authoring, a status set by
    [updateUnpublishedEntryStatus] is the status read next: on the
    platform, when the call resolves, [retrieveMetadata] resolves to the
    metadata that were there with the new status, and to nothing else
    changed. *)
Theorem updateUnpublishedEntryStatus_is_read_back (this : API)
  (collectionName slug status : string) (w : github) :
  let contentKey := generateContentKey this collectionName slug in
  let updated := run platform
                   (updateUnpublishedEntryStatus this collectionName slug status) w 0 in
  useOpenAuthoring this = false ->
  ended updated = Resolved tt ->
  exists metadata,
    ended (run platform (retrieveMetadata this contentKey) w 0) = Resolved metadata
    /\ ended (run platform (retrieveMetadata this contentKey) (world updated)
                (current updated))
       = Resolved (with_status metadata status).
Proof.
  intros contentKey updated HOA Hended. subst updated.
  unfold updateUnpublishedEntryStatus in *. fold contentKey in Hended |- *.
  rewrite HOA in *. cbn [negb] in *.
  apply run_bind_resolved in Hended as (metadata & Hread & Hstored & Hrun).
  rewrite Hrun. clear Hrun.
  exists metadata. split; [exact Hread|].
  pose proof (reads_keep_platform _ w 0 (retrieveMetadata_reads this contentKey))
    as Hw.
  destruct (calls_only_run _ platform _ w 0 (retrieveMetadata_reads this contentKey))
    as [_ Hn].
  rewrite Hw, Hn in Hstored |- *.
  destruct (storeMetadata_cache this contentKey (with_status metadata status) w Hstored)
    as [Hcache Hcurrent].
  cbn [after world current].
  rewrite (retrieveMetadata_fresh this platform _ _ _ _ contentKey _ _
             ltac:(rewrite platform_getItem, Hcache; reflexivity)
             (platform_Date_now _)).
  - reflexivity.
  - cbn [expires]. lia.
Qed.

Lemma updateUnpublishedEntryStatus_is_read_back_witness :
  let w := world (run platform (storeMetadata maintainer "hello" hello_metadata)
                    empty_platform 0) in
  let updated := run platform
                   (updateUnpublishedEntryStatus maintainer "posts" "hello" "draft")
                   w 0 in
  exists metadata,
    ended (run platform (retrieveMetadata maintainer "hello") w 0) = Resolved metadata
    /\ ended (run platform (retrieveMetadata maintainer "hello") (world updated)
                (current updated))
       = Resolved (with_status metadata "draft").
Proof.
  intros w.
  apply (updateUnpublishedEntryStatus_is_read_back maintainer "posts" "hello" "draft"
           w eq_refl).
  vm_compute. reflexivity.
Defined.

(** ** What storing metadata leaves alone *)

Lemma same_branches_refl (w : github) : same_branches w w.
Proof. split; reflexivity. Qed.

Lemma same_branches_trans (w1 w2 w3 : github) :
  same_branches w1 w2 -> same_branches w2 w3 -> same_branches w1 w3.
Proof.
  intros [Hp1 Hr1] [Hp2 Hr2]. split; [congruence|].
  intros ref Hne. rewrite (Hr2 ref Hne). apply Hr1, Hne.
Qed.

Lemma asks_same_branches {A : Type} (P : req -> Prop) (p : prog A) :
  (forall r w, P r -> same_branches w (snd (platform r w))) ->
  asks P p ->
  forall w n, same_branches w (world (run platform p w n)).
Proof.
  intros HP Hp. induction Hp as [a|e|r k Hr Hk IH|k Hk IH|k Hk IH]; intros w n;
    cbn [run].
  - apply same_branches_refl.
  - apply same_branches_refl.
  - pose proof (HP r w Hr) as Hstep. destruct (platform r w) as [x w'].
    cbn [snd] in Hstep. cbn [traced world].
    apply (same_branches_trans _ _ _ Hstep), IH.
  - destruct (Nat.ltb 1 (n + 1)); [apply same_branches_refl|apply IH].
  - destruct n; apply IH.
Qed.

Lemma writes_metadata_same_branches (this : API) (key : string) (r : req)
  (w : github) :
  writes_metadata this key r -> same_branches w (snd (platform r w)).
Proof.
  destruct r; cbn [writes_metadata]; try contradiction; intros H; cbn [platform].
  - destruct (gh_refs w !! _); apply same_branches_refl.
  - destruct H as [_ ->]. destruct (gh_refs w !! _); [apply same_branches_refl|].
    split; [reflexivity|]. intros ref Hne. cbn. apply lookup_insert_ne. congruence.
  - destruct H as (_ & -> & -> & _).
    destruct (gh_refs w !! _); [|apply same_branches_refl].
    destruct (force || fast_forward w s0 s); [|apply same_branches_refl].
    split; [reflexivity|]. intros ref Hne. cbn. apply lookup_insert_ne.
    change (refName "meta" "_netlify_cms") with "refs/meta/_netlify_cms". congruence.
  - split; [reflexivity|intros; reflexivity].
  - destruct (resolve_tree w s); apply same_branches_refl.
  - destruct (match base_tree with Some s => resolve_tree w s | None => Some [] end);
      [destruct (apply_updates _ _)|]; apply same_branches_refl.
  - split; [reflexivity|intros; reflexivity].
  - split; [reflexivity|intros; reflexivity].
  - apply same_branches_refl.
Qed.

(** X18.  [storeMetadata] changes no branch and no pull request: on the
    platform, whatever its outcome, the pull requests are as they were, and
    so is every ref but the metadata ref. *)
Theorem storeMetadata_keeps_branches (this : API) (key : string) (data : metadata)
  (w : github) (n : nat) :
  same_branches w (world (run platform (storeMetadata this key data) w n)).
Proof.
  apply (asks_same_branches (writes_metadata this key)).
  - intros r w'. apply writes_metadata_same_branches.
  - apply storeMetadata_asks.
Qed.

(** ** What deleting an entry does *)

(** X19.  When the metadata of the entry can be read and
    [deleteUnpublishedEntry] resolves, the branch of the entry is gone and
    the pull request the metadata record is closed; the other refs, the
    other pull requests, the objects and the cache are as they were. *)
Theorem deleteUnpublishedEntry_deletes_branch (this : API)
  (collectionName slug : string) (metadata : metadata) (w : github) (n : nat) :
  let contentKey := generateContentKey this collectionName slug in
  let ref := refName "heads" (generateBranchName contentKey) in
  let r := run platform (deleteUnpublishedEntry this collectionName slug) w n in
  ended (run platform (retrieveMetadata this contentKey) w n) = Resolved metadata ->
  ended r = Resolved tt ->
  gh_refs (world r) !! ref = None
  /\ (forall other, other <> ref -> gh_refs (world r) !! other = gh_refs w !! other)
  /\ (forall pr, m_pr metadata = Some pr ->
                 exists p, gh_pulls w !! pr_number pr = Some p
                           /\ gh_pulls (world r) !! pr_number pr
                              = Some (with_state p "closed" (pull_merged_at p)))
  /\ (forall number,
         (forall pr, m_pr metadata = Some pr -> pr_number pr <> number) ->
         gh_pulls (world r) !! number = gh_pulls w !! number)
  /\ same_metadata w (world r).
Proof.
  intros contentKey ref r Hread Hended.
  pose proof (deleteUnpublishedEntry_platform this collectionName slug w n) as H.
  cbv zeta in H. fold contentKey r in H. rewrite Hread in H.
  cbn [delete_outcome] in H. clearbody r.
  assert (Hgone : forall w0, gh_refs (deleted_branch w0 (generateBranchName contentKey))
                             !! ref = None).
  { intros w0. unfold deleted_branch. fold ref.
    destruct (gh_refs w0 !! ref) eqn:E; [|exact E]. cbn. apply lookup_delete_eq. }
  assert (Hother : forall w0 other, other <> ref ->
             gh_refs (deleted_branch w0 (generateBranchName contentKey)) !! other
             = gh_refs w0 !! other).
  { intros w0 other Hne. unfold deleted_branch. fold ref.
    destruct (gh_refs w0 !! ref); [|reflexivity]. cbn.
    apply lookup_delete_ne. congruence. }
  assert (Hpulls : forall w0, gh_pulls (deleted_branch w0 (generateBranchName contentKey))
                              = gh_pulls w0).
  { intros w0. unfold deleted_branch. destruct (gh_refs w0 !! _); reflexivity. }
  destruct (m_pr metadata) as [pr|] eqn:Hpr.
  - destruct (gh_pulls w !! pr_number pr) as [p|] eqn:Hpull.
    + injection H as _ Hworld. rewrite Hworld.
      split; [apply Hgone|]. split; [intros other Hne; rewrite Hother; [reflexivity|exact Hne]|].
      split.
      { intros pr' [= <-]. exists p. split; [exact Hpull|].
        rewrite Hpulls. cbn. apply lookup_insert_eq. }
      split.
      { intros number Hne. rewrite Hpulls. cbn. apply lookup_insert_ne.
        apply Hne. reflexivity. }
      apply same_metadata_deleted.
    + injection H as H _. congruence.
  - injection H as _ Hworld. rewrite Hworld.
    split; [apply Hgone|]. split; [intros other Hne; rewrite Hother; [reflexivity|exact Hne]|].
    split; [intros pr H; discriminate H|].
    split; [intros number _; rewrite Hpulls; reflexivity|].
    apply (same_metadata_deleted w (gh_pulls w)).
Qed.

Lemma deleteUnpublishedEntry_deletes_branch_witness :
  let r := run platform (deleteUnpublishedEntry contributor "posts" "hello")
             (platform_with_pull "open" None) 0 in
  gh_refs (world r) !! "refs/heads/cms/owner/site/posts/hello" = None
  /\ gh_pulls (world r) !! 7 = Some (pull_7 "closed" None).
Proof.
  intros r.
  destruct (deleteUnpublishedEntry_deletes_branch contributor "posts" "hello"
              hello_metadata (platform_with_pull "open" None) 0
              ltac:(vm_compute; reflexivity) ltac:(vm_compute; reflexivity))
    as (Hgone & _ & Hclosed & _).
  split; [exact Hgone|].
  destruct (Hclosed {| pr_number := 7; pr_head := Some (Sha "h1") |} eq_refl)
    as (p & Hp & Hp').
  vm_compute in Hp. injection Hp as <-. exact Hp'.
Defined.

(** ** Adding a file *)





Section AddLeaf.

Variable this : API.
Variable f : file.
Variable blob : sha.
Hypothesis f_blob : f_sha f = Some blob.


End AddLeaf.







(** ** File trees *)






(** ** Looking up a blob *)

Lemma getBlobInTree_walk_trace (this : API) (segments : list string) :
  forall (tree : list tree_entry) (e : tree_entry) (w : github) (n : nat),
    tree_lookup segments tree = Some e ->
    S (length (trace (run platform
                        (getBlobInTree_walk this tree (removelast segments)) w n)))
    = length segments.
Proof.
  induction segments as [|k rest IH]; intros tree e w n Hlookup; [discriminate|].
  destruct rest as [|k2 rest]; [reflexivity|].
  rewrite tree_lookup_cons in Hlookup.
  destruct (find_path k tree) as [[p m ty [id|sub]]|] eqn:Hfind; try discriminate.
  change (removelast (k :: k2 :: rest)) with (k :: removelast (k2 :: rest)).
  cbn [getBlobInTree_walk]. rewrite Hfind. cbn [entry_sha].
  rewrite run_bind, getTree_platform. cbn [ended world current trace after length app].
  rewrite (IH sub e w n Hlookup). reflexivity.
Qed.

(** X23.  [getBlobInTree] returns the entry the path names, with one
    request for each segment of the path and no write.  A file that is
    missing from the tree at the top gives no entry; a directory that is
    missing is an error. *)
Theorem getBlobInTree_finds_entry (this : API) (tree : list tree_entry)
  (w : github) (n : nat) :
  (forall pathToBlob e,
      tree_lookup (path_segments pathToBlob) tree = Some e ->
      let r := run platform (getBlobInTree this (TreeSha tree) pathToBlob) w n in
      ended r = Resolved (Some e) /\ world r = w
      /\ length (trace r) = length (path_segments pathToBlob)
      /\ Forall (fun ev => is_read (fst ev) = true) (trace r))
  /\ (forall name,
         is_name name = true -> find_path name tree = None ->
         ended (run platform (getBlobInTree this (TreeSha tree) name) w n)
         = Resolved None)
  /\ (forall directory name,
         is_name directory = true -> is_name name = true ->
         find_path directory tree = None ->
         ended (run platform
                  (getBlobInTree this (TreeSha tree) (directory +:+ "/" +:+ name)) w n)
         = Rejected TypeError).
Proof.
  split; [|split].
  - intros pathToBlob e Hlookup r. subst r.
    destruct (getBlobInTree_platform this tree pathToBlob e w n Hlookup)
      as (Hended & Hworld & _ & _).
    split; [exact Hended|]. split; [exact Hworld|]. split.
    + unfold getBlobInTree. rewrite run_bind, getTree_platform.
      cbn [ended world current trace after].
      destruct (getBlobInTree_walk_platform this _ tree e w n Hlookup)
        as (subTree & name & Hlast & Hname & He & Hw).
      rewrite run_bind, He. cbn [after trace run length app].
      rewrite app_nil_r.
      apply (getBlobInTree_walk_trace this _ tree e w n Hlookup).
    + apply (calls_only_run (fun r => is_read r = true)).
      apply getBlobInTree_reads.
  - intros name Hname Hfind. unfold getBlobInTree.
    rewrite (is_name_segments name Hname).
    rewrite run_bind, getTree_platform. cbn. rewrite Hfind. reflexivity.
  - intros directory name Hdir Hname Hfind. unfold getBlobInTree.
    assert (Hsegments : path_segments (directory +:+ "/" +:+ name) = [directory; name]).
    { unfold path_segments. unfold is_name in Hdir, Hname.
      apply andb_true_iff in Hdir as [Hd1 Hd2], Hname as [Hn1 Hn2].
      rewrite (split_segment directory name Hd2), (split_slash_free name Hn2).
      cbn [List.filter]. rewrite Hd1, Hn1. reflexivity. }
    rewrite Hsegments.
    rewrite run_bind, getTree_platform. cbn. rewrite Hfind. reflexivity.
Qed.

Lemma getBlobInTree_finds_entry_witness :
  let r := run platform
             (getBlobInTree maintainer (TreeSha master_tree) "content/posts/second.md")
             empty_platform 0 in
  ended r = Resolved (Some (TreeEntry "second.md" "100644" "blob" (Sha "s1")))
  /\ world r = empty_platform
  /\ length (trace r) = 3
  /\ Forall (fun ev => is_read (fst ev) = true) (trace r).
Proof.
  apply (proj1 (getBlobInTree_finds_entry maintainer master_tree empty_platform 0)
           "content/posts/second.md"
           (TreeEntry "second.md" "100644" "blob" (Sha "s1"))).
  reflexivity.
Defined.

(** ** A branch with its pull request *)

(** X24.  [createBranchAndPullRequest] opens no pull request for a branch
    it could not create: when the creation of the branch is rejected, that
    request is the only one made, and its error is the outcome.  When the
    branch is created, without open authoring, the next and last request
    opens a pull request from that branch into the branch of the instance,
    on the origin repository. *)
Theorem createBranchAndPullRequest_branch_first {W : Type} (this : API)
  (h : handler W) (w w1 : W) (n : nat) (branchName : string) (s : sha)
  (commitMessage : string) (x : result resp) :
  let create := POST_refs (repoURL this) (refName "heads" branchName) s in
  let open := POST_pulls (originRepoURL this) commitMessage DEFAULT_PR_BODY
                branchName (branch this) in
  let r := run h (createBranchAndPullRequest this branchName s commitMessage) w n in
  h create w = (x, w1) ->
  (forall e, x = Err e ->
             r = {| ended := Rejected e; world := w1; current := n;
                    trace := [(create, Err e)] |})
  /\ (forall object, x = Ok (RRef object) -> useOpenAuthoring this = false ->
      map fst (trace r) = [create; open]
      /\ forall pull w2, h open w1 = (Ok (RPull pull), w2) ->
                         ended r = Resolved pull /\ world r = w2).
Proof.
  intros create open r Hcreate. subst r.
  unfold createBranchAndPullRequest, createBranch, createRef. fold create.
  rewrite !run_bind, run_request, Hcreate. cbn [fst snd ended world current trace].
  split.
  - intros e ->. reflexivity.
  - intros object -> HOA. cbn [after ended world current trace run].
    unfold createPR, request. rewrite HOA. cbn [bind run]. fold open.
    destruct (h open w1) as [[v|e] w2'] eqn:Hopen.
    + split; [destruct v; reflexivity|].
      intros pull w2 [= -> ->]. split; reflexivity.
    + split; [reflexivity|]. intros pull w2 H. discriminate H.
Qed.

Lemma createBranchAndPullRequest_branch_first_witness :
  let r := run platform
             (createBranchAndPullRequest maintainer "cms/hello" (Sha "h2")
                "Create Post “hello”") unmergeable_platform 0 in
  r = {| ended := Rejected (APIError "Reference already exists" (Some 422));
         world := unmergeable_platform; current := 0;
         trace := [(POST_refs "/repos/origin/site" "refs/heads/cms/hello" (Sha "h2"),
                    Err (APIError "Reference already exists" (Some 422)))] |}.
Proof.
  apply (proj1 (createBranchAndPullRequest_branch_first maintainer platform
                  unmergeable_platform unmergeable_platform 0 "cms/hello" (Sha "h2")
                  "Create Post “hello”"
                  (Err (APIError "Reference already exists" (Some 422)))
                  ltac:(vm_compute; reflexivity))).
  reflexivity.
Defined.
